(** * gst-udpjson_meta: the UDP/JSON ingestion core, embedded in Rocq

  A shallow embedding of the two translation units of the plugin:

  - [gstudpjsonmeta.cpp]: the multicast listener loop, the generic
    envelope extractor, the correlation cache and the per-object lookup
    performed by [gst_udpjson_meta_transform_ip];
  - [gstudpjsonmeta_cuav.cpp]: the C-UAV protocol decoder with its
    numeric coercion helpers and callback dispatch.

  Machine integers are [Z] with the wrap-around of every C cast written
  out; [gdouble] and [gfloat] are IEEE binary64/binary32 values of the
  standard library's [spec_float]; the [GHashTable] cache is a [gmap]
  keyed by the pair (source_id, object_id); callbacks are recorded in an
  event log, in invocation order.  Functions of json-glib and GLib that
  the plugin calls but does not define are gathered in the record
  [GLib]; every definition of the plugin takes it as a parameter. *)

From Stdlib Require Import ZArith List String Ascii Lia Bool SpecFloat.
From Stdlib.Strings Require Import Byte.
From stdpp Require Import gmap strings list fin_maps pretty.

Local Open Scope Z_scope.
Set Warnings "-register-all,-clear-no-such-hyp".

(** ** Machine integers *)

Module Int.

Definition G_MAXUINT64 : Z := 2 ^ 64 - 1.

(** [(guintN) z]: reduction modulo [2^N]. *)
Definition to_guint8 (z : Z) : Z := z mod 2 ^ 8.
Definition to_guint16 (z : Z) : Z := z mod 2 ^ 16.
Definition to_guint32 (z : Z) : Z := z mod 2 ^ 32.
Definition to_guint64 (z : Z) : Z := z mod 2 ^ 64.

(** [(gint16) z]: two's complement reading of the low 16 bits. *)
Definition to_gint16 (z : Z) : Z :=
  let u := z mod 2 ^ 16 in
  if u <? 2 ^ 15 then u else u - 2 ^ 16.

(** Unsigned 64-bit subtraction [a - b]. *)
Definition sub_guint64 (a b : Z) : Z := (a - b) mod 2 ^ 64.

End Int.

(** ** Floating point *)

Module Float.

Definition gdouble : Type := spec_float.
Definition gfloat : Type := spec_float.

Definition dbl_prec : Z := 53.
Definition dbl_emax : Z := 1024.
Definition flt_prec : Z := 24.
Definition flt_emax : Z := 128.

Definition dzero : gdouble := S754_zero false.

(** [(gdouble) i] for a 64-bit integer [i], rounded to nearest even. *)
Definition gdouble_of_int64 (i : Z) : gdouble :=
  binary_normalize dbl_prec dbl_emax i 0 false.

(** [(gfloat) d]: the binary64 value rounded to binary32. *)
Definition gfloat_of_gdouble (d : gdouble) : gfloat :=
  match d with
  | S754_finite s m e =>
      binary_normalize flt_prec flt_emax (cond_Zopp s (Z.pos m)) e s
  | _ => d
  end.

(** Integer part of a finite value, rounded toward zero. *)
Definition trunc (d : gdouble) : option Z :=
  match d with
  | S754_zero _ => Some 0
  | S754_finite s m e =>
      let a := if 0 <=? e then Z.pos m * 2 ^ e else Z.pos m / 2 ^ (- e) in
      Some (cond_Zopp s a)
  | _ => None
  end.

End Float.

(** ** JSON nodes as json-glib presents them *)

Module Json.

Import Float.

(** The value types the plugin tests for with
    [json_node_get_value_type]. *)
Inductive GType : Type :=
| G_TYPE_INVALID
| G_TYPE_BOOLEAN
| G_TYPE_INT
| G_TYPE_INT64
| G_TYPE_UINT64
| G_TYPE_FLOAT
| G_TYPE_DOUBLE
| G_TYPE_STRING
| JSON_TYPE_OBJECT
| JSON_TYPE_ARRAY.

Definition GType_eqb (a b : GType) : bool :=
  match a, b with
  | G_TYPE_INVALID, G_TYPE_INVALID
  | G_TYPE_BOOLEAN, G_TYPE_BOOLEAN
  | G_TYPE_INT, G_TYPE_INT
  | G_TYPE_INT64, G_TYPE_INT64
  | G_TYPE_UINT64, G_TYPE_UINT64
  | G_TYPE_FLOAT, G_TYPE_FLOAT
  | G_TYPE_DOUBLE, G_TYPE_DOUBLE
  | G_TYPE_STRING, G_TYPE_STRING
  | JSON_TYPE_OBJECT, JSON_TYPE_OBJECT
  | JSON_TYPE_ARRAY, JSON_TYPE_ARRAY => true
  | _, _ => false
  end.

(** Scalar payload of a [JSON_NODE_VALUE] node.  json-glib's parser only
    produces [VString], [VInt64], [VDouble] and [VBoolean]; the other
    three are the value types the plugin additionally branches on. *)
Inductive JsonValue : Type :=
| VString (s : string)
| VInt64 (i : Z)
| VInt (i : Z)
| VDouble (d : gdouble)
| VFloat (d : gdouble)
| VBoolean (b : bool)
| VUInt64 (u : Z).

Inductive JsonNode : Type :=
| JsonNull
| JsonVal (v : JsonValue)
| JsonObj (members : list (string * JsonNode))
| JsonArr (elements : list JsonNode).

(** A [JsonObject] is its member list. *)
Definition JsonObject : Type := list (string * JsonNode).
Definition JsonArray : Type := list JsonNode.

Definition JSON_NODE_HOLDS_VALUE (n : JsonNode) : bool :=
  match n with JsonVal _ => true | _ => false end.

Definition JSON_NODE_HOLDS_OBJECT (n : JsonNode) : bool :=
  match n with JsonObj _ => true | _ => false end.

Definition JSON_NODE_HOLDS_ARRAY (n : JsonNode) : bool :=
  match n with JsonArr _ => true | _ => false end.

Definition json_node_get_value_type (n : JsonNode) : GType :=
  match n with
  | JsonNull => G_TYPE_INVALID
  | JsonVal (VString _) => G_TYPE_STRING
  | JsonVal (VInt64 _) => G_TYPE_INT64
  | JsonVal (VInt _) => G_TYPE_INT
  | JsonVal (VDouble _) => G_TYPE_DOUBLE
  | JsonVal (VFloat _) => G_TYPE_FLOAT
  | JsonVal (VBoolean _) => G_TYPE_BOOLEAN
  | JsonVal (VUInt64 _) => G_TYPE_UINT64
  | JsonObj _ => JSON_TYPE_OBJECT
  | JsonArr _ => JSON_TYPE_ARRAY
  end.

(** The typed getters, on the node kinds the plugin applies them to; on
    any other node json-glib returns the zero of the result type. *)
Definition json_node_get_int (n : JsonNode) : Z :=
  match n with
  | JsonVal (VInt64 i) | JsonVal (VInt i) => i
  | _ => 0
  end.

Definition json_node_get_double (n : JsonNode) : gdouble :=
  match n with
  | JsonVal (VDouble d) | JsonVal (VFloat d) => d
  | _ => dzero
  end.

Definition json_node_get_string (n : JsonNode) : string :=
  match n with
  | JsonVal (VString s) => s
  | _ => EmptyString
  end.

Definition json_node_get_boolean (n : JsonNode) : bool :=
  match n with
  | JsonVal (VBoolean b) => b
  | _ => false
  end.

Definition json_node_get_uint64 (n : JsonNode) : Z :=
  match n with
  | JsonVal (VUInt64 u) => u
  | _ => 0
  end.

Definition json_node_get_object (n : JsonNode) : JsonObject :=
  match n with JsonObj ms => ms | _ => [] end.

Definition json_node_get_array (n : JsonNode) : JsonArray :=
  match n with JsonArr es => es | _ => [] end.

(** [json_object_get_member]: the node stored under [name], [None] for
    C's [NULL]. *)
Fixpoint json_object_get_member (obj : JsonObject) (name : string)
  : option JsonNode :=
  match obj with
  | [] => None
  | (k, v) :: rest =>
      if String.eqb k name then Some v
      else json_object_get_member rest name
  end.

Definition json_object_has_member (obj : JsonObject) (name : string)
  : bool :=
  match json_object_get_member obj name with
  | Some _ => true
  | None => false
  end.

End Json.

(** ** Library functions the plugin calls *)

Module Lib.

Import Float Json.

(** Outcome of [json_parser_load_from_data] followed by
    [json_parser_get_root]. *)
Inductive LoadResult : Type :=
| LoadFailed
| LoadedNoRoot
| LoadedRoot (root : JsonNode).

Record GLib : Type := {
  (** json-glib's parser run on a byte sequence, and the root it leaves
      behind. *)
  json_parse_text : list byte -> LoadResult;
  (** [json_to_string (node, FALSE)]: compact JSON text. *)
  json_to_string : JsonNode -> string;
  (** [g_ascii_strtoull (s, NULL, 10)], a value in [0, 2^64). *)
  g_ascii_strtoull : string -> Z;
  (** [g_ascii_strtoll (s, NULL, 10)], a value in [-2^63, 2^63). *)
  g_ascii_strtoll : string -> Z;
  (** [g_ascii_strtod (s, NULL)]. *)
  g_ascii_strtod : string -> gdouble;
  (** [g_strdup_printf ("%f", d)]. *)
  printf_f : gdouble -> string;
  (** [g_strdup_printf] with [G_GINT64_FORMAT] / [G_GUINT64_FORMAT]. *)
  printf_gint64 : Z -> string;
  printf_guint64 : Z -> string;
  (** What the machine leaves in a [guint64] when a [gdouble] outside
      [0, 2^64) is cast to it (C leaves this undefined). *)
  cast_guint64_out_of_range : gdouble -> Z
}.

(** [json_parser_load_from_data (parser, data, len, NULL)]: the parser
    reads the first [len] bytes at [data]. *)
Definition json_parser_load_from_data (lib : GLib) (data : list byte)
    (len : Z) : LoadResult :=
  json_parse_text lib (take (Z.to_nat len) data).

(** [(guint64) d]. *)
Definition guint64_of_gdouble (lib : GLib) (d : gdouble) : Z :=
  match trunc d with
  | Some z =>
      if (0 <=? z) && (z <=? Int.G_MAXUINT64) then z
      else Int.to_guint64 (cast_guint64_out_of_range lib d)
  | None => Int.to_guint64 (cast_guint64_out_of_range lib d)
  end.

End Lib.

(** ** gstudpjsonmeta.cpp: extractor, cache, lookup and listener *)

Module UdpJson.

Import Float Json Lib.

Definition DEFAULT_JSON_KEY : string := "value".
Definition DEFAULT_OBJECT_ID_KEY : string := "object_id".
Definition DEFAULT_SOURCE_ID_KEY : string := "source_id".
Definition DEFAULT_CACHE_TTL_MS : Z := 1000.
Definition DEFAULT_MAX_CACHE_SIZE : Z := 2048.

(** [UdpJsonCacheKey]: [(source_id : guint, object_id : guint64)], compared
    component-wise by [udpjson_cache_key_equal]. *)
Definition UdpJsonCacheKey : Type := (Z * Z)%type.

Record UdpJsonCacheValue : Type := {
  value : string;
  recv_ts_us : Z
}.

(** [UdpJsonObjMeta], the user metadata attached to a tracked object. *)
Record UdpJsonObjMeta : Type := {
  meta_key : string;
  meta_value : string;
  meta_recv_ts_us : Z
}.

(** The fields of [GstUdpJsonMeta] read by the functions below; a [gchar *]
    property that may be [NULL] is an [option]. *)
Record GstUdpJsonMeta : Type := {
  json_key : option string;
  object_id_key : option string;
  source_id_key : option string;
  cache_ttl_ms : Z;
  max_cache_size : Z;
  cache : gmap (Z * Z) UdpJsonCacheValue
}.

Definition set_cache (self : GstUdpJsonMeta)
    (c : gmap (Z * Z) UdpJsonCacheValue) : GstUdpJsonMeta :=
  {| json_key := json_key self;
     object_id_key := object_id_key self;
     source_id_key := source_id_key self;
     cache_ttl_ms := cache_ttl_ms self;
     max_cache_size := max_cache_size self;
     cache := c |}.

Definition set_cache_ttl_ms (self : GstUdpJsonMeta) (ttl : Z)
  : GstUdpJsonMeta :=
  {| json_key := json_key self;
     object_id_key := object_id_key self;
     source_id_key := source_id_key self;
     cache_ttl_ms := ttl;
     max_cache_size := max_cache_size self;
     cache := cache self |}.

Definition set_max_cache_size (self : GstUdpJsonMeta) (n : Z)
  : GstUdpJsonMeta :=
  {| json_key := json_key self;
     object_id_key := object_id_key self;
     source_id_key := source_id_key self;
     cache_ttl_ms := cache_ttl_ms self;
     max_cache_size := n;
     cache := cache self |}.

(** [gst_udpjson_meta_init]. *)
Definition gst_udpjson_meta_init : GstUdpJsonMeta :=
  {| json_key := Some DEFAULT_JSON_KEY;
     object_id_key := Some DEFAULT_OBJECT_ID_KEY;
     source_id_key := Some DEFAULT_SOURCE_ID_KEY;
     cache_ttl_ms := DEFAULT_CACHE_TTL_MS;
     max_cache_size := DEFAULT_MAX_CACHE_SIZE;
     cache := ∅ |}.

(** [g_hash_table_size]. *)
Definition g_hash_table_size (c : gmap (Z * Z) UdpJsonCacheValue) : Z :=
  Z.of_nat (size c).

(** [udpjson_parse_uint64]: [Some v] when the function returns [TRUE] with
    [*out = v]. *)
Definition udpjson_parse_uint64 (lib : GLib) (node : option JsonNode)
  : option Z :=
  match node with
  | None => None
  | Some n =>
      let vtype := json_node_get_value_type n in
      if GType_eqb vtype G_TYPE_STRING then
        Some (g_ascii_strtoull lib (json_node_get_string n))
      else if GType_eqb vtype G_TYPE_INT64 then
        Some (Int.to_guint64 (json_node_get_int n))
      else if GType_eqb vtype G_TYPE_DOUBLE then
        Some (guint64_of_gdouble lib (json_node_get_double n))
      else if GType_eqb vtype G_TYPE_UINT64 then
        Some (json_node_get_uint64 n)
      else None
  end.

(** [udpjson_node_to_string]; [None] is the [NULL] return. *)
Definition udpjson_node_to_string (lib : GLib) (node : option JsonNode)
  : option string :=
  match node with
  | None => None
  | Some n =>
      if negb (JSON_NODE_HOLDS_VALUE n) then Some (json_to_string lib n)
      else
        let vtype := json_node_get_value_type n in
        if GType_eqb vtype G_TYPE_STRING then
          Some (json_node_get_string n)
        else if GType_eqb vtype G_TYPE_INT64 then
          Some (printf_gint64 lib (json_node_get_int n))
        else if GType_eqb vtype G_TYPE_DOUBLE then
          Some (printf_f lib (json_node_get_double n))
        else if GType_eqb vtype G_TYPE_BOOLEAN then
          Some (if json_node_get_boolean n then "true" else "false")
        else if GType_eqb vtype G_TYPE_UINT64 then
          Some (printf_guint64 lib (json_node_get_uint64 n))
        else Some (json_to_string lib n)
  end.

(** [udpjson_cache_update]; [now_us] is the reading of
    [g_get_monotonic_time] taken inside the call. *)
Definition udpjson_cache_update (self : GstUdpJsonMeta)
    (source_id object_id : Z) (val : option string) (now_us : Z)
  : GstUdpJsonMeta :=
  match val with
  | None => self
  | Some v =>
      let c :=
        if (0 <? max_cache_size self)
           && (max_cache_size self <=? g_hash_table_size (cache self))
        then ∅ else cache self in
      set_cache self
        (<[(source_id, object_id) :=
             {| value := v; recv_ts_us := now_us |}]> c)
  end.

(** The member of [obj] under a configured key, as the three guarded
    [json_object_get_member] calls of [udpjson_parse_and_cache] fetch
    it. *)
Definition configured_member (key : option string) (obj : JsonObject)
  : option JsonNode :=
  match key with
  | Some k =>
      if json_object_has_member obj k then json_object_get_member obj k
      else None
  | None => None
  end.

(** [udpjson_parse_and_cache]. *)
Definition udpjson_parse_and_cache (lib : GLib) (self : GstUdpJsonMeta)
    (data : list byte) (len : Z) (now_us : Z) : GstUdpJsonMeta :=
  if len <=? 0 then self
  else
    match json_parser_load_from_data lib data len with
    | LoadFailed => self
    | LoadedNoRoot => self
    | LoadedRoot root =>
        if negb (JSON_NODE_HOLDS_OBJECT root) then self
        else
          let obj := json_node_get_object root in
          let obj_id_node := configured_member (object_id_key self) obj in
          let src_id_node := configured_member (source_id_key self) obj in
          let val_node := configured_member (json_key self) obj in
          match obj_id_node, val_node with
          | Some _, Some _ =>
              match udpjson_parse_uint64 lib obj_id_node with
              | None => self
              | Some object_id =>
                  let source_id64 :=
                    match src_id_node with
                    | Some _ =>
                        match udpjson_parse_uint64 lib src_id_node with
                        | Some s => s
                        | None => 0
                        end
                    | None => 0
                    end in
                  match udpjson_node_to_string lib val_node with
                  | Some value_str =>
                      udpjson_cache_update self (Int.to_guint32 source_id64)
                        object_id (Some value_str) now_us
                  | None => self
                  end
              end
          | _, _ => self
          end
    end.

(** *** The read path of [gst_udpjson_meta_transform_ip] *)

(** [UNTRACKED_OBJECT_ID] of DeepStream's [nvdsmeta.h]. *)
Definition UNTRACKED_OBJECT_ID : Z := 2 ^ 64 - 1.

(** Age of an entry in milliseconds:
    [(now_us - cached->recv_ts_us) / 1000] on [guint64]. *)
Definition age_ms (now_us recv : Z) : Z := Int.sub_guint64 now_us recv / 1000.

(** The hash-table lookup and the TTL test of the object loop: what is
    handed to [udpjson_attach_obj_meta], or [None] when the loop
    [continue]s. *)
Definition udpjson_cache_lookup (self : GstUdpJsonMeta)
    (source_id object_id : Z) (now_us : Z) : option (string * Z) :=
  match cache self !! (source_id, object_id) with
  | None => None
  | Some cached =>
      if (0 <? cache_ttl_ms self)
         && (cache_ttl_ms self <? age_ms now_us (recv_ts_us cached))
      then None
      else Some (value cached, recv_ts_us cached)
  end.

(** Body of the object loop: the metadata attached to one object. *)
Definition transform_object (self : GstUdpJsonMeta) (source_id : Z)
    (now_us : Z) (object_id : Z) : option UdpJsonObjMeta :=
  if object_id =? UNTRACKED_OBJECT_ID then None
  else
    match udpjson_cache_lookup self source_id object_id now_us with
    | None => None
    | Some (v, ts) =>
        Some {| meta_key := match json_key self with
                            | Some k => k
                            | None => DEFAULT_JSON_KEY
                            end;
                meta_value := v;
                meta_recv_ts_us := ts |}
    end.

(** One frame: every object of the frame, in list order. *)
Definition transform_frame (self : GstUdpJsonMeta) (now_us : Z)
    (frame : Z * list Z) : list (Z * option UdpJsonObjMeta) :=
  map (fun oid => (oid, transform_object self (fst frame) now_us oid))
      (snd frame).

(** *** The listener thread *)

Definition BUF_SIZE : Z := 8192.
Definition POLLIN : Z := 1.

(** What [recvfrom] finds on the socket. *)
Inductive Incoming : Type :=
| RecvError
| RecvDatagram (payload : list byte).

(** [recvfrom (sockfd, buf, n, 0, NULL, NULL)]: the return value and the
    buffer afterwards; a datagram longer than [n] is cut to [n] bytes. *)
Definition recvfrom (inc : Incoming) (buf : list byte) (n : Z)
  : Z * list byte :=
  match inc with
  | RecvError => (-1, buf)
  | RecvDatagram payload =>
      let got := take (Z.to_nat n) payload in
      (Z.of_nat (length got), got ++ drop (length got) buf)
  end.

(** The functions of the plugin a listener round may call, with the
    arguments it passes. *)
Inductive Call : Type :=
| call_udpjson_parse_and_cache (data : list byte) (len : Z)
| call_cuav_parser_parse (data : list byte) (len : Z).

(** What one pass through the loop body observes: the stop flag read at
    the loop head, the result of [poll], the socket, and the clock. *)
Record Round : Type := {
  stop_flag : bool;
  poll_ret : Z;
  revents : Z;
  incoming : Incoming;
  clock_us : Z
}.

Record ListenerState : Type := {
  self_ : GstUdpJsonMeta;
  buf : list byte;
  calls : list Call
}.

(** Body of the [while] loop of [udpjson_recv_thread]. *)
Definition udpjson_recv_round (lib : GLib) (st : ListenerState) (r : Round)
  : ListenerState :=
  if poll_ret r <=? 0 then st
  else if Z.land (revents r) POLLIN =? 0 then st
  else
    let '(len, buf1) := recvfrom (incoming r) (buf st) (BUF_SIZE - 1) in
    if len <=? 0 then
      {| self_ := self_ st; buf := buf1; calls := calls st |}
    else
      let buf2 := <[Z.to_nat len := x00]> buf1 in
      {| self_ := udpjson_parse_and_cache lib (self_ st) buf2 len (clock_us r);
         buf := buf2;
         calls := calls st ++ [call_udpjson_parse_and_cache buf2 len] |}.

(** [udpjson_recv_thread], run over the rounds the loop goes through; it
    leaves the loop at the first round that reads a set stop flag. *)
Fixpoint udpjson_recv_thread (lib : GLib) (st : ListenerState)
    (rounds : list Round) : ListenerState :=
  match rounds with
  | [] => st
  | r :: rest =>
      if stop_flag r then st
      else udpjson_recv_thread lib (udpjson_recv_round lib st r) rest
  end.

(** [gst_udpjson_meta_transform_ip]: the metadata attached to the objects
    of every frame of the batch; [None] is a buffer without batch
    metadata.  The clock is read once, before the frame loop. *)
Definition gst_udpjson_meta_transform_ip (self : GstUdpJsonMeta) (now_us : Z)
    (batch_meta : option (list (Z * list Z)))
  : list (list (Z * option UdpJsonObjMeta)) :=
  match batch_meta with
  | None => []
  | Some frames => map (transform_frame self now_us) frames
  end.

End UdpJson.

(** ** gstudpjsonmeta_cuav.cpp: the C-UAV protocol decoder *)

Module Cuav.

Import Float Json Lib.

Definition CUAV_MSG_ID_GUIDANCE : Z := 0x7111.
Definition CUAV_MSG_ID_EO_SYSTEM : Z := 0x7201.
Definition CUAV_MSG_ID_EO_SERVO : Z := 0x7204.

(** The two fixed member names of a message: the common header
    and the message-specific payload. *)
Definition KEY_COMMON : string := "公共内容".
Definition KEY_SPECIFIC : string := "具体信息".
Definition KEY_CONT : string := "cont".

(** [CUAVCommonHeader]. *)
Module Header.
Record t : Type := {
  msg_id : Z;
  msg_sn : Z;
  msg_type : Z;
  tx_sys_id : Z;
  tx_dev_type : Z;
  tx_dev_id : Z;
  tx_subdev_id : Z;
  rx_sys_id : Z;
  rx_dev_type : Z;
  rx_dev_id : Z;
  rx_subdev_id : Z;
  yr : Z;
  mo : Z;
  dy : Z;
  h : Z;
  min : Z;
  sec : Z;
  msec : gfloat;
  cont_type : Z;
  cont_sum : Z;
  recv_ts_us : Z
}.
End Header.

(** [CUAVGuidanceInfo] (msg_id = 0x7111). *)
Module Guidance.
Record t : Type := {
  yr : Z;
  mo : Z;
  dy : Z;
  h : Z;
  min : Z;
  sec : Z;
  msec : gfloat;
  tar_id : Z;
  tar_category : Z;
  guid_stat : Z;
  ecef_x : gdouble;
  ecef_y : gdouble;
  ecef_z : gdouble;
  ecef_vx : gdouble;
  ecef_vy : gdouble;
  ecef_vz : gdouble;
  h_dvi_pct : gfloat;
  v_dvi_pct : gfloat;
  enu_r : gdouble;
  enu_a : gdouble;
  enu_e : gdouble;
  enu_v : gdouble;
  enu_h : gdouble;
  lon : gdouble;
  lat : gdouble;
  alt : gdouble
}.
End Guidance.

(** [CUAVEOSystemParam] (msg_id = 0x7201). *)
Module EOSystem.
Record t : Type := {
  sv_stat : Z;
  sv_err : Z;
  st_mode_h : Z;
  st_mode_v : Z;
  st_loc_h : gfloat;
  st_loc_v : gfloat;
  pt_stat : Z;
  pt_err : Z;
  pt_focal : gfloat;
  pt_focus : Z;
  pt_fov_h : gfloat;
  pt_fov_v : gfloat;
  ir_stat : Z;
  ir_err : Z;
  ir_focal : gfloat;
  ir_focus : Z;
  ir_fov_h : gfloat;
  ir_fov_v : gfloat;
  dm_stat : Z;
  dm_err : Z;
  dm_dev : Z;
  trk_dev : Z;
  pt_trk_link : Z;
  ir_trk_link : Z;
  trk_str : Z;
  trk_mod : Z;
  det_trk : Z;
  trk_stat : Z;
  pt_zoom : Z;
  ir_zoom : Z;
  pt_focus_mode : Z;
  ir_focus_mode : Z
}.
End EOSystem.

(** [CUAVServoControl] (msg_id = 0x7204). *)
Module Servo.
Record t : Type := {
  dev_id : Z;
  dev_en : Z;
  ctrl_en : Z;
  mode_h : Z;
  mode_v : Z;
  speed_en_h : Z;
  speed_h : Z;
  speed_en_v : Z;
  speed_v : Z;
  loc_en_h : Z;
  loc_h : gfloat;
  loc_en_v : Z;
  loc_v : gfloat;
  offset_en : Z;
  offset_h : Z;
  offset_v : Z
}.
End Servo.

Definition CUAVCommonHeader : Type := Header.t.
Definition CUAVGuidanceInfo : Type := Guidance.t.
Definition CUAVEOSystemParam : Type := EOSystem.t.
Definition CUAVServoControl : Type := Servo.t.

(** [struct _CUAVParser]: a callback slot holds whether a function is
    registered (the pointer is not [NULL]) and its user data. *)
Record CUAVParser : Type := {
  guidance_callback : bool;
  guidance_user_data : Z;
  eo_system_callback : bool;
  eo_system_user_data : Z;
  servo_callback : bool;
  servo_user_data : Z;
  raw_callback : bool;
  raw_user_data : Z;
  debug_enabled : bool
}.

(** [cuav_parser_new]: [g_malloc0] leaves every slot empty. *)
Definition cuav_parser_new : CUAVParser :=
  {| guidance_callback := false; guidance_user_data := 0;
     eo_system_callback := false; eo_system_user_data := 0;
     servo_callback := false; servo_user_data := 0;
     raw_callback := false; raw_user_data := 0;
     debug_enabled := false |}.

Definition cuav_parser_set_debug (p : CUAVParser) (enable : bool)
  : CUAVParser :=
  {| guidance_callback := guidance_callback p;
     guidance_user_data := guidance_user_data p;
     eo_system_callback := eo_system_callback p;
     eo_system_user_data := eo_system_user_data p;
     servo_callback := servo_callback p;
     servo_user_data := servo_user_data p;
     raw_callback := raw_callback p;
     raw_user_data := raw_user_data p;
     debug_enabled := enable |}.

Definition cuav_parser_set_guidance_callback (p : CUAVParser)
    (callback : bool) (user_data : Z) : CUAVParser :=
  {| guidance_callback := callback;
     guidance_user_data := user_data;
     eo_system_callback := eo_system_callback p;
     eo_system_user_data := eo_system_user_data p;
     servo_callback := servo_callback p;
     servo_user_data := servo_user_data p;
     raw_callback := raw_callback p;
     raw_user_data := raw_user_data p;
     debug_enabled := debug_enabled p |}.

Definition cuav_parser_set_eo_system_callback (p : CUAVParser)
    (callback : bool) (user_data : Z) : CUAVParser :=
  {| guidance_callback := guidance_callback p;
     guidance_user_data := guidance_user_data p;
     eo_system_callback := callback;
     eo_system_user_data := user_data;
     servo_callback := servo_callback p;
     servo_user_data := servo_user_data p;
     raw_callback := raw_callback p;
     raw_user_data := raw_user_data p;
     debug_enabled := debug_enabled p |}.

Definition cuav_parser_set_servo_control_callback (p : CUAVParser)
    (callback : bool) (user_data : Z) : CUAVParser :=
  {| guidance_callback := guidance_callback p;
     guidance_user_data := guidance_user_data p;
     eo_system_callback := eo_system_callback p;
     eo_system_user_data := eo_system_user_data p;
     servo_callback := callback;
     servo_user_data := user_data;
     raw_callback := raw_callback p;
     raw_user_data := raw_user_data p;
     debug_enabled := debug_enabled p |}.

Definition cuav_parser_set_raw_callback (p : CUAVParser)
    (callback : bool) (user_data : Z) : CUAVParser :=
  {| guidance_callback := guidance_callback p;
     guidance_user_data := guidance_user_data p;
     eo_system_callback := eo_system_callback p;
     eo_system_user_data := eo_system_user_data p;
     servo_callback := servo_callback p;
     servo_user_data := servo_user_data p;
     raw_callback := callback;
     raw_user_data := user_data;
     debug_enabled := debug_enabled p |}.

(** *** Numeric coercion helpers

    Each returns [Some v] when the C function returns [TRUE] after storing
    [v] through [out], and [None] when it returns [FALSE] and leaves [*out]
    alone. *)

Definition cuav_parse_double (lib : GLib) (obj : JsonObject) (name : string)
  : option gdouble :=
  match json_object_get_member obj name with
  | None => None
  | Some node =>
      let vtype := json_node_get_value_type node in
      if GType_eqb vtype G_TYPE_DOUBLE then Some (json_node_get_double node)
      else if GType_eqb vtype G_TYPE_FLOAT then
        Some (json_node_get_double node)
      else if GType_eqb vtype G_TYPE_INT64 then
        Some (gdouble_of_int64 (json_node_get_int node))
      else if GType_eqb vtype G_TYPE_INT then
        Some (gdouble_of_int64 (json_node_get_int node))
      else if GType_eqb vtype G_TYPE_STRING then
        Some (g_ascii_strtod lib (json_node_get_string node))
      else None
  end.

Definition cuav_parse_float (lib : GLib) (obj : JsonObject) (name : string)
  : option gfloat :=
  match cuav_parse_double lib obj name with
  | Some val => Some (gfloat_of_gdouble val)
  | None => None
  end.

Definition cuav_parse_uint16 (lib : GLib) (obj : JsonObject) (name : string)
  : option Z :=
  match json_object_get_member obj name with
  | None => None
  | Some node =>
      let vtype := json_node_get_value_type node in
      if GType_eqb vtype G_TYPE_INT64 then
        let val := json_node_get_int node in
        Some (Int.to_guint16 (if 0 <? val then val else 0))
      else if GType_eqb vtype G_TYPE_INT then
        let val := json_node_get_int node in
        Some (Int.to_guint16 (if 0 <? val then val else 0))
      else if GType_eqb vtype G_TYPE_STRING then
        Some (Int.to_guint16 (g_ascii_strtoull lib (json_node_get_string node)))
      else None
  end.

Definition cuav_parse_uint8 (lib : GLib) (obj : JsonObject) (name : string)
  : option Z :=
  match cuav_parse_uint16 lib obj name with
  | Some val16 => Some (Int.to_guint8 val16)
  | None => None
  end.

Definition cuav_parse_int16 (lib : GLib) (obj : JsonObject) (name : string)
  : option Z :=
  match json_object_get_member obj name with
  | None => None
  | Some node =>
      let vtype := json_node_get_value_type node in
      if GType_eqb vtype G_TYPE_INT64 then
        Some (Int.to_gint16 (json_node_get_int node))
      else if GType_eqb vtype G_TYPE_INT then
        Some (Int.to_gint16 (json_node_get_int node))
      else if GType_eqb vtype G_TYPE_STRING then
        Some (Int.to_gint16 (g_ascii_strtoll lib (json_node_get_string node)))
      else None
  end.

(** In the [G_TYPE_INT64] branch the value is first stored in a [guint64],
    so a negative integer is not clamped to zero here. *)
Definition cuav_parse_uint32 (lib : GLib) (obj : JsonObject) (name : string)
  : option Z :=
  match json_object_get_member obj name with
  | None => None
  | Some node =>
      let vtype := json_node_get_value_type node in
      if GType_eqb vtype G_TYPE_INT64 then
        let val := Int.to_guint64 (json_node_get_int node) in
        Some (Int.to_guint32 (if 0 <? val then val else 0))
      else if GType_eqb vtype G_TYPE_INT then
        let val := json_node_get_int node in
        Some (Int.to_guint32 (if 0 <? val then val else 0))
      else if GType_eqb vtype G_TYPE_STRING then
        Some (Int.to_guint32 (g_ascii_strtoull lib (json_node_get_string node)))
      else None
  end.

(** A field of a record cleared by [memset] and then written by a helper
    only when it returns [TRUE]. *)
Definition field_z (o : option Z) : Z :=
  match o with Some v => v | None => 0 end.

Definition field_f (o : option spec_float) : spec_float :=
  match o with Some v => v | None => dzero end.

(** [cuav_parse_common_header].  [msg_sn] is a [guint32] written through a
    [guint16] pointer: on the little-endian targets of the plugin its low
    half receives the parsed value and its high half stays zero. *)
Definition cuav_parse_common_header (lib : GLib) (common : JsonObject)
    (recv_ts_us : Z) : CUAVCommonHeader :=
  {| Header.msg_id := field_z (cuav_parse_uint16 lib common "msg_id");
     Header.msg_sn := field_z (cuav_parse_uint16 lib common "msg_sn");
     Header.msg_type := field_z (cuav_parse_uint8 lib common "msg_type");
     Header.tx_sys_id := field_z (cuav_parse_uint16 lib common "tx_sys_id");
     Header.tx_dev_type := field_z (cuav_parse_uint16 lib common "tx_dev_type");
     Header.tx_dev_id := field_z (cuav_parse_uint16 lib common "tx_dev_id");
     Header.tx_subdev_id := field_z (cuav_parse_uint16 lib common "tx_subdev_id");
     Header.rx_sys_id := field_z (cuav_parse_uint16 lib common "rx_sys_id");
     Header.rx_dev_type := field_z (cuav_parse_uint16 lib common "rx_dev_type");
     Header.rx_dev_id := field_z (cuav_parse_uint16 lib common "rx_dev_id");
     Header.rx_subdev_id := field_z (cuav_parse_uint16 lib common "rx_subdev_id");
     Header.yr := field_z (cuav_parse_uint16 lib common "yr");
     Header.mo := field_z (cuav_parse_uint8 lib common "mo");
     Header.dy := field_z (cuav_parse_uint8 lib common "dy");
     Header.h := field_z (cuav_parse_uint8 lib common "h");
     Header.min := field_z (cuav_parse_uint8 lib common "min");
     Header.sec := field_z (cuav_parse_uint8 lib common "sec");
     Header.msec := field_f (cuav_parse_float lib common "msec");
     Header.cont_type := field_z (cuav_parse_uint8 lib common "cont_type");
     Header.cont_sum := field_z (cuav_parse_uint16 lib common "cont_sum");
     Header.recv_ts_us := recv_ts_us |}.

(** [cuav_parse_guidance]. *)
Definition cuav_parse_guidance (lib : GLib) (specific : JsonObject)
  : CUAVGuidanceInfo :=
  {| Guidance.yr := field_z (cuav_parse_uint16 lib specific "yr");
     Guidance.mo := field_z (cuav_parse_uint8 lib specific "mo");
     Guidance.dy := field_z (cuav_parse_uint8 lib specific "dy");
     Guidance.h := field_z (cuav_parse_uint8 lib specific "h");
     Guidance.min := field_z (cuav_parse_uint8 lib specific "min");
     Guidance.sec := field_z (cuav_parse_uint8 lib specific "sec");
     Guidance.msec := field_f (cuav_parse_float lib specific "msec");
     Guidance.tar_id := field_z (cuav_parse_uint32 lib specific "tar_id");
     Guidance.tar_category := field_z (cuav_parse_uint16 lib specific "tar_category");
     Guidance.guid_stat := field_z (cuav_parse_uint8 lib specific "guid_stat");
     Guidance.ecef_x := field_f (cuav_parse_double lib specific "ecef_x");
     Guidance.ecef_y := field_f (cuav_parse_double lib specific "ecef_y");
     Guidance.ecef_z := field_f (cuav_parse_double lib specific "ecef_z");
     Guidance.ecef_vx := field_f (cuav_parse_double lib specific "ecef_vx");
     Guidance.ecef_vy := field_f (cuav_parse_double lib specific "ecef_vy");
     Guidance.ecef_vz := field_f (cuav_parse_double lib specific "ecef_vz");
     Guidance.h_dvi_pct := field_f (cuav_parse_float lib specific "h_dvi_pct");
     Guidance.v_dvi_pct := field_f (cuav_parse_float lib specific "v_dvi_pct");
     Guidance.enu_r := field_f (cuav_parse_double lib specific "enu_r");
     Guidance.enu_a := field_f (cuav_parse_double lib specific "enu_a");
     Guidance.enu_e := field_f (cuav_parse_double lib specific "enu_e");
     Guidance.enu_v := field_f (cuav_parse_double lib specific "enu_v");
     Guidance.enu_h := field_f (cuav_parse_double lib specific "enu_h");
     Guidance.lon := field_f (cuav_parse_double lib specific "lon");
     Guidance.lat := field_f (cuav_parse_double lib specific "lat");
     Guidance.alt := field_f (cuav_parse_double lib specific "alt") |}.

(** [cuav_parse_eo_system]. *)
Definition cuav_parse_eo_system (lib : GLib) (specific : JsonObject)
  : CUAVEOSystemParam :=
  {| EOSystem.sv_stat := field_z (cuav_parse_uint8 lib specific "sv_stat");
     EOSystem.sv_err := field_z (cuav_parse_uint16 lib specific "sv_err");
     EOSystem.st_mode_h := field_z (cuav_parse_uint8 lib specific "st_mode_h");
     EOSystem.st_mode_v := field_z (cuav_parse_uint8 lib specific "st_mode_v");
     EOSystem.st_loc_h := field_f (cuav_parse_float lib specific "st_loc_h");
     EOSystem.st_loc_v := field_f (cuav_parse_float lib specific "st_loc_v");
     EOSystem.pt_stat := field_z (cuav_parse_uint8 lib specific "pt_stat");
     EOSystem.pt_err := field_z (cuav_parse_uint16 lib specific "pt_err");
     EOSystem.pt_focal := field_f (cuav_parse_float lib specific "pt_focal");
     EOSystem.pt_focus := field_z (cuav_parse_uint16 lib specific "pt_focus");
     EOSystem.pt_fov_h := field_f (cuav_parse_float lib specific "pt_fov_h");
     EOSystem.pt_fov_v := field_f (cuav_parse_float lib specific "pt_fov_v");
     EOSystem.ir_stat := field_z (cuav_parse_uint8 lib specific "ir_stat");
     EOSystem.ir_err := field_z (cuav_parse_uint16 lib specific "ir_err");
     EOSystem.ir_focal := field_f (cuav_parse_float lib specific "ir_focal");
     EOSystem.ir_focus := field_z (cuav_parse_uint16 lib specific "ir_focus");
     EOSystem.ir_fov_h := field_f (cuav_parse_float lib specific "ir_fov_h");
     EOSystem.ir_fov_v := field_f (cuav_parse_float lib specific "ir_fov_v");
     EOSystem.dm_stat := field_z (cuav_parse_uint8 lib specific "dm_stat");
     EOSystem.dm_err := field_z (cuav_parse_uint16 lib specific "dm_err");
     EOSystem.dm_dev := field_z (cuav_parse_uint8 lib specific "dm_dev");
     EOSystem.trk_dev := field_z (cuav_parse_uint8 lib specific "trk_dev");
     EOSystem.pt_trk_link := field_z (cuav_parse_uint8 lib specific "pt_trk_link");
     EOSystem.ir_trk_link := field_z (cuav_parse_uint8 lib specific "ir_trk_link");
     EOSystem.trk_str := field_z (cuav_parse_uint8 lib specific "trk_str");
     EOSystem.trk_mod := field_z (cuav_parse_uint8 lib specific "trk_mod");
     EOSystem.det_trk := field_z (cuav_parse_uint8 lib specific "det_trk");
     EOSystem.trk_stat := field_z (cuav_parse_uint8 lib specific "trk_stat");
     EOSystem.pt_zoom := field_z (cuav_parse_uint8 lib specific "pt_zoom");
     EOSystem.ir_zoom := field_z (cuav_parse_uint8 lib specific "ir_zoom");
     EOSystem.pt_focus_mode := field_z (cuav_parse_uint8 lib specific "pt_focus_mode");
     EOSystem.ir_focus_mode := field_z (cuav_parse_uint8 lib specific "ir_focus_mode") |}.

(** [cuav_parse_servo_control]. *)
Definition cuav_parse_servo_control (lib : GLib) (specific : JsonObject)
  : CUAVServoControl :=
  {| Servo.dev_id := field_z (cuav_parse_uint8 lib specific "dev_id");
     Servo.dev_en := field_z (cuav_parse_uint8 lib specific "dev_en");
     Servo.ctrl_en := field_z (cuav_parse_uint8 lib specific "ctrl_en");
     Servo.mode_h := field_z (cuav_parse_uint8 lib specific "mode_h");
     Servo.mode_v := field_z (cuav_parse_uint8 lib specific "mode_v");
     Servo.speed_en_h := field_z (cuav_parse_uint8 lib specific "speed_en_h");
     Servo.speed_h := field_z (cuav_parse_uint8 lib specific "speed_h");
     Servo.speed_en_v := field_z (cuav_parse_uint8 lib specific "speed_en_v");
     Servo.speed_v := field_z (cuav_parse_uint8 lib specific "speed_v");
     Servo.loc_en_h := field_z (cuav_parse_uint8 lib specific "loc_en_h");
     Servo.loc_h := field_f (cuav_parse_float lib specific "loc_h");
     Servo.loc_en_v := field_z (cuav_parse_uint8 lib specific "loc_en_v");
     Servo.loc_v := field_f (cuav_parse_float lib specific "loc_v");
     Servo.offset_en := field_z (cuav_parse_uint8 lib specific "offset_en");
     Servo.offset_h := field_z (cuav_parse_int16 lib specific "offset_h");
     Servo.offset_v := field_z (cuav_parse_int16 lib specific "offset_v") |}.

(** The payload object of one element of the [cont] array, if the element
    is an object whose payload member is an object. *)
Definition specific_of_item (node : JsonNode) : option JsonObject :=
  if JSON_NODE_HOLDS_OBJECT node then
    let item := json_node_get_object node in
    if json_object_has_member item KEY_SPECIFIC then
      match json_object_get_member item KEY_SPECIFIC with
      | Some spec_node =>
          if JSON_NODE_HOLDS_OBJECT spec_node
          then Some (json_node_get_object spec_node)
          else None
      | None => None
      end
    else None
  else None.

(** [cuav_get_specific_from_cont]: the first element that yields one. *)
Fixpoint cuav_get_specific_from_cont (cont : JsonArray)
  : option JsonObject :=
  match cont with
  | [] => None
  | node :: rest =>
      match specific_of_item node with
      | Some o => Some o
      | None => cuav_get_specific_from_cont rest
      end
  end.

(** Invocations of the registered callbacks, with their arguments. *)
Inductive CallbackEvent : Type :=
| EvGuidance (header : CUAVCommonHeader) (guidance : CUAVGuidanceInfo)
    (user_data : Z)
| EvEOSystem (header : CUAVCommonHeader) (eo_param : CUAVEOSystemParam)
    (user_data : Z)
| EvServo (header : CUAVCommonHeader) (servo : CUAVServoControl)
    (user_data : Z)
| EvRaw (header : CUAVCommonHeader) (specific : JsonObject) (user_data : Z).

(** Records handed to the [cuav_print_*] debug printers. *)
Inductive DebugPrint : Type :=
| PrintGuidance (guidance : CUAVGuidanceInfo)
| PrintEOSystem (eo_param : CUAVEOSystemParam)
| PrintServo (servo : CUAVServoControl).

(** What a call of [cuav_parser_parse] returns and does: the callbacks
    it invokes, in order, and what it prints in debug mode. *)
Record ParseOutcome : Type := {
  result : bool;
  events : list CallbackEvent;
  printed : list DebugPrint
}.

Definition failed : ParseOutcome :=
  {| result := false; events := []; printed := [] |}.

(** The common header object of the root, when the member exists and holds
    an object. *)
Definition find_common (root_obj : JsonObject) : option JsonObject :=
  if json_object_has_member root_obj KEY_COMMON then
    match json_object_get_member root_obj KEY_COMMON with
    | Some common_node =>
        if JSON_NODE_HOLDS_OBJECT common_node
        then Some (json_node_get_object common_node)
        else None
    | None => None
    end
  else None.

(** The payload object: the direct member when the root has one, else the
    [cont] array when the root has that. *)
Definition find_specific (root_obj : JsonObject) : option JsonObject :=
  if json_object_has_member root_obj KEY_SPECIFIC then
    match json_object_get_member root_obj KEY_SPECIFIC with
    | Some spec_node =>
        if JSON_NODE_HOLDS_OBJECT spec_node
        then Some (json_node_get_object spec_node)
        else None
    | None => None
    end
  else if json_object_has_member root_obj KEY_CONT then
    match json_object_get_member root_obj KEY_CONT with
    | Some cont_node =>
        if JSON_NODE_HOLDS_ARRAY cont_node
        then cuav_get_specific_from_cont (json_node_get_array cont_node)
        else None
    | None => None
    end
  else None.

Definition raw_events (parser : CUAVParser) (header : CUAVCommonHeader)
    (specific : JsonObject) : list CallbackEvent :=
  if raw_callback parser
  then [EvRaw header specific (raw_user_data parser)]
  else [].

(** The [switch (msg_id)] of [cuav_parser_parse]. *)
Definition dispatch (lib : GLib) (parser : CUAVParser)
    (header : CUAVCommonHeader) (specific : JsonObject) : ParseOutcome :=
  let msg_id := Header.msg_id header in
  if msg_id =? CUAV_MSG_ID_GUIDANCE then
    let guidance := cuav_parse_guidance lib specific in
    {| result := true;
       events :=
         (if guidance_callback parser
          then [EvGuidance header guidance (guidance_user_data parser)]
          else [])
         ++ raw_events parser header specific;
       printed :=
         if debug_enabled parser then [PrintGuidance guidance] else [] |}
  else if msg_id =? CUAV_MSG_ID_EO_SYSTEM then
    let eo_param := cuav_parse_eo_system lib specific in
    {| result := true;
       events :=
         (if eo_system_callback parser
          then [EvEOSystem header eo_param (eo_system_user_data parser)]
          else [])
         ++ raw_events parser header specific;
       printed :=
         if debug_enabled parser then [PrintEOSystem eo_param] else [] |}
  else if msg_id =? CUAV_MSG_ID_EO_SERVO then
    let servo := cuav_parse_servo_control lib specific in
    {| result := true;
       events :=
         (if servo_callback parser
          then [EvServo header servo (servo_user_data parser)]
          else [])
         ++ raw_events parser header specific;
       printed :=
         if debug_enabled parser then [PrintServo servo] else [] |}
  else
    {| result := true;
       events := raw_events parser header specific;
       printed := [] |}.

(** [cuav_parser_parse]; [recv_ts_us] is the reading of
    [g_get_monotonic_time] taken before the JSON is parsed. *)
Definition cuav_parser_parse (lib : GLib) (parser : CUAVParser)
    (data : list byte) (len : Z) (recv_ts_us : Z) : ParseOutcome :=
  if len <=? 0 then failed
  else
    match json_parser_load_from_data lib data len with
    | LoadFailed => failed
    | LoadedNoRoot => failed
    | LoadedRoot root =>
        if negb (JSON_NODE_HOLDS_OBJECT root) then failed
        else
          let root_obj := json_node_get_object root in
          match find_common root_obj with
          | None => failed
          | Some common =>
              let header :=
                cuav_parse_common_header lib common recv_ts_us in
              match find_specific root_obj with
              | None => failed
              | Some specific => dispatch lib parser header specific
              end
          end
    end.

(** *** Name tables *)

Definition CUAV_MSG_ID_CMD : Z := 0x7101.
Definition CUAV_MSG_ID_DEV_CONFIG : Z := 0x7102.
Definition CUAV_MSG_ID_TARGET1 : Z := 0x7112.
Definition CUAV_MSG_ID_TARGET2 : Z := 0x7113.
Definition CUAV_MSG_ID_EO_BIT : Z := 0x7202.
Definition CUAV_MSG_ID_EO_TRACK : Z := 0x7203.
Definition CUAV_MSG_ID_EO_PT : Z := 0x7205.
Definition CUAV_MSG_ID_EO_IR : Z := 0x7206.
Definition CUAV_MSG_ID_EO_DM : Z := 0x7207.
Definition CUAV_MSG_ID_EO_BOX : Z := 0x7208.
Definition CUAV_MSG_ID_EO_REC : Z := 0x7209.
Definition CUAV_MSG_ID_EO_AUX : Z := 0x720A.
Definition CUAV_MSG_ID_EO_IMG : Z := 0x720B.

Definition CUAV_TARGET_UNKNOWN : Z := 0.
Definition CUAV_TARGET_BIRDS : Z := 1.
Definition CUAV_TARGET_BALLOON : Z := 2.
Definition CUAV_TARGET_AIRPLANE : Z := 3.
Definition CUAV_TARGET_CAR : Z := 4.
Definition CUAV_TARGET_BIG_BIRD : Z := 5.
Definition CUAV_TARGET_SMALL_BIRD : Z := 6.
Definition CUAV_TARGET_PERSON : Z := 7.
Definition CUAV_TARGET_CRUISE_MISSILE : Z := 8.
Definition CUAV_TARGET_UAV : Z := 9.
Definition CUAV_TARGET_UNKNOWN2 : Z := 15.

Definition cuav_msg_type_names : list string :=
  ["控制"; "回馈"; "查询"; "数据流"; "未知"; "未知"].

(** [cuav_get_msg_type_name]; [msg_type] is a [guint8]. *)
Definition cuav_get_msg_type_name (msg_type : Z) : string :=
  if msg_type <=? 3 then nth (Z.to_nat msg_type) cuav_msg_type_names ""
  else if msg_type =? 100 then nth 5 cuav_msg_type_names ""
  else nth 4 cuav_msg_type_names "".

Definition cuav_msg_id_names : list (Z * string) :=
  [(CUAV_MSG_ID_CMD, "指令");
   (CUAV_MSG_ID_DEV_CONFIG, "设备配置参数");
   (CUAV_MSG_ID_GUIDANCE, "引导信息");
   (CUAV_MSG_ID_TARGET1, "目标信息1");
   (CUAV_MSG_ID_TARGET2, "目标信息2");
   (CUAV_MSG_ID_EO_SYSTEM, "光电系统参数");
   (CUAV_MSG_ID_EO_BIT, "光电BIT状态");
   (CUAV_MSG_ID_EO_TRACK, "光电跟踪控制");
   (CUAV_MSG_ID_EO_SERVO, "光电伺服控制");
   (CUAV_MSG_ID_EO_PT, "可见光控制");
   (CUAV_MSG_ID_EO_IR, "红外控制");
   (CUAV_MSG_ID_EO_DM, "光电测距控制");
   (CUAV_MSG_ID_EO_BOX, "手框目标区");
   (CUAV_MSG_ID_EO_REC, "光电录像");
   (CUAV_MSG_ID_EO_AUX, "配套控制");
   (CUAV_MSG_ID_EO_IMG, "图像控制")].

Definition cuav_target_type_names : list (Z * string) :=
  [(CUAV_TARGET_UNKNOWN, "不明");
   (CUAV_TARGET_BIRDS, "鸟群");
   (CUAV_TARGET_BALLOON, "空飘物");
   (CUAV_TARGET_AIRPLANE, "飞机");
   (CUAV_TARGET_CAR, "汽车");
   (CUAV_TARGET_BIG_BIRD, "大鸟");
   (CUAV_TARGET_SMALL_BIRD, "小鸟");
   (CUAV_TARGET_PERSON, "行人");
   (CUAV_TARGET_CRUISE_MISSILE, "巡航导弹");
   (CUAV_TARGET_UAV, "无人机");
   (CUAV_TARGET_UNKNOWN2, "未知")].

(** The [for] loop over a name table: the label of the first row whose
    code equals [code]. *)
Fixpoint table_lookup (table : list (Z * string)) (code : Z)
  : option string :=
  match table with
  | [] => None
  | (c, name) :: rest =>
      if c =? code then Some name else table_lookup rest code
  end.

(** One upper-case hexadecimal digit. *)
Definition hex_digit (d : Z) : ascii :=
  if d <? 10 then ascii_of_nat (48 + Z.to_nat d)
  else ascii_of_nat (55 + Z.to_nat d).

(** ["%04X"] applied to a [guint16]: four digits. *)
Definition fmt_04X (n : Z) : string :=
  String (hex_digit (n / 4096 mod 16))
    (String (hex_digit (n / 256 mod 16))
       (String (hex_digit (n / 16 mod 16))
          (String (hex_digit (n mod 16)) EmptyString))).

(** ["%u"] applied to a [guint16]. *)
Definition fmt_u (n : Z) : string := pretty n.

(** [snprintf (buf, size, ...)]: the formatted text cut to [size - 1]
    bytes. *)
Definition snprintf (size : nat) (text : string) : string :=
  String.substring 0 (size - 1) text.

(** [cuav_get_msg_id_name]; [msg_id] is a [guint16].  The fallback text is
    written into a function-local static buffer of 32 bytes; the result
    here is the text the returned pointer designates on return. *)
Definition cuav_get_msg_id_name (msg_id : Z) : string :=
  match table_lookup cuav_msg_id_names msg_id with
  | Some name => name
  | None => snprintf 32 ("未知(0x" +:+ fmt_04X msg_id +:+ ")")
  end.

(** [cuav_get_target_type_name]; [target_type] is a [guint16]. *)
Definition cuav_get_target_type_name (target_type : Z) : string :=
  match table_lookup cuav_target_type_names target_type with
  | Some name => name
  | None => snprintf 32 ("未知(" +:+ fmt_u target_type +:+ ")")
  end.

(** The two functions again, with the pointer they return and their
    function-local [static gchar buf[32]] made explicit: the pointer
    designates a label of the table or the buffer, and a call that finds
    no row overwrites the buffer. *)
Inductive NamePtr : Type :=
| ptr_label (name : string)
| ptr_static_buf.

Definition deref (buf : string) (p : NamePtr) : string :=
  match p with
  | ptr_label name => name
  | ptr_static_buf => buf
  end.

Definition cuav_get_msg_id_name_ptr (buf : string) (msg_id : Z)
  : NamePtr * string :=
  match table_lookup cuav_msg_id_names msg_id with
  | Some name => (ptr_label name, buf)
  | None =>
      (ptr_static_buf, snprintf 32 ("未知(0x" +:+ fmt_04X msg_id +:+ ")"))
  end.

Definition cuav_get_target_type_name_ptr (buf : string) (target_type : Z)
  : NamePtr * string :=
  match table_lookup cuav_target_type_names target_type with
  | Some name => (ptr_label name, buf)
  | None =>
      (ptr_static_buf, snprintf 32 ("未知(" +:+ fmt_u target_type +:+ ")"))
  end.

End Cuav.

(** ** gstudpjsonmeta.cpp: properties, socket and lifecycle *)

Module Plugin.

Import Float Json Lib UdpJson.

Definition DEFAULT_MULTICAST_IP : string := "239.255.0.1".
Definition DEFAULT_PORT : Z := 6000.

(** The element: the fields of [GstUdpJsonMeta] the extractor and the
    cache use ([core]) together with the network properties, the socket
    and the thread handle ([recv_thread] tells whether it is not
    [NULL]). *)
Record Element : Type := {
  multicast_ip : option string;
  port : Z;
  iface : option string;
  recv_buf_size : Z;
  core : GstUdpJsonMeta;
  sockfd : Z;
  recv_thread : bool;
  stop_flag : Z
}.

Definition with_core (e : Element) (c : GstUdpJsonMeta) : Element :=
  {| multicast_ip := multicast_ip e; port := port e; iface := iface e;
     recv_buf_size := recv_buf_size e; core := c; sockfd := sockfd e;
     recv_thread := recv_thread e; stop_flag := stop_flag e |}.

Definition with_sockfd (e : Element) (fd : Z) : Element :=
  {| multicast_ip := multicast_ip e; port := port e; iface := iface e;
     recv_buf_size := recv_buf_size e; core := core e; sockfd := fd;
     recv_thread := recv_thread e; stop_flag := stop_flag e |}.

Definition with_stop_flag (e : Element) (f : Z) : Element :=
  {| multicast_ip := multicast_ip e; port := port e; iface := iface e;
     recv_buf_size := recv_buf_size e; core := core e; sockfd := sockfd e;
     recv_thread := recv_thread e; stop_flag := f |}.

Definition with_recv_thread (e : Element) (t : bool) : Element :=
  {| multicast_ip := multicast_ip e; port := port e; iface := iface e;
     recv_buf_size := recv_buf_size e; core := core e; sockfd := sockfd e;
     recv_thread := t; stop_flag := stop_flag e |}.

Definition with_keys (c : GstUdpJsonMeta) (jk ok sk : option string)
  : GstUdpJsonMeta :=
  {| json_key := jk; object_id_key := ok; source_id_key := sk;
     cache_ttl_ms := cache_ttl_ms c; max_cache_size := max_cache_size c;
     cache := cache c |}.

(** [gst_udpjson_meta_init]. *)
Definition gst_udpjson_meta_init_element : Element :=
  {| multicast_ip := Some DEFAULT_MULTICAST_IP;
     port := DEFAULT_PORT;
     iface := None;
     recv_buf_size := 0;
     core := gst_udpjson_meta_init;
     sockfd := -1;
     recv_thread := false;
     stop_flag := 0 |}.

(** *** Properties *)

Definition PROP_0 : Z := 0.
Definition PROP_MULTICAST_IP : Z := 1.
Definition PROP_PORT : Z := 2.
Definition PROP_IFACE : Z := 3.
Definition PROP_RECV_BUF_SIZE : Z := 4.
Definition PROP_JSON_KEY : Z := 5.
Definition PROP_OBJECT_ID_KEY : Z := 6.
Definition PROP_SOURCE_ID_KEY : Z := 7.
Definition PROP_CACHE_TTL_MS : Z := 8.
Definition PROP_MAX_CACHE_SIZE : Z := 9.

(** A [GValue] holding a string (possibly [NULL]) or a [guint]. *)
Inductive GValue : Type :=
| GString (s : option string)
| GUInt (u : Z).

(** GLib's accessors: on a value of the other type they return [NULL],
    respectively 0. *)
Definition g_value_dup_string (v : GValue) : option string :=
  match v with GString s => s | GUInt _ => None end.

Definition g_value_get_uint (v : GValue) : Z :=
  match v with GUInt u => u | GString _ => 0 end.

(** [gst_udpjson_meta_set_property]. *)
Definition gst_udpjson_meta_set_property (self : Element) (property_id : Z)
    (v : GValue) : Element :=
  if property_id =? PROP_MULTICAST_IP then
    {| multicast_ip := g_value_dup_string v; port := port self;
       iface := iface self; recv_buf_size := recv_buf_size self;
       core := core self; sockfd := sockfd self;
       recv_thread := recv_thread self; stop_flag := stop_flag self |}
  else if property_id =? PROP_PORT then
    {| multicast_ip := multicast_ip self; port := g_value_get_uint v;
       iface := iface self; recv_buf_size := recv_buf_size self;
       core := core self; sockfd := sockfd self;
       recv_thread := recv_thread self; stop_flag := stop_flag self |}
  else if property_id =? PROP_IFACE then
    {| multicast_ip := multicast_ip self; port := port self;
       iface := g_value_dup_string v; recv_buf_size := recv_buf_size self;
       core := core self; sockfd := sockfd self;
       recv_thread := recv_thread self; stop_flag := stop_flag self |}
  else if property_id =? PROP_RECV_BUF_SIZE then
    {| multicast_ip := multicast_ip self; port := port self;
       iface := iface self; recv_buf_size := g_value_get_uint v;
       core := core self; sockfd := sockfd self;
       recv_thread := recv_thread self; stop_flag := stop_flag self |}
  else if property_id =? PROP_JSON_KEY then
    with_core self
      (with_keys (core self) (g_value_dup_string v)
         (object_id_key (core self)) (source_id_key (core self)))
  else if property_id =? PROP_OBJECT_ID_KEY then
    with_core self
      (with_keys (core self) (json_key (core self))
         (g_value_dup_string v) (source_id_key (core self)))
  else if property_id =? PROP_SOURCE_ID_KEY then
    with_core self
      (with_keys (core self) (json_key (core self))
         (object_id_key (core self)) (g_value_dup_string v))
  else if property_id =? PROP_CACHE_TTL_MS then
    with_core self (set_cache_ttl_ms (core self) (g_value_get_uint v))
  else if property_id =? PROP_MAX_CACHE_SIZE then
    with_core self (set_max_cache_size (core self) (g_value_get_uint v))
  else self.

(** [gst_udpjson_meta_get_property]: the value stored into [value], or
    [None] when the property id is not one of the element's. *)
Definition gst_udpjson_meta_get_property (self : Element) (property_id : Z)
  : option GValue :=
  if property_id =? PROP_MULTICAST_IP then Some (GString (multicast_ip self))
  else if property_id =? PROP_PORT then Some (GUInt (port self))
  else if property_id =? PROP_IFACE then Some (GString (iface self))
  else if property_id =? PROP_RECV_BUF_SIZE then
    Some (GUInt (recv_buf_size self))
  else if property_id =? PROP_JSON_KEY then
    Some (GString (json_key (core self)))
  else if property_id =? PROP_OBJECT_ID_KEY then
    Some (GString (object_id_key (core self)))
  else if property_id =? PROP_SOURCE_ID_KEY then
    Some (GString (source_id_key (core self)))
  else if property_id =? PROP_CACHE_TTL_MS then
    Some (GUInt (cache_ttl_ms (core self)))
  else if property_id =? PROP_MAX_CACHE_SIZE then
    Some (GUInt (max_cache_size (core self)))
  else None.

(** *** The installed properties *)

(** [g_param_spec_string (name, ..., default)] and
    [g_param_spec_uint (name, ..., minimum, maximum, default)]. *)
Inductive GParamSpec : Type :=
| g_param_spec_string (name : string) (default_value : option string)
| g_param_spec_uint (name : string) (minimum maximum default_value : Z).

Definition G_MAXUINT : Z := 2 ^ 32 - 1.

(** The calls of [g_object_class_install_property] in
    [gst_udpjson_meta_class_init], in order. *)
Definition gst_udpjson_meta_class_init : list (Z * GParamSpec) :=
  [(PROP_MULTICAST_IP,
    g_param_spec_string "multicast-ip" (Some DEFAULT_MULTICAST_IP));
   (PROP_PORT, g_param_spec_uint "port" 1 65535 DEFAULT_PORT);
   (PROP_IFACE, g_param_spec_string "iface" None);
   (PROP_RECV_BUF_SIZE, g_param_spec_uint "recv-buf-size" 0 G_MAXUINT 0);
   (PROP_JSON_KEY, g_param_spec_string "json-key" (Some DEFAULT_JSON_KEY));
   (PROP_OBJECT_ID_KEY,
    g_param_spec_string "object-id-key" (Some DEFAULT_OBJECT_ID_KEY));
   (PROP_SOURCE_ID_KEY,
    g_param_spec_string "source-id-key" (Some DEFAULT_SOURCE_ID_KEY));
   (PROP_CACHE_TTL_MS,
    g_param_spec_uint "cache-ttl-ms" 0 G_MAXUINT DEFAULT_CACHE_TTL_MS);
   (PROP_MAX_CACHE_SIZE,
    g_param_spec_uint "max-cache-size" 0 G_MAXUINT DEFAULT_MAX_CACHE_SIZE)].

(** *** Socket set-up and tear-down *)

(** What the operating system answers to the calls of one run of
    [udpjson_setup_socket]; a call that fails returns a negative value. *)
Record SockEnv : Type := {
  socket_ret : Z;
  reuseaddr_ret : Z;
  rcvbuf_ret : Z;
  bind_ret : Z;
  ioctl_ret : Z;
  ioctl_addr : Z;
  bindtodevice_ret : Z;
  add_membership_ret : Z;
  getfl_ret : Z;
  setfl_ret : Z
}.

(** The calls the plugin makes, with the arguments that matter. *)
Inductive Effect : Type :=
| sys_socket
| sys_setsockopt_reuseaddr (fd : Z)
| sys_setsockopt_rcvbuf (fd : Z) (rcvbuf : Z)
| sys_bind (fd : Z) (sin_port : Z)
| sys_ioctl_ifaddr (fd : Z) (ifr_name : string)
| sys_setsockopt_bindtodevice (fd : Z) (name : string)
| sys_add_membership (fd : Z) (group : option string) (imr_interface : Z)
| sys_fcntl_getfl (fd : Z)
| sys_fcntl_setfl (fd : Z) (flags : Z)
| sys_close (fd : Z)
| thread_new
| thread_join.

Definition INADDR_ANY : Z := 0.
Definition IFNAMSIZ : nat := 16.
Definition O_NONBLOCK : Z := 0x800.

(** [(int) n] for a [guint]. *)
Definition to_gint32 (n : Z) : Z :=
  let u := n mod 2 ^ 32 in
  if u <? 2 ^ 31 then u else u - 2 ^ 32.

(** The part of [udpjson_setup_socket] that follows a successful [bind]:
    interface selection, the multicast join and the switch to
    non-blocking mode. *)
Definition join_group (env : SockEnv) (self : Element) (fd : Z)
    (trace : list Effect) : bool * Element * list Effect :=
  let '(imr_interface, trace1) :=
    match iface self with
    | Some name =>
        if (0 <? String.length name)%nat then
          let t :=
            trace
            ++ [sys_ioctl_ifaddr fd (String.substring 0 (IFNAMSIZ - 1) name);
                sys_setsockopt_bindtodevice fd name] in
          (if ioctl_ret env =? 0 then ioctl_addr env else INADDR_ANY, t)
        else (INADDR_ANY, trace)
    | None => (INADDR_ANY, trace)
    end in
  let trace2 :=
    trace1 ++ [sys_add_membership fd (multicast_ip self) imr_interface] in
  if add_membership_ret env <? 0 then
    (false, with_sockfd self (-1), trace2 ++ [sys_close fd])
  else
    let trace3 := trace2 ++ [sys_fcntl_getfl fd] in
    if 0 <=? getfl_ret env then
      (true, self,
       trace3 ++ [sys_fcntl_setfl fd (Z.lor (getfl_ret env) O_NONBLOCK)])
    else (true, self, trace3).

(** [udpjson_setup_socket]: the return value, the element and the calls
    made, in order. *)
Definition udpjson_setup_socket (env : SockEnv) (self : Element)
  : bool * Element * list Effect :=
  let self1 := with_sockfd self (socket_ret env) in
  let fd := socket_ret env in
  if fd <? 0 then (false, self1, [sys_socket])
  else
    let trace1 := [sys_socket; sys_setsockopt_reuseaddr fd] in
    let trace2 :=
      if 0 <? recv_buf_size self1
      then trace1 ++ [sys_setsockopt_rcvbuf fd (to_gint32 (recv_buf_size self1))]
      else trace1 in
    let trace3 := trace2 ++ [sys_bind fd (Int.to_guint16 (port self1))] in
    if bind_ret env <? 0 then
      (false, with_sockfd self1 (-1), trace3 ++ [sys_close fd])
    else join_group env self1 fd trace3.

(** [udpjson_teardown_socket]. *)
Definition udpjson_teardown_socket (self : Element)
  : Element * list Effect :=
  if 0 <=? sockfd self
  then (with_sockfd self (-1), [sys_close (sockfd self)])
  else (self, []).

(** [gst_udpjson_meta_start]. *)
Definition gst_udpjson_meta_start (env : SockEnv) (self : Element)
  : bool * Element * list Effect :=
  let self0 := with_stop_flag self 0 in
  let '(ok, self1, trace) := udpjson_setup_socket env self0 in
  if ok then (true, with_recv_thread self1 true, trace ++ [thread_new])
  else (false, self1, trace).

(** [gst_udpjson_meta_stop]. *)
Definition gst_udpjson_meta_stop (self : Element)
  : bool * Element * list Effect :=
  let self0 := with_stop_flag self 1 in
  let '(self1, trace1) :=
    if recv_thread self0
    then (with_recv_thread self0 false, [thread_join])
    else (self0, []) in
  let '(self2, trace2) := udpjson_teardown_socket self1 in
  (true, self2, trace1 ++ trace2).

End Plugin.

(** ** A reference instance of the library

    Enough of GLib and json-glib to run the plugin on concrete datagrams:
    the integer conversions follow [g_parse_long_long], ["%f"] prints the
    exact value rounded to six decimals, [g_ascii_strtod] covers decimal
    integer texts, and the JSON parser is a table from datagram texts to
    the trees json-glib builds for them. *)

Module Demo.

Import Float Json Lib.

Definition is_space (c : ascii) : bool :=
  let n := nat_of_ascii c in
  (Nat.eqb n 32) || ((Nat.leb 9 n) && (Nat.leb n 13)).

Fixpoint skip_space (s : string) : string :=
  match s with
  | String c rest => if is_space c then skip_space rest else s
  | EmptyString => s
  end.

Definition digit_of (c : ascii) : option Z :=
  let n := nat_of_ascii c in
  if (Nat.leb 48 n) && (Nat.leb n 57) then Some (Z.of_nat n - 48) else None.

(** The digit loop of [g_parse_long_long] in base 10: accumulated value,
    overflow flag, and whether any digit was read. *)
Fixpoint digits (s : string) (ui64 : Z) (overflow any : bool)
  : Z * bool * bool :=
  match s with
  | String c rest =>
      match digit_of c with
      | Some d =>
          let cutoff := Int.G_MAXUINT64 / 10 in
          let cutlim := Int.G_MAXUINT64 mod 10 in
          if (cutoff <? ui64) || ((ui64 =? cutoff) && (cutlim <? d))
          then digits rest ui64 true true
          else digits rest (ui64 * 10 + d) overflow true
      | None => (ui64, overflow, any)
      end
  | EmptyString => (ui64, overflow, any)
  end.

(** [g_parse_long_long (s, NULL, 10, &negative)]. *)
Definition g_parse_long_long (s : string) : Z * bool :=
  let s1 := skip_space s in
  let '(negative, s2) :=
    match s1 with
    | String "-" rest => (true, rest)
    | String "+" rest => (false, rest)
    | _ => (false, s1)
    end in
  let '(ui64, overflow, any) := digits s2 0 false false in
  if negb any then (0, negative)
  else if overflow then (Int.G_MAXUINT64, negative)
  else (ui64, negative).

Definition strtoull (s : string) : Z :=
  let '(r, negative) := g_parse_long_long s in
  if negative then Int.to_guint64 (- r) else r.

Definition strtoll (s : string) : Z :=
  let '(r, negative) := g_parse_long_long s in
  if negative && (2 ^ 63 <? r) then - 2 ^ 63
  else if negb negative && (2 ^ 63 - 1 <? r) then 2 ^ 63 - 1
  else if negative then - r else r.

(** Decimal integer texts only. *)
Definition strtod (s : string) : gdouble :=
  let '(r, negative) := g_parse_long_long s in
  binary_normalize dbl_prec dbl_emax (if negative then - r else r) 0 negative.

Fixpoint zeros (n : nat) : string :=
  match n with
  | O => EmptyString
  | S n' => String "0" (zeros n')
  end.

Definition pad6 (z : Z) : string :=
  let t := pretty z in
  zeros (6 - String.length t) +:+ t.

(** ["%f"]: the value rounded to six decimals, ties to even. *)
Definition fmt_f (d : gdouble) : string :=
  match d with
  | S754_zero s => (if s then "-" else "") +:+ "0.000000"
  | S754_infinity s => if s then "-inf" else "inf"
  | S754_nan => "nan"
  | S754_finite s m e =>
      let n :=
        if 0 <=? e then Z.pos m * 2 ^ e * 10 ^ 6
        else
          let num := Z.pos m * 10 ^ 6 in
          let den := 2 ^ (- e) in
          let q := num / den in
          let r := num mod den in
          if 2 * r <? den then q
          else if den <? 2 * r then q + 1
          else if Z.even q then q else q + 1 in
      (if s then "-" else "") +:+ pretty (n / 10 ^ 6) +:+ "."
      +:+ pad6 (n mod 10 ^ 6)
  end.

Definition dquote : string := String (ascii_of_nat 34) EmptyString.

Definition quoted (s : string) : string := dquote +:+ s +:+ dquote.

Fixpoint join (sep : string) (parts : list string) : string :=
  match parts with
  | [] => EmptyString
  | [x] => x
  | x :: rest => x +:+ sep +:+ join sep rest
  end.

(** Compact JSON text of a tree whose strings need no escaping. *)
Fixpoint to_string (n : JsonNode) : string :=
  match n with
  | JsonNull => "null"
  | JsonVal (VString s) => quoted s
  | JsonVal (VInt64 i) | JsonVal (VInt i) | JsonVal (VUInt64 i) => pretty i
  | JsonVal (VDouble d) | JsonVal (VFloat d) => fmt_f d
  | JsonVal (VBoolean b) => if b then "true" else "false"
  | JsonObj ms =>
      let member := fun kv : string * JsonNode =>
        quoted (fst kv) +:+ ":" +:+ to_string (snd kv) in
      "{" +:+ join "," (map member ms) +:+ "}"
  | JsonArr es => "[" +:+ join "," (map to_string es) +:+ "]"
  end.

(** The tree json-glib builds for each known datagram text. *)
Definition ParseTable : Type := list (string * JsonNode).

Fixpoint parse_with (table : ParseTable) (text : list byte) : LoadResult :=
  match table with
  | [] => LoadFailed
  | (t, root) :: rest =>
      if String.eqb t (string_of_list_byte text) then LoadedRoot root
      else parse_with rest text
  end.

Definition glib (table : ParseTable) : GLib :=
  {| json_parse_text := parse_with table;
     json_to_string := to_string;
     g_ascii_strtoull := strtoull;
     g_ascii_strtoll := strtoll;
     g_ascii_strtod := strtod;
     printf_f := fmt_f;
     printf_gint64 := pretty;
     printf_guint64 := pretty;
     cast_guint64_out_of_range := fun _ => 2 ^ 63 |}.

End Demo.

(** ** Scenarios used to state the properties *)

Module Scenario.

Import Float Json Lib UdpJson.

(** A write: the key, the value string and the clock reading. *)
Definition Write : Type := (Z * Z * string * Z)%type.

Definition write_key (w : Write) : Z * Z := fst (fst w).

Definition apply_write (self : GstUdpJsonMeta) (w : Write) : GstUdpJsonMeta :=
  let '(k, v, now) := w in
  udpjson_cache_update self (fst k) (snd k) (Some v) now.

(** A sequence of cache updates, oldest first. *)
Definition apply_writes (self : GstUdpJsonMeta) (ws : list Write)
  : GstUdpJsonMeta :=
  fold_left apply_write ws self.

(** A datagram of the generic schema, as the extractor accepts it: [len]
    bytes that parse to a JSON object [obj] holding the object-id node
    [n_o], which coerces to [oid], and the value node [n_v], both under the
    configured keys. *)
Definition envelope (lib : GLib) (self : GstUdpJsonMeta) (data : list byte)
    (len : Z) (obj : JsonObject) (n_o n_v : JsonNode) (oid : Z) : Prop :=
  0 < len
  /\ json_parser_load_from_data lib data len = LoadedRoot (JsonObj obj)
  /\ configured_member (object_id_key self) obj = Some n_o
  /\ configured_member (json_key self) obj = Some n_v
  /\ udpjson_parse_uint64 lib (Some n_o) = Some oid.

(** The source-id node of the object under the configured key, if any. *)
Definition source_node (self : GstUdpJsonMeta) (obj : JsonObject)
  : option JsonNode :=
  configured_member (source_id_key self) obj.

(** The value string the specification asks for: a JSON string passes
    through unescaped, an integer, float or boolean scalar is written in
    its textual form, anything else is serialised to compact JSON text. *)
Definition canonical_value_string (lib : GLib) (n : JsonNode) : string :=
  match n with
  | JsonVal (VString s) => s
  | JsonVal (VInt64 i) => printf_gint64 lib i
  | JsonVal (VUInt64 u) => printf_guint64 lib u
  | JsonVal (VDouble d) => printf_f lib d
  | JsonVal (VBoolean true) => "true"
  | JsonVal (VBoolean false) => "false"
  | JsonVal (VInt _) | JsonVal (VFloat _)
  | JsonNull | JsonObj _ | JsonArr _ => json_to_string lib n
  end.

(** The listener before its first round: an empty call log and a zeroed
    receive buffer. *)
Definition listener_start (self : GstUdpJsonMeta) : ListenerState :=
  {| self_ := self;
     buf := repeat x00 (Z.to_nat BUF_SIZE);
     calls := [] |}.

(** A round in which [poll] reports the socket readable and [recvfrom]
    delivers [payload]. *)
Definition readable_round (payload : list byte) (clock : Z) : Round :=
  {| stop_flag := false;
     poll_ret := 1;
     revents := POLLIN;
     incoming := RecvDatagram payload;
     clock_us := clock |}.

Definition is_decoder_call (c : Call) : bool :=
  match c with
  | call_cuav_parser_parse _ _ => true
  | call_udpjson_parse_and_cache _ _ => false
  end.

(** Concrete datagrams: the compact text of a tree, and the library
    instance whose parser knows the listed trees. *)
Definition datagram_of (root : JsonNode) : list byte :=
  list_byte_of_string (Demo.to_string root).

Definition datagram_len (root : JsonNode) : Z :=
  Z.of_nat (length (datagram_of root)).

Definition glib_for (roots : list JsonNode) : GLib :=
  Demo.glib (map (fun r => (Demo.to_string r, r)) roots).

(** An envelope without a source id, and one with source id [s]. *)
Definition sample_obj : JsonObject :=
  [("object_id", JsonVal (VInt64 7)); ("value", JsonVal (VString "hot"))].

Definition sample_obj_from (s : Z) (v : string) : JsonObject :=
  [("source_id", JsonVal (VInt64 s));
   ("object_id", JsonVal (VInt64 7));
   ("value", JsonVal (VString v))].

(** *** C-UAV messages *)

(** The double 42.0 and the float 42.0f. *)
Definition d42 : gdouble := gdouble_of_int64 42.
Definition f42 : gfloat := binary_normalize flt_prec flt_emax 42 0 false.

(** A member supplied as a JSON integer that fits the [bits]-bit unsigned
    field it is decoded into, as a JSON double, and as a JSON double read
    into a [gfloat] field. *)
Definition int_member (obj : JsonObject) (name : string) (v : Z) (bits : Z)
  : Prop :=
  json_object_get_member obj name = Some (JsonVal (VInt64 v))
  /\ 0 <= v < 2 ^ bits.

Definition double_member (obj : JsonObject) (name : string) (d : gdouble)
  : Prop :=
  json_object_get_member obj name = Some (JsonVal (VDouble d)).

Definition float_member (obj : JsonObject) (name : string) (f : gfloat)
  : Prop :=
  exists d, json_object_get_member obj name = Some (JsonVal (VDouble d))
            /\ f = gfloat_of_gdouble d.


(** The header object carries an object under the header key. *)
Definition has_header (root_obj : JsonObject) : Prop :=
  exists common,
    json_object_get_member root_obj Cuav.KEY_COMMON = Some (JsonObj common).

(** An element of the content array that holds the payload member as an
    object. *)
Definition holds_payload (node : JsonNode) : Prop :=
  exists item sp,
    node = JsonObj item
    /\ json_object_get_member item Cuav.KEY_SPECIFIC = Some (JsonObj sp).

(** Where the decoder finds a payload: the direct payload member is an
    object, or there is no direct payload member and the [cont] member is
    an array with an element that holds one. *)
Definition has_payload (root_obj : JsonObject) : Prop :=
  (exists sp,
      json_object_get_member root_obj Cuav.KEY_SPECIFIC = Some (JsonObj sp))
  \/ (json_object_get_member root_obj Cuav.KEY_SPECIFIC = None
      /\ exists items,
           json_object_get_member root_obj Cuav.KEY_CONT
           = Some (JsonArr items)
           /\ Exists holds_payload items).

(** The failure condition as the specification words it: the payload is
    missing when there is neither a direct payload member nor an element
    of the content array that holds one. *)
Definition payload_missing_as_claimed (root_obj : JsonObject) : Prop :=
  json_object_get_member root_obj Cuav.KEY_SPECIFIC = None
  /\ forall items,
       json_object_get_member root_obj Cuav.KEY_CONT = Some (JsonArr items) ->
       ~ Exists holds_payload items.

Definition recognized_msg_id (msg_id : Z) : bool :=
  (msg_id =? Cuav.CUAV_MSG_ID_GUIDANCE)
  || (msg_id =? Cuav.CUAV_MSG_ID_EO_SYSTEM)
  || (msg_id =? Cuav.CUAV_MSG_ID_EO_SERVO).

(** A guidance message. *)
Definition sample_common : JsonObject :=
  [("msg_id", JsonVal (VInt64 0x7111));
   ("msg_sn", JsonVal (VInt64 12));
   ("msg_type", JsonVal (VInt64 3));
   ("tx_sys_id", JsonVal (VInt64 1));
   ("rx_sys_id", JsonVal (VInt64 2))].

Definition sample_guidance_obj : JsonObject :=
  [("yr", JsonVal (VInt64 2024));
   ("mo", JsonVal (VInt64 5));
   ("dy", JsonVal (VInt64 17));
   ("h", JsonVal (VInt64 9));
   ("min", JsonVal (VInt64 30));
   ("sec", JsonVal (VInt64 15));
   ("msec", JsonVal (VDouble (gdouble_of_int64 500)));
   ("tar_id", JsonVal (VInt64 70000));
   ("tar_category", JsonVal (VInt64 9));
   ("guid_stat", JsonVal (VInt64 1));
   ("ecef_x", JsonVal (VDouble (gdouble_of_int64 (-2100))));
   ("ecef_y", JsonVal (VDouble (gdouble_of_int64 4500)));
   ("ecef_z", JsonVal (VDouble (gdouble_of_int64 3900)));
   ("ecef_vx", JsonVal (VDouble (gdouble_of_int64 12)));
   ("ecef_vy", JsonVal (VDouble (gdouble_of_int64 (-7))));
   ("ecef_vz", JsonVal (VDouble (gdouble_of_int64 3)));
   ("h_dvi_pct", JsonVal (VDouble (gdouble_of_int64 2)));
   ("v_dvi_pct", JsonVal (VDouble (gdouble_of_int64 1)));
   ("enu_r", JsonVal (VDouble (gdouble_of_int64 1500)));
   ("enu_a", JsonVal (VDouble (gdouble_of_int64 45)));
   ("enu_e", JsonVal (VDouble (gdouble_of_int64 10)));
   ("enu_v", JsonVal (VDouble (gdouble_of_int64 14)));
   ("enu_h", JsonVal (VDouble (gdouble_of_int64 260)));
   ("lon", JsonVal (VDouble (gdouble_of_int64 116)));
   ("lat", JsonVal (VDouble (gdouble_of_int64 40)));
   ("alt", JsonVal (VDouble (gdouble_of_int64 300)))].


Definition sample_message : JsonNode :=
  JsonObj [(Cuav.KEY_COMMON, JsonObj sample_common);
           (Cuav.KEY_SPECIFIC, JsonObj sample_guidance_obj)].

(** A message of an identity outside the dispatch table. *)
Definition other_message : JsonNode :=
  JsonObj [(Cuav.KEY_COMMON,
            JsonObj [("msg_id", JsonVal (VInt64 0x7202))]);
           (Cuav.KEY_CONT,
            JsonArr [JsonNull;
                     JsonObj [(Cuav.KEY_SPECIFIC,
                               JsonObj [("bit", JsonVal (VInt64 1))])]])].

(** A message whose direct payload member is a string while its content
    array holds a payload object. *)
Definition shadowed_message : JsonNode :=
  JsonObj [(Cuav.KEY_COMMON,
            JsonObj [("msg_id", JsonVal (VInt64 0x7111))]);
           (Cuav.KEY_SPECIFIC, JsonVal (VString "see cont"));
           (Cuav.KEY_CONT,
            JsonArr [JsonObj [(Cuav.KEY_SPECIFIC,
                               JsonObj [("tar_id", JsonVal (VInt64 5))])]])].

(** A parser with the guidance and raw callbacks registered. *)
Definition sample_parser : Cuav.CUAVParser :=
  Cuav.cuav_parser_set_raw_callback
    (Cuav.cuav_parser_set_guidance_callback Cuav.cuav_parser_new true 101)
    true 102.

(** *** Listener runs *)

(** The bytes a round hands on, with the clock reading of the round:
    nothing when [poll] reports no event or no input, when [recvfrom]
    fails, or when the datagram is empty. *)
Definition delivers (r : Round) : option (list byte * Z) :=
  if poll_ret r <=? 0 then None
  else if Z.land (revents r) POLLIN =? 0 then None
  else
    match incoming r with
    | RecvError => None
    | RecvDatagram payload =>
        match take (Z.to_nat (BUF_SIZE - 1)) payload with
        | [] => None
        | got => Some (got, clock_us r)
        end
    end.

(** What the rounds up to the first set stop flag hand on, in order. *)
Fixpoint delivered (rounds : list Round) : list (list byte * Z) :=
  match rounds with
  | [] => []
  | r :: rest =>
      if stop_flag r then []
      else
        match delivers r with
        | Some d => d :: delivered rest
        | None => delivered rest
        end
  end.

(** The extractor applied to one delivery. *)
Definition feed (lib : GLib) (self : GstUdpJsonMeta) (d : list byte * Z)
  : GstUdpJsonMeta :=
  udpjson_parse_and_cache lib self (fst d) (Z.of_nat (length (fst d)))
    (snd d).

(** *** Decoded records *)

(** A member supplied as a JSON integer that fits a [gint16] field. *)
Definition sint16_member (obj : JsonObject) (name : string) (v : Z) : Prop :=
  json_object_get_member obj name = Some (JsonVal (VInt64 v))
  /\ - 2 ^ 15 <= v < 2 ^ 15.

(** A complete EO-system payload and a complete servo-control payload. *)
Definition complete_eo_system (specific : JsonObject)
    (p : Cuav.CUAVEOSystemParam) : Prop :=
  int_member specific "sv_stat" (Cuav.EOSystem.sv_stat p) 8
  /\ int_member specific "sv_err" (Cuav.EOSystem.sv_err p) 16
  /\ int_member specific "st_mode_h" (Cuav.EOSystem.st_mode_h p) 8
  /\ int_member specific "st_mode_v" (Cuav.EOSystem.st_mode_v p) 8
  /\ float_member specific "st_loc_h" (Cuav.EOSystem.st_loc_h p)
  /\ float_member specific "st_loc_v" (Cuav.EOSystem.st_loc_v p)
  /\ int_member specific "pt_stat" (Cuav.EOSystem.pt_stat p) 8
  /\ int_member specific "pt_err" (Cuav.EOSystem.pt_err p) 16
  /\ float_member specific "pt_focal" (Cuav.EOSystem.pt_focal p)
  /\ int_member specific "pt_focus" (Cuav.EOSystem.pt_focus p) 16
  /\ float_member specific "pt_fov_h" (Cuav.EOSystem.pt_fov_h p)
  /\ float_member specific "pt_fov_v" (Cuav.EOSystem.pt_fov_v p)
  /\ int_member specific "ir_stat" (Cuav.EOSystem.ir_stat p) 8
  /\ int_member specific "ir_err" (Cuav.EOSystem.ir_err p) 16
  /\ float_member specific "ir_focal" (Cuav.EOSystem.ir_focal p)
  /\ int_member specific "ir_focus" (Cuav.EOSystem.ir_focus p) 16
  /\ float_member specific "ir_fov_h" (Cuav.EOSystem.ir_fov_h p)
  /\ float_member specific "ir_fov_v" (Cuav.EOSystem.ir_fov_v p)
  /\ int_member specific "dm_stat" (Cuav.EOSystem.dm_stat p) 8
  /\ int_member specific "dm_err" (Cuav.EOSystem.dm_err p) 16
  /\ int_member specific "dm_dev" (Cuav.EOSystem.dm_dev p) 8
  /\ int_member specific "trk_dev" (Cuav.EOSystem.trk_dev p) 8
  /\ int_member specific "pt_trk_link" (Cuav.EOSystem.pt_trk_link p) 8
  /\ int_member specific "ir_trk_link" (Cuav.EOSystem.ir_trk_link p) 8
  /\ int_member specific "trk_str" (Cuav.EOSystem.trk_str p) 8
  /\ int_member specific "trk_mod" (Cuav.EOSystem.trk_mod p) 8
  /\ int_member specific "det_trk" (Cuav.EOSystem.det_trk p) 8
  /\ int_member specific "trk_stat" (Cuav.EOSystem.trk_stat p) 8
  /\ int_member specific "pt_zoom" (Cuav.EOSystem.pt_zoom p) 8
  /\ int_member specific "ir_zoom" (Cuav.EOSystem.ir_zoom p) 8
  /\ int_member specific "pt_focus_mode" (Cuav.EOSystem.pt_focus_mode p) 8
  /\ int_member specific "ir_focus_mode" (Cuav.EOSystem.ir_focus_mode p) 8.

Definition complete_servo (specific : JsonObject) (c : Cuav.CUAVServoControl)
  : Prop :=
  int_member specific "dev_id" (Cuav.Servo.dev_id c) 8
  /\ int_member specific "dev_en" (Cuav.Servo.dev_en c) 8
  /\ int_member specific "ctrl_en" (Cuav.Servo.ctrl_en c) 8
  /\ int_member specific "mode_h" (Cuav.Servo.mode_h c) 8
  /\ int_member specific "mode_v" (Cuav.Servo.mode_v c) 8
  /\ int_member specific "speed_en_h" (Cuav.Servo.speed_en_h c) 8
  /\ int_member specific "speed_h" (Cuav.Servo.speed_h c) 8
  /\ int_member specific "speed_en_v" (Cuav.Servo.speed_en_v c) 8
  /\ int_member specific "speed_v" (Cuav.Servo.speed_v c) 8
  /\ int_member specific "loc_en_h" (Cuav.Servo.loc_en_h c) 8
  /\ float_member specific "loc_h" (Cuav.Servo.loc_h c)
  /\ int_member specific "loc_en_v" (Cuav.Servo.loc_en_v c) 8
  /\ float_member specific "loc_v" (Cuav.Servo.loc_v c)
  /\ int_member specific "offset_en" (Cuav.Servo.offset_en c) 8
  /\ sint16_member specific "offset_h" (Cuav.Servo.offset_h c)
  /\ sint16_member specific "offset_v" (Cuav.Servo.offset_v c).

(** Every integer field of a record lies in the range of its C type; the
    32-bit [msg_sn] of the header is bounded by [2^16]. *)
Definition header_in_range (hd : Cuav.CUAVCommonHeader) : Prop :=
  0 <= Cuav.Header.msg_id hd < 2 ^ 16
  /\ 0 <= Cuav.Header.msg_sn hd < 2 ^ 16
  /\ 0 <= Cuav.Header.msg_type hd < 2 ^ 8
  /\ 0 <= Cuav.Header.tx_sys_id hd < 2 ^ 16
  /\ 0 <= Cuav.Header.tx_dev_type hd < 2 ^ 16
  /\ 0 <= Cuav.Header.tx_dev_id hd < 2 ^ 16
  /\ 0 <= Cuav.Header.tx_subdev_id hd < 2 ^ 16
  /\ 0 <= Cuav.Header.rx_sys_id hd < 2 ^ 16
  /\ 0 <= Cuav.Header.rx_dev_type hd < 2 ^ 16
  /\ 0 <= Cuav.Header.rx_dev_id hd < 2 ^ 16
  /\ 0 <= Cuav.Header.rx_subdev_id hd < 2 ^ 16
  /\ 0 <= Cuav.Header.yr hd < 2 ^ 16
  /\ 0 <= Cuav.Header.mo hd < 2 ^ 8
  /\ 0 <= Cuav.Header.dy hd < 2 ^ 8
  /\ 0 <= Cuav.Header.h hd < 2 ^ 8
  /\ 0 <= Cuav.Header.min hd < 2 ^ 8
  /\ 0 <= Cuav.Header.sec hd < 2 ^ 8
  /\ 0 <= Cuav.Header.cont_type hd < 2 ^ 8
  /\ 0 <= Cuav.Header.cont_sum hd < 2 ^ 16.

Definition guidance_in_range (g : Cuav.CUAVGuidanceInfo) : Prop :=
  0 <= Cuav.Guidance.yr g < 2 ^ 16
  /\ 0 <= Cuav.Guidance.mo g < 2 ^ 8
  /\ 0 <= Cuav.Guidance.dy g < 2 ^ 8
  /\ 0 <= Cuav.Guidance.h g < 2 ^ 8
  /\ 0 <= Cuav.Guidance.min g < 2 ^ 8
  /\ 0 <= Cuav.Guidance.sec g < 2 ^ 8
  /\ 0 <= Cuav.Guidance.tar_id g < 2 ^ 32
  /\ 0 <= Cuav.Guidance.tar_category g < 2 ^ 16
  /\ 0 <= Cuav.Guidance.guid_stat g < 2 ^ 8.

Definition eo_system_in_range (p : Cuav.CUAVEOSystemParam) : Prop :=
  0 <= Cuav.EOSystem.sv_stat p < 2 ^ 8
  /\ 0 <= Cuav.EOSystem.sv_err p < 2 ^ 16
  /\ 0 <= Cuav.EOSystem.st_mode_h p < 2 ^ 8
  /\ 0 <= Cuav.EOSystem.st_mode_v p < 2 ^ 8
  /\ 0 <= Cuav.EOSystem.pt_stat p < 2 ^ 8
  /\ 0 <= Cuav.EOSystem.pt_err p < 2 ^ 16
  /\ 0 <= Cuav.EOSystem.pt_focus p < 2 ^ 16
  /\ 0 <= Cuav.EOSystem.ir_stat p < 2 ^ 8
  /\ 0 <= Cuav.EOSystem.ir_err p < 2 ^ 16
  /\ 0 <= Cuav.EOSystem.ir_focus p < 2 ^ 16
  /\ 0 <= Cuav.EOSystem.dm_stat p < 2 ^ 8
  /\ 0 <= Cuav.EOSystem.dm_err p < 2 ^ 16
  /\ 0 <= Cuav.EOSystem.dm_dev p < 2 ^ 8
  /\ 0 <= Cuav.EOSystem.trk_dev p < 2 ^ 8
  /\ 0 <= Cuav.EOSystem.pt_trk_link p < 2 ^ 8
  /\ 0 <= Cuav.EOSystem.ir_trk_link p < 2 ^ 8
  /\ 0 <= Cuav.EOSystem.trk_str p < 2 ^ 8
  /\ 0 <= Cuav.EOSystem.trk_mod p < 2 ^ 8
  /\ 0 <= Cuav.EOSystem.det_trk p < 2 ^ 8
  /\ 0 <= Cuav.EOSystem.trk_stat p < 2 ^ 8
  /\ 0 <= Cuav.EOSystem.pt_zoom p < 2 ^ 8
  /\ 0 <= Cuav.EOSystem.ir_zoom p < 2 ^ 8
  /\ 0 <= Cuav.EOSystem.pt_focus_mode p < 2 ^ 8
  /\ 0 <= Cuav.EOSystem.ir_focus_mode p < 2 ^ 8.

Definition servo_in_range (c : Cuav.CUAVServoControl) : Prop :=
  0 <= Cuav.Servo.dev_id c < 2 ^ 8
  /\ 0 <= Cuav.Servo.dev_en c < 2 ^ 8
  /\ 0 <= Cuav.Servo.ctrl_en c < 2 ^ 8
  /\ 0 <= Cuav.Servo.mode_h c < 2 ^ 8
  /\ 0 <= Cuav.Servo.mode_v c < 2 ^ 8
  /\ 0 <= Cuav.Servo.speed_en_h c < 2 ^ 8
  /\ 0 <= Cuav.Servo.speed_h c < 2 ^ 8
  /\ 0 <= Cuav.Servo.speed_en_v c < 2 ^ 8
  /\ 0 <= Cuav.Servo.speed_v c < 2 ^ 8
  /\ 0 <= Cuav.Servo.loc_en_h c < 2 ^ 8
  /\ 0 <= Cuav.Servo.loc_en_v c < 2 ^ 8
  /\ 0 <= Cuav.Servo.offset_en c < 2 ^ 8
  /\ - 2 ^ 15 <= Cuav.Servo.offset_h c < 2 ^ 15
  /\ - 2 ^ 15 <= Cuav.Servo.offset_v c < 2 ^ 15.

(** The member names each record decoder reads, and the records [memset]
    leaves. *)
Definition guidance_field_names : list string :=
  ["yr"; "mo"; "dy"; "h"; "min"; "sec"; "msec"; "tar_id"; "tar_category";
   "guid_stat"; "ecef_x"; "ecef_y"; "ecef_z"; "ecef_vx"; "ecef_vy";
   "ecef_vz"; "h_dvi_pct"; "v_dvi_pct"; "enu_r"; "enu_a"; "enu_e"; "enu_v";
   "enu_h"; "lon"; "lat"; "alt"].

Definition eo_system_field_names : list string :=
  ["sv_stat"; "sv_err"; "st_mode_h"; "st_mode_v"; "st_loc_h"; "st_loc_v";
   "pt_stat"; "pt_err"; "pt_focal"; "pt_focus"; "pt_fov_h"; "pt_fov_v";
   "ir_stat"; "ir_err"; "ir_focal"; "ir_focus"; "ir_fov_h"; "ir_fov_v";
   "dm_stat"; "dm_err"; "dm_dev"; "trk_dev"; "pt_trk_link"; "ir_trk_link";
   "trk_str"; "trk_mod"; "det_trk"; "trk_stat"; "pt_zoom"; "ir_zoom";
   "pt_focus_mode"; "ir_focus_mode"].

Definition servo_field_names : list string :=
  ["dev_id"; "dev_en"; "ctrl_en"; "mode_h"; "mode_v"; "speed_en_h";
   "speed_h"; "speed_en_v"; "speed_v"; "loc_en_h"; "loc_h"; "loc_en_v";
   "loc_v"; "offset_en"; "offset_h"; "offset_v"].

Definition guidance_zero : Cuav.CUAVGuidanceInfo :=
  {| Cuav.Guidance.yr := 0;
     Cuav.Guidance.mo := 0;
     Cuav.Guidance.dy := 0;
     Cuav.Guidance.h := 0;
     Cuav.Guidance.min := 0;
     Cuav.Guidance.sec := 0;
     Cuav.Guidance.msec := dzero;
     Cuav.Guidance.tar_id := 0;
     Cuav.Guidance.tar_category := 0;
     Cuav.Guidance.guid_stat := 0;
     Cuav.Guidance.ecef_x := dzero;
     Cuav.Guidance.ecef_y := dzero;
     Cuav.Guidance.ecef_z := dzero;
     Cuav.Guidance.ecef_vx := dzero;
     Cuav.Guidance.ecef_vy := dzero;
     Cuav.Guidance.ecef_vz := dzero;
     Cuav.Guidance.h_dvi_pct := dzero;
     Cuav.Guidance.v_dvi_pct := dzero;
     Cuav.Guidance.enu_r := dzero;
     Cuav.Guidance.enu_a := dzero;
     Cuav.Guidance.enu_e := dzero;
     Cuav.Guidance.enu_v := dzero;
     Cuav.Guidance.enu_h := dzero;
     Cuav.Guidance.lon := dzero;
     Cuav.Guidance.lat := dzero;
     Cuav.Guidance.alt := dzero |}.

Definition eo_system_zero : Cuav.CUAVEOSystemParam :=
  {| Cuav.EOSystem.sv_stat := 0;
     Cuav.EOSystem.sv_err := 0;
     Cuav.EOSystem.st_mode_h := 0;
     Cuav.EOSystem.st_mode_v := 0;
     Cuav.EOSystem.st_loc_h := dzero;
     Cuav.EOSystem.st_loc_v := dzero;
     Cuav.EOSystem.pt_stat := 0;
     Cuav.EOSystem.pt_err := 0;
     Cuav.EOSystem.pt_focal := dzero;
     Cuav.EOSystem.pt_focus := 0;
     Cuav.EOSystem.pt_fov_h := dzero;
     Cuav.EOSystem.pt_fov_v := dzero;
     Cuav.EOSystem.ir_stat := 0;
     Cuav.EOSystem.ir_err := 0;
     Cuav.EOSystem.ir_focal := dzero;
     Cuav.EOSystem.ir_focus := 0;
     Cuav.EOSystem.ir_fov_h := dzero;
     Cuav.EOSystem.ir_fov_v := dzero;
     Cuav.EOSystem.dm_stat := 0;
     Cuav.EOSystem.dm_err := 0;
     Cuav.EOSystem.dm_dev := 0;
     Cuav.EOSystem.trk_dev := 0;
     Cuav.EOSystem.pt_trk_link := 0;
     Cuav.EOSystem.ir_trk_link := 0;
     Cuav.EOSystem.trk_str := 0;
     Cuav.EOSystem.trk_mod := 0;
     Cuav.EOSystem.det_trk := 0;
     Cuav.EOSystem.trk_stat := 0;
     Cuav.EOSystem.pt_zoom := 0;
     Cuav.EOSystem.ir_zoom := 0;
     Cuav.EOSystem.pt_focus_mode := 0;
     Cuav.EOSystem.ir_focus_mode := 0 |}.

Definition servo_zero : Cuav.CUAVServoControl :=
  {| Cuav.Servo.dev_id := 0;
     Cuav.Servo.dev_en := 0;
     Cuav.Servo.ctrl_en := 0;
     Cuav.Servo.mode_h := 0;
     Cuav.Servo.mode_v := 0;
     Cuav.Servo.speed_en_h := 0;
     Cuav.Servo.speed_h := 0;
     Cuav.Servo.speed_en_v := 0;
     Cuav.Servo.speed_v := 0;
     Cuav.Servo.loc_en_h := 0;
     Cuav.Servo.loc_h := dzero;
     Cuav.Servo.loc_en_v := 0;
     Cuav.Servo.loc_v := dzero;
     Cuav.Servo.offset_en := 0;
     Cuav.Servo.offset_h := 0;
     Cuav.Servo.offset_v := 0 |}.

(** A member that no numeric helper reads a number from. *)
Definition not_numeric (n : JsonNode) : Prop :=
  match n with
  | JsonNull | JsonObj _ | JsonArr _ | JsonVal (VBoolean _)
  | JsonVal (VUInt64 _) => True
  | _ => False
  end.

(** *** Callback events *)

Definition event_header (ev : Cuav.CallbackEvent) : Cuav.CUAVCommonHeader :=
  match ev with
  | Cuav.EvGuidance hd _ _ | Cuav.EvEOSystem hd _ _
  | Cuav.EvServo hd _ _ | Cuav.EvRaw hd _ _ => hd
  end.

Definition is_raw (ev : Cuav.CallbackEvent) : bool :=
  match ev with Cuav.EvRaw _ _ _ => true | _ => false end.

(** An invocation the parser's registrations and the message identity
    allow: the callback is registered, it receives its own user data, and
    a typed callback matches the [msg_id] of the header it receives. *)
Definition event_permitted (parser : Cuav.CUAVParser)
    (ev : Cuav.CallbackEvent) : Prop :=
  match ev with
  | Cuav.EvGuidance hd _ u =>
      Cuav.Header.msg_id hd = Cuav.CUAV_MSG_ID_GUIDANCE
      /\ Cuav.guidance_callback parser = true
      /\ u = Cuav.guidance_user_data parser
  | Cuav.EvEOSystem hd _ u =>
      Cuav.Header.msg_id hd = Cuav.CUAV_MSG_ID_EO_SYSTEM
      /\ Cuav.eo_system_callback parser = true
      /\ u = Cuav.eo_system_user_data parser
  | Cuav.EvServo hd _ u =>
      Cuav.Header.msg_id hd = Cuav.CUAV_MSG_ID_EO_SERVO
      /\ Cuav.servo_callback parser = true
      /\ u = Cuav.servo_user_data parser
  | Cuav.EvRaw _ _ u =>
      Cuav.raw_callback parser = true /\ u = Cuav.raw_user_data parser
  end.

(** An EO-system message and a servo-control message. *)
Definition sample_eo_obj : JsonObject :=
  [("sv_stat", JsonVal (VInt64 1));
   ("sv_err", JsonVal (VInt64 0));
   ("st_mode_h", JsonVal (VInt64 1));
   ("st_mode_v", JsonVal (VInt64 0));
   ("st_loc_h", JsonVal (VDouble (gdouble_of_int64 180)));
   ("st_loc_v", JsonVal (VDouble (gdouble_of_int64 (-15))));
   ("pt_stat", JsonVal (VInt64 1));
   ("pt_err", JsonVal (VInt64 3));
   ("pt_focal", JsonVal (VDouble (gdouble_of_int64 500)));
   ("pt_focus", JsonVal (VInt64 1200));
   ("pt_fov_h", JsonVal (VDouble (gdouble_of_int64 12)));
   ("pt_fov_v", JsonVal (VDouble (gdouble_of_int64 9)));
   ("ir_stat", JsonVal (VInt64 1));
   ("ir_err", JsonVal (VInt64 0));
   ("ir_focal", JsonVal (VDouble (gdouble_of_int64 900)));
   ("ir_focus", JsonVal (VInt64 40000));
   ("ir_fov_h", JsonVal (VDouble (gdouble_of_int64 6)));
   ("ir_fov_v", JsonVal (VDouble (gdouble_of_int64 4)));
   ("dm_stat", JsonVal (VInt64 2));
   ("dm_err", JsonVal (VInt64 65535));
   ("dm_dev", JsonVal (VInt64 1));
   ("trk_dev", JsonVal (VInt64 3));
   ("pt_trk_link", JsonVal (VInt64 1));
   ("ir_trk_link", JsonVal (VInt64 0));
   ("trk_str", JsonVal (VInt64 1));
   ("trk_mod", JsonVal (VInt64 2));
   ("det_trk", JsonVal (VInt64 1));
   ("trk_stat", JsonVal (VInt64 4));
   ("pt_zoom", JsonVal (VInt64 1));
   ("ir_zoom", JsonVal (VInt64 0));
   ("pt_focus_mode", JsonVal (VInt64 1));
   ("ir_focus_mode", JsonVal (VInt64 0))].

Definition sample_eo : Cuav.CUAVEOSystemParam :=
  {| Cuav.EOSystem.sv_stat := 1;
     Cuav.EOSystem.sv_err := 0;
     Cuav.EOSystem.st_mode_h := 1;
     Cuav.EOSystem.st_mode_v := 0;
     Cuav.EOSystem.st_loc_h := gfloat_of_gdouble (gdouble_of_int64 180);
     Cuav.EOSystem.st_loc_v := gfloat_of_gdouble (gdouble_of_int64 (-15));
     Cuav.EOSystem.pt_stat := 1;
     Cuav.EOSystem.pt_err := 3;
     Cuav.EOSystem.pt_focal := gfloat_of_gdouble (gdouble_of_int64 500);
     Cuav.EOSystem.pt_focus := 1200;
     Cuav.EOSystem.pt_fov_h := gfloat_of_gdouble (gdouble_of_int64 12);
     Cuav.EOSystem.pt_fov_v := gfloat_of_gdouble (gdouble_of_int64 9);
     Cuav.EOSystem.ir_stat := 1;
     Cuav.EOSystem.ir_err := 0;
     Cuav.EOSystem.ir_focal := gfloat_of_gdouble (gdouble_of_int64 900);
     Cuav.EOSystem.ir_focus := 40000;
     Cuav.EOSystem.ir_fov_h := gfloat_of_gdouble (gdouble_of_int64 6);
     Cuav.EOSystem.ir_fov_v := gfloat_of_gdouble (gdouble_of_int64 4);
     Cuav.EOSystem.dm_stat := 2;
     Cuav.EOSystem.dm_err := 65535;
     Cuav.EOSystem.dm_dev := 1;
     Cuav.EOSystem.trk_dev := 3;
     Cuav.EOSystem.pt_trk_link := 1;
     Cuav.EOSystem.ir_trk_link := 0;
     Cuav.EOSystem.trk_str := 1;
     Cuav.EOSystem.trk_mod := 2;
     Cuav.EOSystem.det_trk := 1;
     Cuav.EOSystem.trk_stat := 4;
     Cuav.EOSystem.pt_zoom := 1;
     Cuav.EOSystem.ir_zoom := 0;
     Cuav.EOSystem.pt_focus_mode := 1;
     Cuav.EOSystem.ir_focus_mode := 0 |}.

Definition sample_servo_obj : JsonObject :=
  [("dev_id", JsonVal (VInt64 2));
   ("dev_en", JsonVal (VInt64 1));
   ("ctrl_en", JsonVal (VInt64 1));
   ("mode_h", JsonVal (VInt64 1));
   ("mode_v", JsonVal (VInt64 0));
   ("speed_en_h", JsonVal (VInt64 3));
   ("speed_h", JsonVal (VInt64 200));
   ("speed_en_v", JsonVal (VInt64 4));
   ("speed_v", JsonVal (VInt64 1));
   ("loc_en_h", JsonVal (VInt64 1));
   ("loc_h", JsonVal (VDouble (gdouble_of_int64 270)));
   ("loc_en_v", JsonVal (VInt64 1));
   ("loc_v", JsonVal (VDouble (gdouble_of_int64 (-30))));
   ("offset_en", JsonVal (VInt64 1));
   ("offset_h", JsonVal (VInt64 (-120)));
   ("offset_v", JsonVal (VInt64 32767))].

Definition sample_servo : Cuav.CUAVServoControl :=
  {| Cuav.Servo.dev_id := 2;
     Cuav.Servo.dev_en := 1;
     Cuav.Servo.ctrl_en := 1;
     Cuav.Servo.mode_h := 1;
     Cuav.Servo.mode_v := 0;
     Cuav.Servo.speed_en_h := 3;
     Cuav.Servo.speed_h := 200;
     Cuav.Servo.speed_en_v := 4;
     Cuav.Servo.speed_v := 1;
     Cuav.Servo.loc_en_h := 1;
     Cuav.Servo.loc_h := gfloat_of_gdouble (gdouble_of_int64 270);
     Cuav.Servo.loc_en_v := 1;
     Cuav.Servo.loc_v := gfloat_of_gdouble (gdouble_of_int64 (-30));
     Cuav.Servo.offset_en := 1;
     Cuav.Servo.offset_h := (-120);
     Cuav.Servo.offset_v := 32767 |}.

Definition message_of (msg_id : Z) (specific : JsonObject) : JsonNode :=
  JsonObj [(Cuav.KEY_COMMON, JsonObj [("msg_id", JsonVal (VInt64 msg_id))]);
           (Cuav.KEY_SPECIFIC, JsonObj specific)].

(** A parser with every callback registered. *)
Definition full_parser : Cuav.CUAVParser :=
  Cuav.cuav_parser_set_servo_control_callback
    (Cuav.cuav_parser_set_eo_system_callback sample_parser true 103)
    true 104.

(** *** Name tables *)

(** The text the fallback of each name function formats. *)
Definition unknown_msg_id_text (msg_id : Z) : string :=
  "未知(0x" +:+ Cuav.fmt_04X msg_id +:+ ")".

Definition unknown_target_text (target_type : Z) : string :=
  "未知(" +:+ Cuav.fmt_u target_type +:+ ")".

(** [all_from P count n]: [P] holds of the [count] integers from [n]
    upwards; used to settle facts about all 16-bit codes by evaluation. *)
Fixpoint all_from (P : Z -> bool) (count : nat) (n : Z) : bool :=
  match count with
  | O => true
  | S c => P n && all_from P c (n + 1)
  end.

(** *** The frame loop *)

(** The TTL test of the object loop on a cache entry. *)
Definition expired (self : GstUdpJsonMeta) (now_us : Z)
    (e : UdpJsonCacheValue) : Prop :=
  0 < cache_ttl_ms self
  /\ cache_ttl_ms self < age_ms now_us (recv_ts_us e).

(** The user metadata built from a cache entry. *)
Definition meta_of_entry (self : GstUdpJsonMeta) (e : UdpJsonCacheValue)
  : UdpJsonObjMeta :=
  {| meta_key := match json_key self with
                 | Some k => k
                 | None => DEFAULT_JSON_KEY
                 end;
     meta_value := value e;
     meta_recv_ts_us := recv_ts_us e |}.

(** An envelope for the object id -1, and a cache that holds the sample
    envelope, stored at clock reading 50. *)
Definition untracked_obj : JsonObject :=
  [("object_id", JsonVal (VInt64 (-1)));
   ("value", JsonVal (VString "lost"))].

Definition sample_cached : GstUdpJsonMeta :=
  udpjson_cache_update gst_udpjson_meta_init 0 7 (Some "hot") 50.

(** *** The element and its system calls *)

(** Two [GValue]s of the same type. *)
Definition same_kind (a b : Plugin.GValue) : bool :=
  match a, b with
  | Plugin.GString _, Plugin.GString _ => true
  | Plugin.GUInt _, Plugin.GUInt _ => true
  | _, _ => false
  end.

Definition is_close (e : Plugin.Effect) : bool :=
  match e with Plugin.sys_close _ => true | _ => false end.

Definition is_socket (e : Plugin.Effect) : bool :=
  match e with Plugin.sys_socket => true | _ => false end.

Definition is_thread_new (e : Plugin.Effect) : bool :=
  match e with Plugin.thread_new => true | _ => false end.

Definition is_thread_join (e : Plugin.Effect) : bool :=
  match e with Plugin.thread_join => true | _ => false end.

(** How many calls of a trace satisfy [p]. *)
Definition count (p : Plugin.Effect -> bool) (trace : list Plugin.Effect)
  : nat :=
  length (List.filter p trace).

(** The descriptor a call is made on. *)
Definition effect_fd (e : Plugin.Effect) : option Z :=
  match e with
  | Plugin.sys_setsockopt_reuseaddr fd
  | Plugin.sys_setsockopt_rcvbuf fd _
  | Plugin.sys_bind fd _
  | Plugin.sys_ioctl_ifaddr fd _
  | Plugin.sys_setsockopt_bindtodevice fd _
  | Plugin.sys_add_membership fd _ _
  | Plugin.sys_fcntl_getfl fd
  | Plugin.sys_fcntl_setfl fd _
  | Plugin.sys_close fd => Some fd
  | Plugin.sys_socket | Plugin.thread_new | Plugin.thread_join => None
  end.

(** The default value of a parameter specification, and the values it
    admits: any string, an unsigned integer within its bounds. *)
Definition pspec_default (ps : Plugin.GParamSpec) : Plugin.GValue :=
  match ps with
  | Plugin.g_param_spec_string _ d => Plugin.GString d
  | Plugin.g_param_spec_uint _ _ _ d => Plugin.GUInt d
  end.

Definition pspec_admits (ps : Plugin.GParamSpec) (v : Plugin.GValue)
  : Prop :=
  match ps, v with
  | Plugin.g_param_spec_string _ _, Plugin.GString _ => True
  | Plugin.g_param_spec_uint _ lo hi _, Plugin.GUInt u => lo <= u <= hi
  | _, _ => False
  end.

(** An element all of whose properties hold values their specifications
    admit. *)
Definition within_pspecs (e : Plugin.Element) : Prop :=
  forall p ps,
    In (p, ps) Plugin.gst_udpjson_meta_class_init ->
    exists v,
      Plugin.gst_udpjson_meta_get_property e p = Some v
      /\ pspec_admits ps v.

(** An element that holds neither a socket nor a thread. *)
Definition idle (e : Plugin.Element) : Prop :=
  Plugin.sockfd e < 0 /\ Plugin.recv_thread e = false.

(** The three calls of [udpjson_setup_socket] whose failure is fatal. *)
Definition setup_succeeds (env : Plugin.SockEnv) : Prop :=
  0 <= Plugin.socket_ret env
  /\ 0 <= Plugin.bind_ret env
  /\ 0 <= Plugin.add_membership_ret env.

(** The interface address the multicast join is made with. *)
Definition membership_interface (env : Plugin.SockEnv)
    (e : Plugin.Element) : Z :=
  match Plugin.iface e with
  | Some (String _ _) =>
      if Plugin.ioctl_ret env =? 0 then Plugin.ioctl_addr env
      else Plugin.INADDR_ANY
  | _ => Plugin.INADDR_ANY
  end.

(** An operating system that grants every call, with descriptor 5 and
    interface address 10.0.0.7, and one whose multicast join fails. *)
Definition granting_env : Plugin.SockEnv :=
  {| Plugin.socket_ret := 5;
     Plugin.reuseaddr_ret := 0;
     Plugin.rcvbuf_ret := 0;
     Plugin.bind_ret := 0;
     Plugin.ioctl_ret := 0;
     Plugin.ioctl_addr := 0x0A000007;
     Plugin.bindtodevice_ret := 0;
     Plugin.add_membership_ret := 0;
     Plugin.getfl_ret := 2;
     Plugin.setfl_ret := 0 |}.

Definition refusing_env : Plugin.SockEnv :=
  {| Plugin.socket_ret := 5;
     Plugin.reuseaddr_ret := -1;
     Plugin.rcvbuf_ret := -1;
     Plugin.bind_ret := 0;
     Plugin.ioctl_ret := -1;
     Plugin.ioctl_addr := 0;
     Plugin.bindtodevice_ret := -1;
     Plugin.add_membership_ret := -1;
     Plugin.getfl_ret := -1;
     Plugin.setfl_ret := -1 |}.

End Scenario.

(** * Properties *)

Import Float Json Lib UdpJson Cuav Scenario.

(** ** Proof automation *)

(** Case analysis on membership in an explicit list. *)
Ltac in_cases H :=
  repeat (destruct H as [<- | H]); [.. | destruct H].

(** Discharges a membership fact about a concrete object by evaluation. *)
Ltac member_by_computation :=
  match goal with
  | |- int_member _ _ _ _ =>
      split; [vm_compute; reflexivity
             | split; [vm_compute; discriminate | vm_compute; reflexivity]]
  | |- double_member _ _ _ => vm_compute; reflexivity
  | |- float_member _ _ _ =>
      eexists; split; [vm_compute; reflexivity | vm_compute; reflexivity]
  end.

(** ** The correlation cache *)

Section CacheUpdate.

Implicit Types (self : GstUdpJsonMeta) (k : Z * Z) (v : string).

(** The two shapes of the cache after an update. *)
Lemma cache_update_cases self sid oid v ts :
  cache (udpjson_cache_update self sid oid (Some v) ts)
  = (if (0 <? max_cache_size self)
        && (max_cache_size self <=? g_hash_table_size (cache self))
     then <[(sid, oid) := {| value := v; recv_ts_us := ts |}]> ∅
     else <[(sid, oid) := {| value := v; recv_ts_us := ts |}]>
            (cache self)).
Proof.
  unfold udpjson_cache_update. cbn.
  destruct ((0 <? max_cache_size self)
            && (max_cache_size self <=? g_hash_table_size (cache self)));
    reflexivity.
Qed.

Lemma cache_update_config self sid oid val ts :
  max_cache_size (udpjson_cache_update self sid oid val ts)
  = max_cache_size self
  /\ cache_ttl_ms (udpjson_cache_update self sid oid val ts)
     = cache_ttl_ms self.
Proof. destruct val; split; reflexivity. Qed.

Lemma cache_update_lookup_same self sid oid v ts :
  cache (udpjson_cache_update self sid oid (Some v) ts) !! (sid, oid)
  = Some {| value := v; recv_ts_us := ts |}.
Proof.
  rewrite cache_update_cases. cbn.
  destruct (_ && _); apply lookup_insert_eq.
Qed.

Lemma cache_update_size self sid oid v ts :
  0 < max_cache_size self ->
  g_hash_table_size (cache (udpjson_cache_update self sid oid (Some v) ts))
  <= max_cache_size self.
Proof.
  intros Hcap. rewrite cache_update_cases. cbn. unfold g_hash_table_size.
  destruct (0 <? max_cache_size self) eqn:H0; [| lia].
  destruct (max_cache_size self <=? Z.of_nat (size (cache self))) eqn:Hfull;
    cbn.
  - rewrite map_size_insert, lookup_empty, map_size_empty. lia.
  - apply Z.leb_gt in Hfull. rewrite map_size_insert.
    destruct (cache self !! (sid, oid)); cbn; lia.
Qed.

(** A key that is not in the cache is not brought in by updating another
    key. *)
Lemma cache_update_absent_other self sid oid v ts k :
  k <> (sid, oid) ->
  cache self !! k = None ->
  cache (udpjson_cache_update self sid oid (Some v) ts) !! k = None.
Proof.
  intros Hne Hk. rewrite cache_update_cases. cbn.
  destruct (_ && _); rewrite lookup_insert_ne by congruence;
    [apply lookup_empty | exact Hk].
Qed.

End CacheUpdate.


Section CacheOverflow.

Implicit Types (self : GstUdpJsonMeta) (w : Write) (ws : list Write).

Lemma apply_writes_cons self w ws :
  apply_writes self (w :: ws) = apply_writes (apply_write self w) ws.
Proof. reflexivity. Qed.

Lemma apply_writes_snoc self ws w :
  apply_writes self (ws ++ [w]) = apply_write (apply_writes self ws) w.
Proof. unfold apply_writes. now rewrite fold_left_app. Qed.

Lemma apply_write_capacity self w :
  max_cache_size (apply_write self w) = max_cache_size self.
Proof. destruct w as [[[sid oid] v] ts]. reflexivity. Qed.

Lemma apply_writes_capacity ws : forall self,
  max_cache_size (apply_writes self ws) = max_cache_size self.
Proof.
  induction ws as [| w ws IH]; intros self; [reflexivity |].
  rewrite apply_writes_cons, IH. apply apply_write_capacity.
Qed.

Lemma apply_write_size self w :
  0 < max_cache_size self ->
  g_hash_table_size (cache (apply_write self w)) <= max_cache_size self.
Proof.
  destruct w as [[[sid oid] v] ts]. apply cache_update_size.
Qed.

(** After at least one update the size is within the capacity, whatever
    the cache held before. *)
Lemma apply_writes_size self ws :
  ws <> [] ->
  0 < max_cache_size self ->
  g_hash_table_size (cache (apply_writes self ws)) <= max_cache_size self.
Proof.
  intros Hne Hcap.
  destruct (exists_last Hne) as [ws' [w ->]].
  rewrite apply_writes_snoc.
  rewrite <- (apply_writes_capacity ws' self) in *.
  now apply apply_write_size.
Qed.

Lemma apply_writes_absent ws : forall self k,
  cache self !! k = None ->
  (forall w, In w ws -> write_key w <> k) ->
  cache (apply_writes self ws) !! k = None.
Proof.
  induction ws as [| w ws IH]; intros self k Hk Hws; [exact Hk |].
  rewrite apply_writes_cons. apply IH.
  - assert (Hw : write_key w <> k) by (apply Hws; now left).
    destruct w as [[[sid oid] v] ts]. cbn in *.
    apply cache_update_absent_other; [congruence | exact Hk].
  - intros w' Hw'. apply Hws. now right.
Qed.

(** Either the key [k0] has been swept out by a clear, or every key
    written so far is still in the cache. *)
Lemma apply_writes_swept_or_full ws : forall self (seen : gset (Z * Z)) k0,
  k0 ∈ seen ->
  seen ⊆ dom (cache self) ->
  NoDup (map write_key ws) ->
  (forall w, In w ws -> write_key w ∉ seen) ->
  cache (apply_writes self ws) !! k0 = None
  \/ seen ∪ list_to_set (map write_key ws)
       ⊆ dom (cache (apply_writes self ws)).
Proof.
  induction ws as [| w ws IH]; intros self seen k0 Hk0 Hsub Hnd Hfresh.
  - right. cbn. now rewrite union_empty_r_L.
  - rewrite apply_writes_cons. cbn [map] in Hnd.
    apply NoDup_cons in Hnd as [Hw Hnd].
    assert (Hwseen : write_key w ∉ seen) by (apply Hfresh; now left).
    destruct w as [[[sid oid] v] ts]. cbn [write_key fst] in *.
    pose proof (cache_update_cases self sid oid v ts) as Hc.
    destruct ((0 <? max_cache_size self)
              && (max_cache_size self <=? g_hash_table_size (cache self))).
    + left. apply apply_writes_absent.
      * cbn [apply_write fst snd]. rewrite Hc.
        rewrite lookup_insert_ne by set_solver. apply lookup_empty.
      * intros w' Hw' Heq. apply (Hfresh w'); [now right |].
        rewrite Heq. exact Hk0.
    + destruct (IH (apply_write self (sid, oid, v, ts))
                  (seen ∪ {[(sid, oid)]}) k0) as [Hgone | Hall].
      * set_solver.
      * cbn [apply_write fst snd]. rewrite Hc, dom_insert_L. set_solver.
      * exact Hnd.
      * intros w' Hw'. apply not_elem_of_union. split.
        -- apply Hfresh. now right.
        -- intros Heq%elem_of_singleton. apply Hw.
           rewrite <- Heq. apply list_elem_of_In, in_map_iff.
           exists w'. split; [reflexivity | exact Hw'].
      * now left.
      * right. cbn [map list_to_set]. set_solver.
Qed.

End CacheOverflow.

(** C2.  With a positive capacity, an update that finds the cache holding
    at least [max_cache_size] entries removes every entry before it
    inserts the new one; after any update the cache holds at most
    [max_cache_size] entries; and after [max_cache_size + 1] writes to
    pairwise distinct keys, from any starting cache, the key written first
    is absent. *)
Theorem cache_update_clears_when_full (self : GstUdpJsonMeta) :
  0 < max_cache_size self ->
  (forall sid oid v ts,
      (max_cache_size self <= g_hash_table_size (cache self) ->
       cache (udpjson_cache_update self sid oid (Some v) ts)
       = {[ (sid, oid) := {| value := v; recv_ts_us := ts |} ]})
      /\ g_hash_table_size
           (cache (udpjson_cache_update self sid oid (Some v) ts))
         <= max_cache_size self)
  /\ (forall w0 ws,
         NoDup (map write_key (w0 :: ws)) ->
         Z.of_nat (length (w0 :: ws)) = max_cache_size self + 1 ->
         cache (apply_writes self (w0 :: ws)) !! write_key w0 = None).
Proof.
  intros Hcap. split.
  - intros sid oid v ts. split.
    + intros Hfull. rewrite cache_update_cases.
      apply Z.ltb_lt in Hcap. apply Z.leb_le in Hfull.
      rewrite Hcap, Hfull. cbn. apply insert_empty.
    + now apply cache_update_size.
  - intros w0 ws Hnd Hlen.
    rewrite apply_writes_cons.
    set (self1 := apply_write self w0).
    assert (Hcap1 : max_cache_size self1 = max_cache_size self)
      by apply apply_write_capacity.
    cbn [map] in Hnd. pose proof Hnd as Hnd0.
    apply NoDup_cons in Hnd as [Hw0 Hnd].
    destruct (apply_writes_swept_or_full ws self1 {[write_key w0]}
                (write_key w0)) as [Hgone | Hall].
    + now apply elem_of_singleton.
    + apply singleton_subseteq_l, elem_of_dom.
      subst self1. destruct w0 as [[[sid oid] v] ts].
      cbn [apply_write write_key fst snd].
      rewrite cache_update_lookup_same. eauto.
    + exact Hnd.
    + intros w Hw Hin%elem_of_singleton. apply Hw0. rewrite <- Hin.
      apply list_elem_of_In, in_map_iff. eauto.
    + exact Hgone.
    + exfalso.
      assert (Hne : ws <> []).
      { intros ->. cbn in Hlen. lia. }
      pose proof (apply_writes_size self1 ws Hne ltac:(lia)) as Hsz.
      apply subseteq_size in Hall.
      rewrite size_dom in Hall.
      change ({[write_key w0]} ∪ list_to_set (map write_key ws))
        with (list_to_set (C := gset (Z * Z)) (write_key w0 :: map write_key ws))
        in Hall.
      rewrite size_list_to_set in Hall by exact Hnd0.
      unfold g_hash_table_size in Hsz. cbn [length] in *.
      rewrite length_map in Hall. lia.
Qed.

(** The capacity bound at work: capacity 2, three distinct keys. *)
Lemma cache_update_clears_when_full_witness :
  let self := set_cache (set_max_cache_size gst_udpjson_meta_init 2) ∅ in
  cache (apply_writes self
           [((0, 1), "a", 10); ((0, 2), "b", 20); ((0, 3), "c", 30)])
    !! (0, 1) = None.
Proof.
  intros self.
  refine (proj2 (cache_update_clears_when_full self _)
            ((0, 1), "a", 10) [((0, 2), "b", 20); ((0, 3), "c", 30)] _ _).
  - reflexivity.
  - apply (bool_decide_unpack _). vm_compute. exact I.
  - reflexivity.
Defined.

(** C10.  An update made while the cache is below capacity, or with the
    capacity check disabled by [max_cache_size = 0], leaves the entry of
    every other key as it was. *)
Theorem cache_update_frame (self : GstUdpJsonMeta) sid oid v ts
    (k : Z * Z) :
  g_hash_table_size (cache self) < max_cache_size self
  \/ max_cache_size self = 0 ->
  k <> (sid, oid) ->
  cache (udpjson_cache_update self sid oid (Some v) ts) !! k
  = cache self !! k.
Proof.
  intros Hroom Hk. rewrite cache_update_cases.
  replace ((0 <? max_cache_size self)
           && (max_cache_size self <=? g_hash_table_size (cache self)))
    with false.
  - apply lookup_insert_ne. congruence.
  - symmetry. apply andb_false_iff.
    destruct Hroom as [Hlt | H0]; [right; lia | left; lia].
Qed.

(** The frame property on a concrete cache. *)
Lemma cache_update_frame_witness :
  let self :=
    set_cache gst_udpjson_meta_init
      {[ (0, 1) := {| value := "a"; recv_ts_us := 10 |} ]} in
  cache (udpjson_cache_update self 0 2 (Some "b") 20) !! (0, 1)
  = Some {| value := "a"; recv_ts_us := 10 |}.
Proof.
  intros self.
  refine (eq_trans (cache_update_frame self 0 2 "b" 20 (0, 1) _ _) _).
  - left. vm_compute. reflexivity.
  - discriminate.
  - vm_compute. reflexivity.
Defined.

(** ** The read path *)

(** While the entry is no younger than the reading of the clock, its age
    is the plain difference in whole milliseconds. *)
Lemma age_ms_plain now_us recv :
  0 <= recv <= now_us -> now_us < 2 ^ 64 ->
  age_ms now_us recv = (now_us - recv) / 1000.
Proof.
  intros H1 H2. unfold age_ms, Int.sub_guint64.
  rewrite Z.mod_small by lia. reflexivity.
Qed.

Section CacheLookup.

Variables (self : GstUdpJsonMeta) (sid oid now_us : Z).



Lemma lookup_fresh e :
  cache self !! (sid, oid) = Some e ->
  ~ (0 < cache_ttl_ms self
     /\ cache_ttl_ms self < age_ms now_us (recv_ts_us e)) ->
  udpjson_cache_lookup self sid oid now_us = Some (value e, recv_ts_us e).
Proof.
  unfold udpjson_cache_lookup. intros -> Hfresh.
  destruct (0 <? cache_ttl_ms self) eqn:Ht; [| reflexivity].
  destruct (cache_ttl_ms self <? age_ms now_us (recv_ts_us e)) eqn:Ha;
    [| reflexivity].
  exfalso. apply Hfresh. split; now apply Z.ltb_lt.
Qed.


End CacheLookup.



(** ** The generic envelope extractor *)

Section Extractor.

Variables (lib : GLib) (self : GstUdpJsonMeta).

Lemma parse_uint64_absent : udpjson_parse_uint64 lib None = None.
Proof. reflexivity. Qed.

(** The value node always yields a string. *)
Lemma node_to_string_canonical (n : JsonNode) :
  udpjson_node_to_string lib (Some n)
  = Some (canonical_value_string lib n).
Proof. destruct n as [| [s | i | i | d | d | [|] | u] | ms | es]; reflexivity. Qed.

(** What the extractor does with a datagram of the generic schema: one
    cache update, keyed by the source id cut to 32 bits (0 when the source
    id is absent or does not coerce). *)
Lemma parse_and_cache_envelope data len now_us obj n_o n_v oid :
  envelope lib self data len obj n_o n_v oid ->
  udpjson_parse_and_cache lib self data len now_us
  = udpjson_cache_update self
      (Int.to_guint32
         (match udpjson_parse_uint64 lib (source_node self obj) with
          | Some s => s
          | None => 0
          end))
      oid (Some (canonical_value_string lib n_v)) now_us.
Proof.
  intros (Hlen & Hload & Ho & Hv & Hoid).
  unfold udpjson_parse_and_cache, source_node.
  replace (len <=? 0) with false by (symmetry; apply Z.leb_gt; lia).
  rewrite Hload. cbn [JSON_NODE_HOLDS_OBJECT negb json_node_get_object].
  rewrite Ho, Hv, Hoid, node_to_string_canonical.
  destruct (configured_member (source_id_key self) obj) as [n_s |];
    reflexivity.
Qed.


End Extractor.


Section ExtractorRoundTrip.

Variables (lib : GLib) (self : GstUdpJsonMeta).

(** C6.  After the extractor has processed a datagram of the generic
    schema, a lookup of the key it was stored under, made before the TTL
    has run out, returns the value string of the value member (a JSON
    string unescaped, an integer, float or boolean scalar as text, an
    object or array as compact JSON text) together with the clock reading
    of the update. *)
Theorem extract_then_lookup data len now_us obj n_o n_v oid src later :
  envelope lib self data len obj n_o n_v oid ->
  src = match udpjson_parse_uint64 lib (source_node self obj) with
        | Some s => s
        | None => 0
        end ->
  ~ (0 < cache_ttl_ms self /\ cache_ttl_ms self < age_ms later now_us) ->
  udpjson_node_to_string lib (Some n_v)
  = Some (canonical_value_string lib n_v)
  /\ udpjson_cache_lookup
       (udpjson_parse_and_cache lib self data len now_us)
       (Int.to_guint32 src) oid later
     = Some (canonical_value_string lib n_v, now_us).
Proof.
  intros Henv -> Hfresh. split; [apply node_to_string_canonical |].
  rewrite (parse_and_cache_envelope _ _ _ _ _ _ _ _ _ Henv).
  set (sid := Int.to_guint32 _).
  set (v := canonical_value_string lib n_v).
  set (self' := udpjson_cache_update self sid oid (Some v) now_us).
  apply (lookup_fresh self' sid oid later
           {| value := v; recv_ts_us := now_us |}).
  - apply cache_update_lookup_same.
  - subst self'.
    rewrite (proj2 (cache_update_config self sid oid (Some v) now_us)).
    exact Hfresh.
Qed.

(** C9.  The cache key written for an accepted datagram carries the
    coerced 64-bit source id reduced modulo [2^32]; a second datagram for
    the same object whose source id differs by a multiple of [2^32]
    replaces the entry written by the first. *)
Theorem source_id_wraps data1 len1 t1 obj1 n_o1 n_v1
    data2 len2 t2 obj2 n_o2 n_v2 oid s1 s2 k :
  envelope lib self data1 len1 obj1 n_o1 n_v1 oid ->
  envelope lib self data2 len2 obj2 n_o2 n_v2 oid ->
  udpjson_parse_uint64 lib (source_node self obj1) = Some s1 ->
  udpjson_parse_uint64 lib (source_node self obj2) = Some s2 ->
  s2 = s1 + k * 2 ^ 32 ->
  let after1 := udpjson_parse_and_cache lib self data1 len1 t1 in
  let after2 := udpjson_parse_and_cache lib after1 data2 len2 t2 in
  after1
  = udpjson_cache_update self (s1 mod 2 ^ 32) oid
      (Some (canonical_value_string lib n_v1)) t1
  /\ cache after1 !! (s1 mod 2 ^ 32, oid)
     = Some {| value := canonical_value_string lib n_v1; recv_ts_us := t1 |}
  /\ cache after2 !! (s1 mod 2 ^ 32, oid)
     = Some {| value := canonical_value_string lib n_v2; recv_ts_us := t2 |}.
Proof.
  intros Henv1 Henv2 Hs1 Hs2 Hk after1 after2.
  assert (H1 : after1
               = udpjson_cache_update self (s1 mod 2 ^ 32) oid
                   (Some (canonical_value_string lib n_v1)) t1).
  { subst after1.
    rewrite (parse_and_cache_envelope _ _ _ _ _ _ _ _ _ Henv1), Hs1.
    reflexivity. }
  split; [exact H1 |]. split.
  - rewrite H1. apply cache_update_lookup_same.
  - assert (Henv2' : envelope lib after1 data2 len2 obj2 n_o2 n_v2 oid).
    { rewrite H1. exact Henv2. }
    subst after2.
    rewrite (parse_and_cache_envelope _ _ _ _ _ _ _ _ _ Henv2').
    replace (source_node after1 obj2) with (source_node self obj2)
      by (rewrite H1; reflexivity).
    rewrite Hs2. unfold Int.to_guint32.
    replace (s2 mod 2 ^ 32) with (s1 mod 2 ^ 32)
      by (rewrite Hk; symmetry; apply Z.mod_add; lia).
    apply cache_update_lookup_same.
Qed.

End ExtractorRoundTrip.

(** A string value read back 0.4 s after its arrival. *)
Lemma extract_then_lookup_witness :
  let lib := glib_for [JsonObj sample_obj] in
  let self := gst_udpjson_meta_init in
  udpjson_node_to_string lib (Some (JsonVal (VString "hot"))) = Some "hot"
  /\ udpjson_cache_lookup
       (udpjson_parse_and_cache lib self (datagram_of (JsonObj sample_obj))
          (datagram_len (JsonObj sample_obj)) 100000)
       0 7 500000
     = Some ("hot", 100000).
Proof.
  intros lib self.
  apply (extract_then_lookup lib self (datagram_of (JsonObj sample_obj))
           (datagram_len (JsonObj sample_obj)) 100000 sample_obj
           (JsonVal (VInt64 7)) (JsonVal (VString "hot")) 7 0 500000).
  - repeat split; vm_compute; reflexivity.
  - vm_compute. reflexivity.
  - intros [_ H]. vm_compute in H. discriminate H.
Defined.

(** Sources 5 and [5 + 2^32] share the entry of key (5, 7). *)
Lemma source_id_wraps_witness :
  let r1 := JsonObj (sample_obj_from 5 "a") in
  let r2 := JsonObj (sample_obj_from (5 + 2 ^ 32) "b") in
  let lib := glib_for [r1; r2] in
  let self := gst_udpjson_meta_init in
  let after1 :=
    udpjson_parse_and_cache lib self (datagram_of r1) (datagram_len r1) 10 in
  let after2 :=
    udpjson_parse_and_cache lib after1 (datagram_of r2) (datagram_len r2)
      20 in
  after1 = udpjson_cache_update self 5 7 (Some "a") 10
  /\ cache after1 !! (5, 7) = Some {| value := "a"; recv_ts_us := 10 |}
  /\ cache after2 !! (5, 7) = Some {| value := "b"; recv_ts_us := 20 |}.
Proof.
  intros r1 r2 lib self.
  apply (source_id_wraps lib self (datagram_of r1) (datagram_len r1) 10
           (sample_obj_from 5 "a") (JsonVal (VInt64 7)) (JsonVal (VString "a"))
           (datagram_of r2) (datagram_len r2) 20
           (sample_obj_from (5 + 2 ^ 32) "b") (JsonVal (VInt64 7))
           (JsonVal (VString "b")) 7 5 (5 + 2 ^ 32) 1).
  - repeat split; vm_compute; reflexivity.
  - repeat split; vm_compute; reflexivity.
  - vm_compute. reflexivity.
  - vm_compute. reflexivity.
  - reflexivity.
Defined.

(** ** The listener loop *)

Section Listener.

Variable lib : GLib.

(** A round never adds a call of the protocol decoder to the log. *)
Lemma recv_round_no_decoder_call st r :
  List.filter is_decoder_call (calls (udpjson_recv_round lib st r))
  = List.filter is_decoder_call (calls st).
Proof.
  unfold udpjson_recv_round.
  destruct (poll_ret r <=? 0); [reflexivity |].
  destruct (Z.land (revents r) POLLIN =? 0); [reflexivity |].
  destruct (recvfrom (incoming r) (buf st) (BUF_SIZE - 1)) as [len buf1].
  destruct (len <=? 0); [reflexivity |].
  cbn [calls]. rewrite List.filter_app. cbn. apply app_nil_r.
Qed.

(** The whole thread, over any sequence of rounds, calls only the
    extractor. *)
Lemma recv_thread_no_decoder_call rounds : forall st,
  List.filter is_decoder_call (calls (udpjson_recv_thread lib st rounds))
  = List.filter is_decoder_call (calls st).
Proof.
  induction rounds as [| r rounds IH]; intros st; [reflexivity |].
  cbn [udpjson_recv_thread]. destruct (stop_flag r); [reflexivity |].
  rewrite IH. apply recv_round_no_decoder_call.
Qed.

(** C1, as the listener is written.  In a round in which the socket is
    readable and delivers a non-empty datagram, the bytes read, which are
    the whole datagram when it has at most 8191 bytes and its first 8191
    bytes otherwise, are copied into the 8 KiB buffer and followed by a
    NUL byte; the buffer, with the number of bytes read, is passed to the
    envelope extractor, which parses exactly those bytes and whose result
    is the state after the round.  The round makes this one call and none
    to the protocol decoder. *)
Theorem listener_feeds_extractor st payload clock :
  length (buf st) = Z.to_nat BUF_SIZE ->
  payload <> [] ->
  let got := take (Z.to_nat (BUF_SIZE - 1)) payload in
  let len := Z.of_nat (length got) in
  let st' := udpjson_recv_round lib st (readable_round payload clock) in
  (Z.of_nat (length payload) <= BUF_SIZE - 1 -> got = payload)
  /\ take (length got) (buf st') = got
  /\ buf st' !! length got = Some x00
  /\ calls st' = calls st ++ [call_udpjson_parse_and_cache (buf st') len]
  /\ self_ st'
     = udpjson_parse_and_cache lib (self_ st) (buf st') len clock
  /\ json_parser_load_from_data lib (buf st') len = json_parse_text lib got
  /\ List.filter is_decoder_call (calls st')
     = List.filter is_decoder_call (calls st).
Proof.
  intros Hbuf Hne got len st'. unfold BUF_SIZE in Hbuf.
  assert (Hgot : (0 < length got <= Z.to_nat (BUF_SIZE - 1))%nat).
  { subst got. rewrite length_take. unfold BUF_SIZE.
    destruct payload; [congruence | cbn [length]; lia]. }
  unfold BUF_SIZE in Hgot.
  assert (Hst' : st' =
    let buf2 := <[length got := x00]> (got ++ drop (length got) (buf st)) in
    {| self_ := udpjson_parse_and_cache lib (self_ st) buf2 len clock;
       buf := buf2;
       calls := calls st ++ [call_udpjson_parse_and_cache buf2 len] |}).
  { subst st'. unfold udpjson_recv_round, readable_round, recvfrom.
    cbn [poll_ret revents incoming clock_us].
    replace (1 <=? 0) with false by reflexivity.
    replace (Z.land POLLIN POLLIN =? 0) with false by reflexivity.
    fold got. fold len.
    replace (len <=? 0) with false by (symmetry; apply Z.leb_gt; lia).
    subst len. now rewrite Nat2Z.id. }
  assert (Htk : take (length got)
                  (<[length got := x00]>
                     (got ++ drop (length got) (buf st)))
                = got).
  { rewrite take_insert. destruct (decide _) as [Hlt | _]; [lia |].
    apply take_app_length. }
  split.
  { intros Hfit. subst got. apply take_ge. unfold BUF_SIZE in *. lia. }
  rewrite Hst'. cbn zeta. cbn [buf calls self_].
  repeat split.
  - exact Htk.
  - apply list_lookup_insert_eq.
    rewrite length_app, length_drop, Hbuf. lia.
  - unfold json_parser_load_from_data. subst len.
    now rewrite Nat2Z.id, Htk.
  - rewrite List.filter_app. cbn. apply app_nil_r.
Qed.

End Listener.

(** The sample envelope through a fresh listener. *)
Lemma listener_feeds_extractor_witness :
  let lib := glib_for [JsonObj sample_obj] in
  let payload := datagram_of (JsonObj sample_obj) in
  let st' :=
    udpjson_recv_round lib (listener_start gst_udpjson_meta_init)
      (readable_round payload 50) in
  take (length payload) (buf st') = payload
  /\ calls st'
     = [call_udpjson_parse_and_cache (buf st') (Z.of_nat (length payload))]
  /\ self_ st'
     = udpjson_cache_update gst_udpjson_meta_init 0 7 (Some "hot") 50.
Proof.
  intros lib payload st'.
  pose proof (listener_feeds_extractor lib
                (listener_start gst_udpjson_meta_init) payload 50
                ltac:(vm_compute; reflexivity)
                ltac:(vm_compute; discriminate)) as H.
  cbv zeta in H. destruct H as (Hfit & Htake & _ & Hcalls & _).
  specialize (Hfit ltac:(vm_compute; discriminate)).
  rewrite Hfit in Htake, Hcalls.
  split; [| split].
  - exact Htake.
  - exact Hcalls.
  - vm_compute. reflexivity.
Defined.

(** C1 as claimed fails: a fresh listener that receives the sample
    guidance message, a datagram the protocol decoder accepts, makes one
    call, of the extractor, and none of [cuav_parser_parse]. *)
Lemma listener_skips_decoder_counterexample :
  let lib := glib_for [sample_message] in
  let payload := datagram_of sample_message in
  let st' :=
    udpjson_recv_thread lib (listener_start gst_udpjson_meta_init)
      [readable_round payload 50] in
  ~ (exists data len,
        In (call_udpjson_parse_and_cache data len) (calls st')
        /\ In (call_cuav_parser_parse data len) (calls st')).
Proof.
  intros lib payload st' (data & len & _ & Hdec).
  assert (Hnone : List.filter is_decoder_call (calls st') = []).
  { apply (recv_thread_no_decoder_call lib). }
  assert (Hin : In (call_cuav_parser_parse data len)
                  (List.filter is_decoder_call (calls st'))).
  { apply List.filter_In. split; [exact Hdec | reflexivity]. }
  rewrite Hnone in Hin. exact Hin.
Qed.

(** ** Numeric coercion *)

Section Coercion.

Variable lib : GLib.

(** The text ["42"] as the library converts it. *)
Hypothesis strtoull_42 : g_ascii_strtoull lib "42" = 42.
Hypothesis strtoll_42 : g_ascii_strtoll lib "42" = 42.
Hypothesis strtod_42 : g_ascii_strtod lib "42" = d42.

Lemma guint64_of_d42 : guint64_of_gdouble lib d42 = 42.
Proof. reflexivity. Qed.

(** C4, as the helpers are written.  A member supplied as the string
    ["42"], the integer 42 or the double 42.0 decodes to 42.0 in a
    [gdouble] field and to 42.0f in a [gfloat] field of the protocol
    decoder, and to 42 as an identity of the envelope extractor.  In an
    integer field of the protocol decoder the string and the integer
    decode to 42, while the double is not accepted: the helper returns
    [FALSE] and the field keeps the zero it was cleared to. *)
Theorem coercion_of_42 (obj : JsonObject) (name : string) (node : JsonNode) :
  json_object_get_member obj name = Some node ->
  (In node [JsonVal (VString "42"); JsonVal (VInt64 42); JsonVal (VInt 42);
            JsonVal (VDouble d42); JsonVal (VFloat d42)] ->
   cuav_parse_double lib obj name = Some d42
   /\ cuav_parse_float lib obj name = Some f42)
  /\ (In node [JsonVal (VString "42"); JsonVal (VInt64 42);
               JsonVal (VDouble d42); JsonVal (VUInt64 42)] ->
      udpjson_parse_uint64 lib (Some node) = Some 42)
  /\ (In node [JsonVal (VString "42"); JsonVal (VInt64 42);
               JsonVal (VInt 42)] ->
      cuav_parse_uint16 lib obj name = Some 42
      /\ cuav_parse_uint8 lib obj name = Some 42
      /\ cuav_parse_uint32 lib obj name = Some 42
      /\ cuav_parse_int16 lib obj name = Some 42)
  /\ (node = JsonVal (VDouble d42) ->
      cuav_parse_uint16 lib obj name = None
      /\ cuav_parse_uint8 lib obj name = None
      /\ cuav_parse_uint32 lib obj name = None
      /\ cuav_parse_int16 lib obj name = None
      /\ field_z (cuav_parse_uint16 lib obj name) = 0).
Proof.
  intros Hm.
  unfold cuav_parse_float, cuav_parse_uint8, cuav_parse_double,
    cuav_parse_uint16, cuav_parse_uint32, cuav_parse_int16.
  rewrite Hm.
  split; [| split; [| split]].
  - intros H; split; in_cases H;
      cbn; rewrite ?strtod_42; reflexivity.
  - intros H; in_cases H; cbn; rewrite ?strtoull_42; reflexivity.
  - intros H; repeat split; in_cases H;
      cbn; rewrite ?strtoull_42, ?strtoll_42; reflexivity.
  - intros ->. repeat split.
Qed.

End Coercion.

(** The string ["42"] in a floating and in an integer field, with the
    conversions of the reference library. *)
Lemma coercion_of_42_witness :
  let lib := Demo.glib [] in
  let obj := [("msec", JsonVal (VString "42"))] in
  (cuav_parse_double lib obj "msec" = Some d42
   /\ cuav_parse_float lib obj "msec" = Some f42)
  /\ cuav_parse_uint16 lib obj "msec" = Some 42.
Proof.
  intros lib obj.
  destruct (coercion_of_42 lib
              ltac:(vm_compute; reflexivity)
              ltac:(vm_compute; reflexivity)
              ltac:(vm_compute; reflexivity)
              obj "msec" (JsonVal (VString "42"))
              ltac:(vm_compute; reflexivity))
    as (Hfloat & _ & Hint & _).
  split.
  - apply Hfloat. left. reflexivity.
  - apply Hint. left. reflexivity.
Defined.

(** C4 as claimed fails: the header's [msg_id] supplied as the double
    42.0 decodes to 0, not to the 42 that the string and the integer
    give. *)
Lemma coercion_double_counterexample :
  let lib := Demo.glib [] in
  let decoded (node : JsonNode) :=
    Header.msg_id (cuav_parse_common_header lib [("msg_id", node)] 0) in
  ~ (decoded (JsonVal (VString "42")) = 42
     /\ decoded (JsonVal (VInt64 42)) = 42
     /\ decoded (JsonVal (VDouble d42)) = 42).
Proof.
  intros lib decoded (_ & _ & H). vm_compute in H. discriminate H.
Qed.

(** The string and the integer do give 42 there. *)
Example coercion_int_ok :
  let lib := Demo.glib [] in
  Header.msg_id
    (cuav_parse_common_header lib [("msg_id", JsonVal (VString "42"))] 0) = 42
  /\ Header.msg_id
       (cuav_parse_common_header lib [("msg_id", JsonVal (VInt64 42))] 0)
     = 42.
Proof. split; vm_compute; reflexivity. Qed.

(** ** The protocol decoder *)

Section Decoder.

Variables (lib : GLib) (parser : CUAVParser).

Lemma has_member_get (obj : JsonObject) (name : string) :
  json_object_has_member obj name = true
  <-> exists n, json_object_get_member obj name = Some n.
Proof.
  unfold json_object_has_member.
  destruct (json_object_get_member obj name) as [n |]; split;
    try discriminate; eauto.
  intros [n Hn]. discriminate Hn.
Qed.

Lemma find_common_some (root_obj common : JsonObject) :
  find_common root_obj = Some common
  <-> json_object_get_member root_obj KEY_COMMON = Some (JsonObj common).
Proof.
  unfold find_common, json_object_has_member.
  destruct (json_object_get_member root_obj KEY_COMMON)
    as [[| v | ms | es] |]; cbn; split; intros H;
    try discriminate H; congruence.
Qed.

Lemma find_common_none (root_obj : JsonObject) :
  find_common root_obj = None <-> ~ has_header root_obj.
Proof.
  split.
  - intros Hnone [common Hc]. apply find_common_some in Hc. congruence.
  - intros Hno. destruct (find_common root_obj) as [common |] eqn:E;
      [| reflexivity].
    exfalso. apply Hno. exists common. now apply find_common_some.
Qed.

Lemma specific_of_item_some (node : JsonNode) (sp : JsonObject) :
  specific_of_item node = Some sp
  <-> exists item,
        node = JsonObj item
        /\ json_object_get_member item KEY_SPECIFIC = Some (JsonObj sp).
Proof.
  unfold specific_of_item, json_object_has_member.
  destruct node as [| v | item | es]; cbn;
    try (split; [discriminate | intros (i & Hi & _); discriminate Hi]).
  destruct (json_object_get_member item KEY_SPECIFIC)
    as [[| v | ms | es] |] eqn:E; cbn; split;
    try discriminate;
    try (intros (i & Hi & Hm); injection Hi as <-; congruence).
  intros [= <-]. eauto.
Qed.

Lemma specific_from_cont_some (items : JsonArray) :
  (exists sp, cuav_get_specific_from_cont items = Some sp)
  <-> Exists holds_payload items.
Proof.
  induction items as [| node items IH]; cbn.
  - split; [intros [sp H]; discriminate H | intros H; inversion H].
  - destruct (specific_of_item node) as [sp |] eqn:E.
    + split; [| eauto]. intros _. apply Exists_cons_hd.
      apply specific_of_item_some in E as (item & -> & Hm).
      exists item, sp. auto.
    + rewrite IH. split; [apply Exists_cons_tl |].
      intros H. inversion H as [? ? (item & sp & -> & Hm) | ]; subst;
        [| assumption].
      exfalso.
      assert (Hs : specific_of_item (JsonObj item) = Some sp)
        by (apply specific_of_item_some; eauto).
      congruence.
Qed.

Lemma find_specific_some (root_obj : JsonObject) :
  (exists sp, find_specific root_obj = Some sp) <-> has_payload root_obj.
Proof.
  unfold find_specific, has_payload, json_object_has_member.
  destruct (json_object_get_member root_obj KEY_SPECIFIC)
    as [[| v | ms | es] |] eqn:Es; cbn.
  1, 2, 4: split;
    [intros [sp H]; discriminate H
    | intros [[sp H] | [H _]]; discriminate H].
  - split; [intros _; left; eauto | eauto].
  - destruct (json_object_get_member root_obj KEY_CONT)
      as [[| v | ms | es] |] eqn:Ec; cbn.
    1, 2, 3, 5: split;
      [intros [sp H]; discriminate H
      | intros [[sp H] | [_ (items & H & _)]]; discriminate H].
    rewrite specific_from_cont_some. split.
    + intros H. right. split; [reflexivity |]. eauto.
    + intros [[sp H] | [_ (items & [= <-] & H)]];
        [discriminate H | exact H].
Qed.

Lemma find_specific_none (root_obj : JsonObject) :
  find_specific root_obj = None <-> ~ has_payload root_obj.
Proof.
  rewrite <- find_specific_some. split.
  - intros -> [sp H]. discriminate H.
  - intros Hno. destruct (find_specific root_obj) as [sp |]; [| reflexivity].
    exfalso. eauto.
Qed.

(** Once header and payload are found, the decoder succeeds. *)
Lemma dispatch_result header specific :
  result (dispatch lib parser header specific) = true.
Proof.
  unfold dispatch.
  destruct (Header.msg_id header =? CUAV_MSG_ID_GUIDANCE); [reflexivity |].
  destruct (Header.msg_id header =? CUAV_MSG_ID_EO_SYSTEM); [reflexivity |].
  destruct (Header.msg_id header =? CUAV_MSG_ID_EO_SERVO); reflexivity.
Qed.

Lemma dispatch_unrecognized header specific :
  recognized_msg_id (Header.msg_id header) = false ->
  dispatch lib parser header specific
  = {| result := true;
       events := raw_events parser header specific;
       printed := [] |}.
Proof.
  unfold recognized_msg_id, dispatch. intros H.
  apply orb_false_iff in H as [H H3]. apply orb_false_iff in H as [H1 H2].
  now rewrite H1, H2, H3.
Qed.

(** The decoder on an object root. *)
Lemma parse_on_object data len ts root_obj :
  0 < len ->
  json_parser_load_from_data lib data len = LoadedRoot (JsonObj root_obj) ->
  cuav_parser_parse lib parser data len ts
  = match find_common root_obj with
    | None => failed
    | Some common =>
        match find_specific root_obj with
        | None => failed
        | Some specific =>
            dispatch lib parser
              (cuav_parse_common_header lib common ts) specific
        end
    end.
Proof.
  intros Hlen Hload. unfold cuav_parser_parse.
  replace (len <=? 0) with false by (symmetry; apply Z.leb_gt; lia).
  now rewrite Hload.
Qed.

(** C7, as the decoder is written.  [cuav_parser_parse] returns failure
    exactly when the length is not positive, the input does not parse to a
    JSON object, the header member is absent or not an object, or no
    payload is found: the direct payload member is present but not an
    object, or it is absent and no element of the content array holds the
    payload member as an object.  A failing call invokes no callback.  A
    message with header and payload whose [msg_id] is not one of the three
    dispatched identities succeeds and invokes the raw callback, if one is
    registered, and nothing else. *)
Theorem parse_fails_exactly_when data len ts :
  let out := cuav_parser_parse lib parser data len ts in
  let loaded := json_parser_load_from_data lib data len in
  (result out = false
   <-> len <= 0
       \/ (forall root_obj, loaded <> LoadedRoot (JsonObj root_obj))
       \/ (exists root_obj,
              loaded = LoadedRoot (JsonObj root_obj)
              /\ (~ has_header root_obj \/ ~ has_payload root_obj)))
  /\ (result out = false -> events out = [] /\ printed out = [])
  /\ (forall root_obj common specific,
         0 < len ->
         loaded = LoadedRoot (JsonObj root_obj) ->
         json_object_get_member root_obj KEY_COMMON = Some (JsonObj common) ->
         find_specific root_obj = Some specific ->
         let header := cuav_parse_common_header lib common ts in
         recognized_msg_id (Header.msg_id header) = false ->
         result out = true
         /\ events out
            = (if raw_callback parser
               then [EvRaw header specific (raw_user_data parser)]
               else [])).
Proof.
  intros out loaded.
  assert (Hshape :
    (len <= 0 /\ out = failed)
    \/ (0 < len /\ (forall root_obj, loaded <> LoadedRoot (JsonObj root_obj))
        /\ out = failed)
    \/ (exists root_obj,
           0 < len /\ loaded = LoadedRoot (JsonObj root_obj)
           /\ out = match find_common root_obj with
                    | None => failed
                    | Some common =>
                        match find_specific root_obj with
                        | None => failed
                        | Some specific =>
                            dispatch lib parser
                              (cuav_parse_common_header lib common ts)
                              specific
                        end
                    end)).
  { destruct (Z.leb_spec len 0) as [Hle | Hgt].
    - left. split; [exact Hle |]. subst out. unfold cuav_parser_parse.
      now replace (len <=? 0) with true by (symmetry; apply Z.leb_le; lia).
    - right. subst out loaded. unfold cuav_parser_parse.
      replace (len <=? 0) with false by (symmetry; apply Z.leb_gt; lia).
      destruct (json_parser_load_from_data lib data len)
        as [| | [| v | root_obj | es]] eqn:E; cbn;
        try (left; repeat split; [exact Hgt | discriminate]).
      right. exists root_obj. auto. }
  split; [| split].
  - destruct Hshape as [[Hle ->] | [(Hgt & Hno & ->) | (root_obj & Hgt & Hl & ->)]].
    + split; [intros _; now left | reflexivity].
    + split; [intros _; right; now left | reflexivity].
    + split.
      * intros Hres. right. right. exists root_obj. split; [exact Hl |].
        destruct (find_common root_obj) as [common |] eqn:Ec.
        -- destruct (find_specific root_obj) as [sp |] eqn:Es.
           ++ rewrite dispatch_result in Hres. discriminate Hres.
           ++ right. now apply find_specific_none.
        -- left. now apply find_common_none.
      * intros [Hle | [Hno | (root' & Hl' & Hmiss)]].
        -- lia.
        -- exfalso. exact (Hno root_obj Hl).
        -- assert (root' = root_obj) by congruence. subst root'.
           destruct Hmiss as [Hh | Hp].
           ++ apply find_common_none in Hh. now rewrite Hh.
           ++ apply find_specific_none in Hp. rewrite Hp.
              now destruct (find_common root_obj).
  - destruct Hshape as [[Hle ->] | [(Hgt & Hno & ->) | (root_obj & Hgt & Hl & ->)]];
      try (intros _; split; reflexivity).
    destruct (find_common root_obj) as [common |];
      [| intros _; split; reflexivity].
    destruct (find_specific root_obj) as [sp |];
      [| intros _; split; reflexivity].
    rewrite dispatch_result. discriminate.
  - intros root_obj common specific Hgt Hl Hc Hs header Hid.
    subst out. rewrite (parse_on_object _ _ _ _ Hgt Hl).
    apply find_common_some in Hc. rewrite Hc, Hs.
    fold header. rewrite (dispatch_unrecognized _ _ Hid). cbn.
    split; reflexivity.
Qed.

End Decoder.

(** A message of identity 0x7202, its payload in the content array: the
    decoder succeeds and only the raw callback runs. *)
Lemma parse_fails_exactly_when_witness :
  let lib := glib_for [other_message] in
  let out :=
    cuav_parser_parse lib sample_parser (datagram_of other_message)
      (datagram_len other_message) 77 in
  let common := [("msg_id", JsonVal (VInt64 0x7202))] in
  result out = true
  /\ events out
     = [EvRaw (cuav_parse_common_header lib common 77)
          [("bit", JsonVal (VInt64 1))] 102].
Proof.
  intros lib out common.
  pose proof (parse_fails_exactly_when lib sample_parser
                (datagram_of other_message)
                (datagram_len other_message) 77) as H.
  cbv zeta in H. destruct H as (_ & _ & H).
  specialize (H (json_node_get_object other_message) common
                [("bit", JsonVal (VInt64 1))]
                ltac:(vm_compute; reflexivity)
                ltac:(vm_compute; reflexivity)
                ltac:(vm_compute; reflexivity)
                ltac:(vm_compute; reflexivity)
                ltac:(vm_compute; reflexivity)).
  destruct H as [H1 H2]. split; [exact H1 | exact H2].
Defined.

(** C7 as claimed fails: the message below is a JSON object with a header
    object, it has a direct payload member and its content array holds a
    payload object, so none of the claimed failure conditions holds; yet
    the decoder returns failure, because the direct payload member is a
    string and the content array is then never searched. *)
Lemma parse_shadowed_payload_counterexample :
  let lib := glib_for [shadowed_message] in
  let data := datagram_of shadowed_message in
  let len := datagram_len shadowed_message in
  let out := cuav_parser_parse lib sample_parser data len 0 in
  let loaded := json_parser_load_from_data lib data len in
  ~ (result out = false
     <-> (forall root_obj, loaded <> LoadedRoot (JsonObj root_obj))
         \/ (exists root_obj,
                loaded = LoadedRoot (JsonObj root_obj)
                /\ (~ has_header root_obj
                    \/ payload_missing_as_claimed root_obj))).
Proof.
  intros lib data len out loaded [Hfwd _].
  assert (Hfail : result out = false) by (vm_compute; reflexivity).
  assert (Hloaded : loaded = LoadedRoot shadowed_message)
    by (vm_compute; reflexivity).
  destruct (Hfwd Hfail) as [Hno | (root_obj & Hl & [Hh | [Hp _]])].
  - exact (Hno _ Hloaded).
  - rewrite Hloaded in Hl. injection Hl as <-. apply Hh.
    exists [("msg_id", JsonVal (VInt64 0x7111))]. vm_compute. reflexivity.
  - rewrite Hloaded in Hl. injection Hl as <-.
    vm_compute in Hp. discriminate Hp.
Qed.

Section GuidanceDecode.

Variables (lib : GLib) (parser : CUAVParser).

Lemma parse_uint16_int_member obj name v :
  int_member obj name v 16 -> cuav_parse_uint16 lib obj name = Some v.
Proof.
  intros [Hm Hr]. unfold cuav_parse_uint16. rewrite Hm. cbn.
  unfold Int.to_guint16. f_equal.
  destruct (0 <? v) eqn:E; [apply Z.mod_small; lia |].
  apply Z.ltb_ge in E. replace v with 0 by lia. reflexivity.
Qed.

Lemma parse_uint8_int_member obj name v :
  int_member obj name v 8 -> cuav_parse_uint8 lib obj name = Some v.
Proof.
  intros [Hm Hr]. unfold cuav_parse_uint8.
  rewrite (parse_uint16_int_member obj name v) by (split; [exact Hm | lia]).
  unfold Int.to_guint8. f_equal. apply Z.mod_small. lia.
Qed.

Lemma parse_uint32_int_member obj name v :
  int_member obj name v 32 -> cuav_parse_uint32 lib obj name = Some v.
Proof.
  intros [Hm Hr]. unfold cuav_parse_uint32. rewrite Hm. cbn.
  unfold Int.to_guint32, Int.to_guint64. f_equal.
  rewrite (Z.mod_small v (2 ^ 64)) by lia.
  destruct (0 <? v) eqn:E; [apply Z.mod_small; lia |].
  apply Z.ltb_ge in E. replace v with 0 by lia. reflexivity.
Qed.

Lemma parse_double_member obj name d :
  double_member obj name d -> cuav_parse_double lib obj name = Some d.
Proof. intros Hm. unfold cuav_parse_double. now rewrite Hm. Qed.

Lemma parse_float_member obj name f :
  float_member obj name f -> cuav_parse_float lib obj name = Some f.
Proof.
  intros (d & Hm & ->). unfold cuav_parse_float.
  now rewrite (parse_double_member obj name d Hm).
Qed.



End GuidanceDecode.



(** * Further properties of the decoder *)

(** ** What the numeric helpers store *)

Section NumericHelpers.

Variable lib : GLib.

Lemma mod64_mod32 (v : Z) : (v mod 2 ^ 64) mod 2 ^ 32 = v mod 2 ^ 32.
Proof. apply Z.mod_mod_divide. exists (2 ^ 32). reflexivity. Qed.

Lemma mod16_mod8 (v : Z) : (v mod 2 ^ 16) mod 2 ^ 8 = v mod 2 ^ 8.
Proof. apply Z.mod_mod_divide. exists (2 ^ 8). reflexivity. Qed.

Lemma to_gint16_range (v : Z) : - 2 ^ 15 <= Int.to_gint16 v < 2 ^ 15.
Proof.
  unfold Int.to_gint16. cbv zeta.
  pose proof (Z.mod_pos_bound v (2 ^ 16) ltac:(reflexivity)) as Hu.
  destruct (v mod 2 ^ 16 <? 2 ^ 15) eqn:E.
  - apply Z.ltb_lt in E. lia.
  - apply Z.ltb_ge in E. change (2 ^ 16) with (2 * 2 ^ 15) in *. lia.
Qed.

Lemma to_gint16_congruent (v : Z) : (Int.to_gint16 v - v) mod 2 ^ 16 = 0.
Proof.
  unfold Int.to_gint16. cbv zeta.
  pose proof (Z.div_mod v (2 ^ 16) ltac:(discriminate)) as Hv.
  destruct (v mod 2 ^ 16 <? 2 ^ 15).
  - replace (v mod 2 ^ 16 - v) with (- (v / 2 ^ 16) * 2 ^ 16) by lia.
    apply Z_mod_mult.
  - replace (v mod 2 ^ 16 - 2 ^ 16 - v)
      with ((- (v / 2 ^ 16) - 1) * 2 ^ 16) by lia.
    apply Z_mod_mult.
Qed.

Lemma to_gint16_fits (v : Z) :
  - 2 ^ 15 <= v < 2 ^ 15 -> Int.to_gint16 v = v.
Proof.
  intros Hv. unfold Int.to_gint16. cbv zeta.
  change (2 ^ 15) with 32768 in *. change (2 ^ 16) with 65536.
  destruct (Z.neg_nonneg_cases v) as [Hneg | Hpos].
  - replace (v mod 65536) with (v + 65536).
    + replace (v + 65536 <? 32768) with false by (symmetry; lia). lia.
    + apply (Z.mod_unique _ _ (-1)); lia.
  - rewrite Z.mod_small by lia.
    replace (v <? 32768) with true by (symmetry; lia). reflexivity.
Qed.

(** A JSON integer [v] in each kind of integer field: the unsigned 8 and
    16-bit helpers store 0 for [v <= 0] and the low bits of [v] otherwise;
    the unsigned 32-bit helper stores the low 32 bits of [v] also when [v]
    is negative; the signed 16-bit helper stores the two's complement
    reading of the low 16 bits. *)
Theorem integer_member_decoding (obj : JsonObject) (name : string) (v : Z) :
  json_object_get_member obj name = Some (JsonVal (VInt64 v)) ->
  cuav_parse_uint16 lib obj name
  = Some (if v <=? 0 then 0 else v mod 2 ^ 16)
  /\ cuav_parse_uint8 lib obj name = Some (if v <=? 0 then 0 else v mod 2 ^ 8)
  /\ cuav_parse_uint32 lib obj name = Some (v mod 2 ^ 32)
  /\ exists r,
       cuav_parse_int16 lib obj name = Some r
       /\ - 2 ^ 15 <= r < 2 ^ 15
       /\ (r - v) mod 2 ^ 16 = 0
       /\ (- 2 ^ 15 <= v < 2 ^ 15 -> r = v).
Proof.
  intros Hm.
  assert (H16 : cuav_parse_uint16 lib obj name
                = Some (if v <=? 0 then 0 else v mod 2 ^ 16)).
  { unfold cuav_parse_uint16. rewrite Hm. cbn. unfold Int.to_guint16.
    destruct (Z.ltb_spec 0 v), (Z.leb_spec v 0); try lia; reflexivity. }
  split; [exact H16 | split; [| split]].
  - unfold cuav_parse_uint8. rewrite H16. unfold Int.to_guint8.
    destruct (v <=? 0); [reflexivity |]. now rewrite mod16_mod8.
  - unfold cuav_parse_uint32. rewrite Hm. cbn.
    unfold Int.to_guint32, Int.to_guint64.
    destruct (Z.ltb_spec 0 (v mod 2 ^ 64)) as [Hpos | Hzero].
    + now rewrite mod64_mod32.
    + pose proof (Z.mod_pos_bound v (2 ^ 64) ltac:(reflexivity)) as Hb.
      assert (H0 : v mod 2 ^ 64 = 0) by lia.
      rewrite <- (mod64_mod32 v), H0. reflexivity.
  - exists (Int.to_gint16 v). unfold cuav_parse_int16. rewrite Hm. cbn.
    split; [reflexivity | split; [apply to_gint16_range | split]].
    + apply to_gint16_congruent.
    + apply to_gint16_fits.
Qed.

(** Each helper leaves its target alone, so that the field keeps the zero
    of [memset], when the member is missing, when it is null, a boolean, an
    object or an array, and, for the integer helpers, also when it is a
    floating-point number. *)
Theorem helpers_reject (obj : JsonObject) (name : string) :
  (json_object_get_member obj name = None
   \/ (exists n, json_object_get_member obj name = Some n /\ not_numeric n) ->
   cuav_parse_double lib obj name = None
   /\ cuav_parse_float lib obj name = None
   /\ cuav_parse_uint16 lib obj name = None
   /\ cuav_parse_uint8 lib obj name = None
   /\ cuav_parse_uint32 lib obj name = None
   /\ cuav_parse_int16 lib obj name = None)
  /\ ((exists d, json_object_get_member obj name = Some (JsonVal (VDouble d))
                 \/ json_object_get_member obj name
                    = Some (JsonVal (VFloat d))) ->
      cuav_parse_uint16 lib obj name = None
      /\ cuav_parse_uint8 lib obj name = None
      /\ cuav_parse_uint32 lib obj name = None
      /\ cuav_parse_int16 lib obj name = None
      /\ field_z (cuav_parse_uint16 lib obj name) = 0
      /\ field_z (cuav_parse_uint32 lib obj name) = 0).
Proof.
  unfold cuav_parse_float, cuav_parse_uint8, cuav_parse_double,
    cuav_parse_uint16, cuav_parse_uint32, cuav_parse_int16.
  split.
  - intros [-> | (n & -> & Hn)].
    + repeat split.
    + destruct n as [| [s | i | i | d | d | b | u] | ms | es];
        cbn in Hn; try contradiction; repeat split.
  - intros (d & [-> | ->]); repeat split.
Qed.

End NumericHelpers.

(** A negative batch number, a year beyond 16 bits and a negative
    offset. *)
Lemma integer_member_decoding_witness :
  let lib := Demo.glib [] in
  let obj := [("tar_id", JsonVal (VInt64 (-1)));
              ("yr", JsonVal (VInt64 67560));
              ("offset_h", JsonVal (VInt64 (-120)))] in
  cuav_parse_uint32 lib obj "tar_id" = Some 4294967295
  /\ cuav_parse_uint16 lib obj "tar_id" = Some 0
  /\ cuav_parse_uint16 lib obj "yr" = Some 2024
  /\ cuav_parse_int16 lib obj "offset_h" = Some (-120).
Proof.
  intros lib obj.
  pose proof (integer_member_decoding lib obj "tar_id" (-1)
                ltac:(vm_compute; reflexivity)) as (Ha & _ & Hb & _).
  pose proof (integer_member_decoding lib obj "yr" 67560
                ltac:(vm_compute; reflexivity)) as (Hc & _).
  pose proof (integer_member_decoding lib obj "offset_h" (-120)
                ltac:(vm_compute; reflexivity))
    as (_ & _ & _ & r & Hr & _ & _ & Hfit).
  rewrite (Hfit ltac:(split; [vm_compute; discriminate
                             | vm_compute; reflexivity])) in Hr.
  split; [exact Hb | split; [exact Ha | split; [exact Hc | exact Hr]]].
Defined.

(** A boolean where a number is expected, and a double in an integer
    field. *)
Lemma helpers_reject_witness :
  let lib := Demo.glib [] in
  let obj := [("guid_stat", JsonVal (VBoolean true));
              ("tar_id", JsonVal (VDouble d42))] in
  cuav_parse_uint8 lib obj "guid_stat" = None
  /\ cuav_parse_double lib obj "lon" = None
  /\ cuav_parse_uint32 lib obj "tar_id" = None.
Proof.
  intros lib obj.
  pose proof (proj1 (helpers_reject lib obj "guid_stat")
                (or_intror (ex_intro _ (JsonVal (VBoolean true))
                              (conj eq_refl I))))
    as (_ & _ & _ & Ha & _).
  pose proof (proj1 (helpers_reject lib obj "lon") (or_introl eq_refl))
    as (Hb & _).
  pose proof (proj2 (helpers_reject lib obj "tar_id")
                (ex_intro _ d42 (or_introl eq_refl)))
    as (_ & _ & Hc & _).
  split; [exact Ha | split; [exact Hb | exact Hc]].
Defined.

(** ** What the record decoders store *)

Section RecordDecoders.

Variable lib : GLib.

Lemma field_uint16_range obj name :
  0 <= field_z (cuav_parse_uint16 lib obj name) < 2 ^ 16.
Proof.
  unfold cuav_parse_uint16.
  destruct (json_object_get_member obj name) as [node |]; cbn; [| lia].
  repeat (destruct (GType_eqb _ _);
          [cbn; apply Z.mod_pos_bound; reflexivity |]).
  cbn. lia.
Qed.

Lemma field_uint8_range obj name :
  0 <= field_z (cuav_parse_uint8 lib obj name) < 2 ^ 8.
Proof.
  unfold cuav_parse_uint8.
  destruct (cuav_parse_uint16 lib obj name); cbn; [| lia].
  apply Z.mod_pos_bound. reflexivity.
Qed.

Lemma field_uint32_range obj name :
  0 <= field_z (cuav_parse_uint32 lib obj name) < 2 ^ 32.
Proof.
  unfold cuav_parse_uint32.
  destruct (json_object_get_member obj name) as [node |]; cbn; [| lia].
  repeat (destruct (GType_eqb _ _);
          [cbn; apply Z.mod_pos_bound; reflexivity |]).
  cbn. lia.
Qed.

Lemma field_int16_range obj name :
  - 2 ^ 15 <= field_z (cuav_parse_int16 lib obj name) < 2 ^ 15.
Proof.
  unfold cuav_parse_int16.
  destruct (json_object_get_member obj name) as [node |]; cbn; [| lia].
  repeat (destruct (GType_eqb _ _); [cbn; apply to_gint16_range |]).
  cbn. lia.
Qed.

(** Whatever the JSON holds and however the library converts strings,
    every integer field of a decoded header, guidance, EO-system or servo
    record lies in the range of its C type; the header's [msg_sn], a
    [guint32] filled through a 16-bit helper, stays below [2^16]. *)
Theorem decoded_fields_in_range (obj : JsonObject) (ts : Z) :
  header_in_range (cuav_parse_common_header lib obj ts)
  /\ guidance_in_range (cuav_parse_guidance lib obj)
  /\ eo_system_in_range (cuav_parse_eo_system lib obj)
  /\ servo_in_range (cuav_parse_servo_control lib obj).
Proof.
  unfold header_in_range, guidance_in_range, eo_system_in_range,
    servo_in_range, cuav_parse_common_header, cuav_parse_guidance,
    cuav_parse_eo_system, cuav_parse_servo_control.
  cbn -[Z.pow Z.le Z.lt field_z cuav_parse_uint16 cuav_parse_uint8
        cuav_parse_uint32 cuav_parse_int16 cuav_parse_float
        cuav_parse_double].
  repeat match goal with
         | |- (_ <= _ < _) /\ _ => split
         | |- _ /\ _ => split
         end;
    first [apply field_uint16_range | apply field_uint8_range
          | apply field_uint32_range | apply field_int16_range].
Qed.

Lemma absent_uint16 obj name :
  json_object_get_member obj name = None ->
  cuav_parse_uint16 lib obj name = None.
Proof. intros H. unfold cuav_parse_uint16. now rewrite H. Qed.

Lemma absent_uint8 obj name :
  json_object_get_member obj name = None ->
  cuav_parse_uint8 lib obj name = None.
Proof. intros H. unfold cuav_parse_uint8. now rewrite absent_uint16. Qed.

Lemma absent_uint32 obj name :
  json_object_get_member obj name = None ->
  cuav_parse_uint32 lib obj name = None.
Proof. intros H. unfold cuav_parse_uint32. now rewrite H. Qed.

Lemma absent_int16 obj name :
  json_object_get_member obj name = None ->
  cuav_parse_int16 lib obj name = None.
Proof. intros H. unfold cuav_parse_int16. now rewrite H. Qed.

Lemma absent_double obj name :
  json_object_get_member obj name = None ->
  cuav_parse_double lib obj name = None.
Proof. intros H. unfold cuav_parse_double. now rewrite H. Qed.

Lemma absent_float obj name :
  json_object_get_member obj name = None ->
  cuav_parse_float lib obj name = None.
Proof. intros H. unfold cuav_parse_float. now rewrite absent_double. Qed.

End RecordDecoders.

(** Turns [Forall] over an explicit list of member names into one
    hypothesis per name, then rewrites every helper call on an absent
    member. *)
Ltac absent_members lib :=
  repeat match goal with
         | H : Forall _ (_ :: _) |- _ => inversion H; subst; clear H
         | H : Forall _ [] |- _ => clear H
         end;
  repeat match goal with
         | H : json_object_get_member ?o ?n = None |- _ =>
             rewrite ?(absent_uint16 lib o n H), ?(absent_uint8 lib o n H),
               ?(absent_uint32 lib o n H), ?(absent_int16 lib o n H),
               ?(absent_double lib o n H), ?(absent_float lib o n H);
             clear H
         end.

(** A payload that has none of the members a record decoder reads, but
    possibly others, decodes to the all-zero record. *)
Theorem missing_members_decode_to_zero (lib : GLib) (specific : JsonObject) :
  (Forall (fun n => json_object_get_member specific n = None)
     guidance_field_names ->
   cuav_parse_guidance lib specific = guidance_zero)
  /\ (Forall (fun n => json_object_get_member specific n = None)
        eo_system_field_names ->
      cuav_parse_eo_system lib specific = eo_system_zero)
  /\ (Forall (fun n => json_object_get_member specific n = None)
        servo_field_names ->
      cuav_parse_servo_control lib specific = servo_zero).
Proof.
  split; [| split].
  - unfold guidance_field_names, cuav_parse_guidance. intros H.
    absent_members lib. reflexivity.
  - unfold eo_system_field_names, cuav_parse_eo_system. intros H.
    absent_members lib. reflexivity.
  - unfold servo_field_names, cuav_parse_servo_control. intros H.
    absent_members lib. reflexivity.
Qed.

(** A payload that carries only a member the decoders do not read. *)
Lemma missing_members_decode_to_zero_witness :
  let lib := Demo.glib [] in
  let specific := [("note", JsonVal (VString "no fields"))] in
  cuav_parse_guidance lib specific = guidance_zero
  /\ cuav_parse_eo_system lib specific = eo_system_zero
  /\ cuav_parse_servo_control lib specific = servo_zero.
Proof.
  intros lib specific.
  pose proof (missing_members_decode_to_zero lib specific) as (Hg & He & Hs).
  split; [| split].
  - apply Hg. unfold guidance_field_names.
    repeat constructor.
  - apply He. unfold eo_system_field_names.
    repeat constructor.
  - apply Hs. unfold servo_field_names.
    repeat constructor.
Defined.

(** ** EO-system and servo-control messages *)

(** [member_by_computation], extended to signed members. *)
Ltac record_member_by_computation :=
  lazymatch goal with
  | |- sint16_member _ _ _ =>
      split; [vm_compute; reflexivity
             | split; [vm_compute; discriminate | vm_compute; reflexivity]]
  | |- _ => member_by_computation
  end.

Section TypedDecode.

Variables (lib : GLib) (parser : CUAVParser).

Lemma parse_int16_sint16_member obj name v :
  sint16_member obj name v -> cuav_parse_int16 lib obj name = Some v.
Proof.
  intros [Hm Hr]. unfold cuav_parse_int16. rewrite Hm. cbn.
  now rewrite to_gint16_fits.
Qed.

(** Rewrites every helper call whose member is described by a hypothesis. *)
Ltac decode_members :=
  repeat match goal with
         | H : _ /\ _ |- _ => destruct H
         end;
  repeat match goal with
         | F : int_member _ _ _ 16 |- _ =>
             rewrite (parse_uint16_int_member lib _ _ _ F); clear F
         | F : int_member _ _ _ 8 |- _ =>
             rewrite (parse_uint8_int_member lib _ _ _ F); clear F
         | F : int_member _ _ _ 32 |- _ =>
             rewrite (parse_uint32_int_member lib _ _ _ F); clear F
         | F : sint16_member _ _ _ |- _ =>
             rewrite (parse_int16_sint16_member _ _ _ F); clear F
         | F : double_member _ _ _ |- _ =>
             rewrite (parse_double_member lib _ _ _ F); clear F
         | F : float_member _ _ _ |- _ =>
             rewrite (parse_float_member lib _ _ _ F); clear F
         end.

Lemma parse_eo_system_complete specific p :
  complete_eo_system specific p -> cuav_parse_eo_system lib specific = p.
Proof.
  unfold complete_eo_system, cuav_parse_eo_system. intros H.
  decode_members. destruct p. reflexivity.
Qed.

Lemma parse_servo_complete specific c :
  complete_servo specific c -> cuav_parse_servo_control lib specific = c.
Proof.
  unfold complete_servo, cuav_parse_servo_control. intros H.
  decode_members. destruct c. reflexivity.
Qed.

(** A message whose header decodes to [msg_id = 0x7201] and whose payload
    supplies every EO-system field is decoded to the record supplied: the
    EO-system callback, if registered, receives it, the raw callback, if
    registered, follows with the same header and the payload object, and
    debug mode prints the record. *)
Theorem eo_system_then_raw data len ts root_obj common specific p :
  0 < len ->
  json_parser_load_from_data lib data len = LoadedRoot (JsonObj root_obj) ->
  json_object_get_member root_obj KEY_COMMON = Some (JsonObj common) ->
  find_specific root_obj = Some specific ->
  cuav_parse_uint16 lib common "msg_id" = Some CUAV_MSG_ID_EO_SYSTEM ->
  complete_eo_system specific p ->
  let header := cuav_parse_common_header lib common ts in
  cuav_parser_parse lib parser data len ts
  = {| result := true;
       events :=
         (if eo_system_callback parser
          then [EvEOSystem header p (eo_system_user_data parser)]
          else [])
         ++ (if raw_callback parser
             then [EvRaw header specific (raw_user_data parser)]
             else []);
       printed := if debug_enabled parser then [PrintEOSystem p] else [] |}.
Proof.
  intros Hlen Hload Hc Hs Hid Hp header.
  rewrite (parse_on_object lib parser _ _ _ _ Hlen Hload).
  apply find_common_some in Hc. rewrite Hc, Hs. fold header.
  unfold dispatch.
  assert (Hmid : Header.msg_id header = CUAV_MSG_ID_EO_SYSTEM).
  { subst header. unfold cuav_parse_common_header. cbn [Header.msg_id].
    now rewrite Hid. }
  rewrite Hmid. cbn [Z.eqb CUAV_MSG_ID_EO_SYSTEM CUAV_MSG_ID_GUIDANCE].
  change (CUAV_MSG_ID_EO_SYSTEM =? CUAV_MSG_ID_GUIDANCE) with false.
  change (CUAV_MSG_ID_EO_SYSTEM =? CUAV_MSG_ID_EO_SYSTEM) with true.
  cbv iota. now rewrite (parse_eo_system_complete _ _ Hp).
Qed.

(** The same for [msg_id = 0x7204] and the servo-control record, whose two
    offsets are signed. *)
Theorem servo_then_raw data len ts root_obj common specific c :
  0 < len ->
  json_parser_load_from_data lib data len = LoadedRoot (JsonObj root_obj) ->
  json_object_get_member root_obj KEY_COMMON = Some (JsonObj common) ->
  find_specific root_obj = Some specific ->
  cuav_parse_uint16 lib common "msg_id" = Some CUAV_MSG_ID_EO_SERVO ->
  complete_servo specific c ->
  let header := cuav_parse_common_header lib common ts in
  cuav_parser_parse lib parser data len ts
  = {| result := true;
       events :=
         (if servo_callback parser
          then [EvServo header c (servo_user_data parser)]
          else [])
         ++ (if raw_callback parser
             then [EvRaw header specific (raw_user_data parser)]
             else []);
       printed := if debug_enabled parser then [PrintServo c] else [] |}.
Proof.
  intros Hlen Hload Hc Hs Hid Hp header.
  rewrite (parse_on_object lib parser _ _ _ _ Hlen Hload).
  apply find_common_some in Hc. rewrite Hc, Hs. fold header.
  unfold dispatch.
  assert (Hmid : Header.msg_id header = CUAV_MSG_ID_EO_SERVO).
  { subst header. unfold cuav_parse_common_header. cbn [Header.msg_id].
    now rewrite Hid. }
  rewrite Hmid.
  change (CUAV_MSG_ID_EO_SERVO =? CUAV_MSG_ID_GUIDANCE) with false.
  change (CUAV_MSG_ID_EO_SERVO =? CUAV_MSG_ID_EO_SYSTEM) with false.
  change (CUAV_MSG_ID_EO_SERVO =? CUAV_MSG_ID_EO_SERVO) with true.
  cbv iota. now rewrite (parse_servo_complete _ _ Hp).
Qed.

End TypedDecode.

Lemma sample_eo_complete : complete_eo_system sample_eo_obj sample_eo.
Proof.
  unfold complete_eo_system.
  repeat match goal with |- _ /\ _ => split end;
    record_member_by_computation.
Qed.

Lemma sample_servo_complete : complete_servo sample_servo_obj sample_servo.
Proof.
  unfold complete_servo.
  repeat match goal with |- _ /\ _ => split end;
    record_member_by_computation.
Qed.

(** The sample EO-system message through a parser with every callback. *)
Lemma eo_system_then_raw_witness :
  let msg := message_of 0x7201 sample_eo_obj in
  let lib := glib_for [msg] in
  let header :=
    cuav_parse_common_header lib [("msg_id", JsonVal (VInt64 0x7201))] 5 in
  cuav_parser_parse lib full_parser (datagram_of msg) (datagram_len msg) 5
  = {| result := true;
       events := [EvEOSystem header sample_eo 103;
                  EvRaw header sample_eo_obj 102];
       printed := [] |}.
Proof.
  intros msg lib header.
  pose proof (eo_system_then_raw lib full_parser (datagram_of msg)
                (datagram_len msg) 5 (json_node_get_object msg)
                [("msg_id", JsonVal (VInt64 0x7201))] sample_eo_obj
                sample_eo) as H.
  specialize (H ltac:(vm_compute; reflexivity)).
  specialize (H ltac:(vm_compute; reflexivity)).
  specialize (H ltac:(vm_compute; reflexivity)).
  specialize (H ltac:(vm_compute; reflexivity)).
  specialize (H ltac:(vm_compute; reflexivity)).
  specialize (H sample_eo_complete).
  cbv zeta in H. exact H.
Defined.

(** The sample servo message, with a negative horizontal offset. *)
Lemma servo_then_raw_witness :
  let msg := message_of 0x7204 sample_servo_obj in
  let lib := glib_for [msg] in
  let header :=
    cuav_parse_common_header lib [("msg_id", JsonVal (VInt64 0x7204))] 5 in
  cuav_parser_parse lib full_parser (datagram_of msg) (datagram_len msg) 5
  = {| result := true;
       events := [EvServo header sample_servo 104;
                  EvRaw header sample_servo_obj 102];
       printed := [] |}.
Proof.
  intros msg lib header.
  pose proof (servo_then_raw lib full_parser (datagram_of msg)
                (datagram_len msg) 5 (json_node_get_object msg)
                [("msg_id", JsonVal (VInt64 0x7204))] sample_servo_obj
                sample_servo) as H.
  specialize (H ltac:(vm_compute; reflexivity)).
  specialize (H ltac:(vm_compute; reflexivity)).
  specialize (H ltac:(vm_compute; reflexivity)).
  specialize (H ltac:(vm_compute; reflexivity)).
  specialize (H ltac:(vm_compute; reflexivity)).
  specialize (H sample_servo_complete).
  cbv zeta in H. exact H.
Defined.

(** ** Which callbacks a call may invoke *)

Section CallbackDiscipline.

Variable lib : GLib.

Lemma raw_events_shape parser header specific :
  raw_events parser header specific = []
  \/ (raw_callback parser = true
      /\ raw_events parser header specific
         = [EvRaw header specific (raw_user_data parser)]).
Proof. unfold raw_events. destruct (raw_callback parser); auto. Qed.

(** The events of the [switch]: at most one typed invocation, then at most
    one raw invocation, all on the header passed in. *)
Lemma dispatch_events parser header specific :
  exists typed raw,
    events (dispatch lib parser header specific) = typed ++ raw
    /\ (length typed <= 1)%nat /\ (length raw <= 1)%nat
    /\ Forall (fun ev => is_raw ev = false) typed
    /\ Forall (fun ev => is_raw ev = true) raw
    /\ Forall (fun ev => event_permitted parser ev
                         /\ event_header ev = header) (typed ++ raw).
Proof.
  assert (Hraw : Forall (fun ev => is_raw ev = true)
                   (raw_events parser header specific)
                 /\ (length (raw_events parser header specific) <= 1)%nat
                 /\ Forall (fun ev => event_permitted parser ev
                                      /\ event_header ev = header)
                      (raw_events parser header specific)).
  { destruct (raw_events_shape parser header specific) as [-> | [Hr ->]].
    - repeat split; try (cbn; lia); constructor.
    - repeat split; try (cbn; lia); repeat constructor; assumption. }
  destruct Hraw as (Hr1 & Hr2 & Hr3).
  unfold dispatch.
  destruct (Header.msg_id header =? CUAV_MSG_ID_GUIDANCE) eqn:E1;
    [| destruct (Header.msg_id header =? CUAV_MSG_ID_EO_SYSTEM) eqn:E2;
       [| destruct (Header.msg_id header =? CUAV_MSG_ID_EO_SERVO) eqn:E3]];
    cbn [events].
  - apply Z.eqb_eq in E1.
    destruct (guidance_callback parser) eqn:Hcb.
    + eexists _, _. split; [reflexivity |].
      repeat split; try (cbn; lia); try exact Hr1; try exact Hr2.
      * repeat constructor.
      * apply Forall_app. split; [| exact Hr3].
        repeat constructor; assumption.
    + exists [], (raw_events parser header specific).
      repeat split; try (cbn; lia); try exact Hr1; try exact Hr2;
        try exact Hr3; constructor.
  - apply Z.eqb_eq in E2.
    destruct (eo_system_callback parser) eqn:Hcb.
    + eexists _, _. split; [reflexivity |].
      repeat split; try (cbn; lia); try exact Hr1; try exact Hr2.
      * repeat constructor.
      * apply Forall_app. split; [| exact Hr3].
        repeat constructor; assumption.
    + exists [], (raw_events parser header specific).
      repeat split; try (cbn; lia); try exact Hr1; try exact Hr2;
        try exact Hr3; constructor.
  - apply Z.eqb_eq in E3.
    destruct (servo_callback parser) eqn:Hcb.
    + eexists _, _. split; [reflexivity |].
      repeat split; try (cbn; lia); try exact Hr1; try exact Hr2.
      * repeat constructor.
      * apply Forall_app. split; [| exact Hr3].
        repeat constructor; assumption.
    + exists [], (raw_events parser header specific).
      repeat split; try (cbn; lia); try exact Hr1; try exact Hr2;
        try exact Hr3; constructor.
  - exists [], (raw_events parser header specific).
    repeat split; try (cbn; lia); try exact Hr1; try exact Hr2;
      try exact Hr3; constructor.
Qed.

(** Whatever the input, a call of [cuav_parser_parse] invokes at most one
    typed callback followed by at most one raw callback; every callback it
    invokes is registered and receives its own user data; a typed callback
    is only invoked for a header carrying its [msg_id]; and all
    invocations of the call receive one and the same header, stamped with
    the clock reading of the call. *)
Theorem callbacks_are_permitted parser data len ts :
  exists typed raw,
    events (cuav_parser_parse lib parser data len ts) = typed ++ raw
    /\ (length typed <= 1)%nat /\ (length raw <= 1)%nat
    /\ Forall (fun ev => is_raw ev = false) typed
    /\ Forall (fun ev => is_raw ev = true) raw
    /\ Forall (event_permitted parser) (typed ++ raw)
    /\ Forall (fun ev => Header.recv_ts_us (event_header ev) = ts)
         (typed ++ raw)
    /\ (forall ev1 ev2, In ev1 (typed ++ raw) -> In ev2 (typed ++ raw) ->
        event_header ev1 = event_header ev2).
Proof.
  assert (Hnone : exists typed raw : list CallbackEvent,
             @nil CallbackEvent = typed ++ raw
             /\ (length typed <= 1)%nat /\ (length raw <= 1)%nat
             /\ Forall (fun ev => is_raw ev = false) typed
             /\ Forall (fun ev => is_raw ev = true) raw
             /\ Forall (event_permitted parser) (typed ++ raw)
             /\ Forall (fun ev => Header.recv_ts_us (event_header ev) = ts)
                  (typed ++ raw)
             /\ (forall ev1 ev2, In ev1 (typed ++ raw) ->
                 In ev2 (typed ++ raw) ->
                 event_header ev1 = event_header ev2)).
  { exists [], []. repeat split; try (cbn; lia); try constructor.
    all: try (intros ev1 ev2 []). }
  unfold cuav_parser_parse.
  destruct (len <=? 0); [exact Hnone |].
  destruct (json_parser_load_from_data lib data len) as [| | root];
    try exact Hnone.
  destruct (negb (JSON_NODE_HOLDS_OBJECT root)); [exact Hnone |].
  destruct (find_common (json_node_get_object root)) as [common |];
    [| exact Hnone].
  destruct (find_specific (json_node_get_object root)) as [specific |];
    [| exact Hnone].
  destruct (dispatch_events parser
              (cuav_parse_common_header lib common ts) specific)
    as (typed & raw & Hev & Ht & Hr & Hty & Hra & Hall).
  exists typed, raw. rewrite Hev.
  split; [reflexivity |].
  split; [exact Ht |]. split; [exact Hr |].
  split; [exact Hty |]. split; [exact Hra |].
  split; [| split].
  - eapply Forall_impl; [exact Hall |]. intros ev [Hp _]. exact Hp.
  - eapply Forall_impl; [exact Hall |]. intros ev [_ ->]. reflexivity.
  - intros ev1 ev2 H1 H2.
    rewrite Forall_forall in Hall.
    apply list_elem_of_In in H1, H2.
    destruct (Hall ev1 H1) as [_ ->]. destruct (Hall ev2 H2) as [_ ->].
    reflexivity.
Qed.

(** The return value depends on the input alone, not on the parser: which
    callbacks are registered and whether debug printing is on changes
    neither success nor failure.  The callbacks invoked do not depend on
    the debug switch, a parser with debug printing off prints nothing, and
    a parser without registered callbacks invokes none. *)
Theorem parse_result_ignores_parser parser parser' data len ts enable :
  result (cuav_parser_parse lib parser data len ts)
  = result (cuav_parser_parse lib parser' data len ts)
  /\ events (cuav_parser_parse lib (cuav_parser_set_debug parser enable)
               data len ts)
     = events (cuav_parser_parse lib parser data len ts)
  /\ printed (cuav_parser_parse lib (cuav_parser_set_debug parser false)
                data len ts) = []
  /\ events (cuav_parser_parse lib
               (cuav_parser_set_debug cuav_parser_new enable) data len ts)
     = [].
Proof.
  unfold cuav_parser_parse.
  destruct (len <=? 0); [repeat split |].
  destruct (json_parser_load_from_data lib data len) as [| | root];
    [repeat split | repeat split |].
  destruct (negb (JSON_NODE_HOLDS_OBJECT root)); [repeat split |].
  destruct (find_common (json_node_get_object root)) as [common |];
    [| repeat split].
  destruct (find_specific (json_node_get_object root)) as [specific |];
    [| repeat split].
  set (header := cuav_parse_common_header lib common ts).
  split; [now rewrite !dispatch_result |].
  unfold dispatch, raw_events.
  destruct (Header.msg_id header =? CUAV_MSG_ID_GUIDANCE);
    [| destruct (Header.msg_id header =? CUAV_MSG_ID_EO_SYSTEM);
       [| destruct (Header.msg_id header =? CUAV_MSG_ID_EO_SERVO)]];
    repeat split.
Qed.

End CallbackDiscipline.

(** ** Where the payload is taken from *)

Lemma specific_of_item_none (node : JsonNode) :
  ~ holds_payload node -> specific_of_item node = None.
Proof.
  intros Hno. destruct (specific_of_item node) as [sp |] eqn:E;
    [| reflexivity].
  exfalso. apply Hno. apply specific_of_item_some in E as (item & -> & Hm).
  exists item, sp. auto.
Qed.

Lemma specific_from_cont_first (pre post : JsonArray) (item sp : JsonObject) :
  Forall (fun n => ~ holds_payload n) pre ->
  json_object_get_member item KEY_SPECIFIC = Some (JsonObj sp) ->
  cuav_get_specific_from_cont (pre ++ JsonObj item :: post) = Some sp.
Proof.
  intros Hpre Hm.
  induction Hpre as [| n pre Hn _ IH];
    cbn [app cuav_get_specific_from_cont].
  - assert (Hs : specific_of_item (JsonObj item) = Some sp)
      by (apply specific_of_item_some; eauto).
    now rewrite Hs.
  - now rewrite (specific_of_item_none n Hn).
Qed.

(** The payload the decoder uses.  A direct payload member that is an
    object is used whatever the content array holds; a direct payload
    member that is not an object makes the search fail without the array
    being looked at; without a direct payload member, the payload is that
    of the first array element that is an object holding the payload
    member as an object, elements before it being skipped. *)
Theorem payload_location (root_obj : JsonObject) :
  (forall sp,
      json_object_get_member root_obj KEY_SPECIFIC = Some (JsonObj sp) ->
      find_specific root_obj = Some sp)
  /\ (forall n,
         json_object_get_member root_obj KEY_SPECIFIC = Some n ->
         JSON_NODE_HOLDS_OBJECT n = false ->
         find_specific root_obj = None)
  /\ (forall pre item post sp,
         json_object_get_member root_obj KEY_SPECIFIC = None ->
         json_object_get_member root_obj KEY_CONT
         = Some (JsonArr (pre ++ JsonObj item :: post)) ->
         Forall (fun n => ~ holds_payload n) pre ->
         json_object_get_member item KEY_SPECIFIC = Some (JsonObj sp) ->
         find_specific root_obj = Some sp).
Proof.
  unfold find_specific, json_object_has_member. split; [| split].
  - intros sp ->. reflexivity.
  - intros n -> Hn. now rewrite Hn.
  - intros pre item post sp -> -> Hpre Hm.
    cbn [JSON_NODE_HOLDS_ARRAY json_node_get_array].
    now apply specific_from_cont_first.
Qed.

(** The content array of the sample message starts with a null element;
    the payload of the element after it is found. *)
Lemma payload_location_witness :
  find_specific (json_node_get_object other_message)
  = Some [("bit", JsonVal (VInt64 1))]
  /\ find_specific (json_node_get_object shadowed_message) = None.
Proof.
  split.
  - apply (proj2 (proj2 (payload_location
                           (json_node_get_object other_message)))
             [JsonNull] [(KEY_SPECIFIC, JsonObj [("bit", JsonVal (VInt64 1))])]
             [] [("bit", JsonVal (VInt64 1))]).
    + vm_compute. reflexivity.
    + vm_compute. reflexivity.
    + constructor; [| constructor].
      intros (item & sp & Hnull & _). discriminate Hnull.
    + vm_compute. reflexivity.
  - apply (proj1 (proj2 (payload_location
                           (json_node_get_object shadowed_message)))
             (JsonVal (VString "see cont"))).
    + vm_compute. reflexivity.
    + reflexivity.
Defined.

(** * The name tables *)

Section NameTables.

Lemma all_from_spec (P : Z -> bool) (count : nat) : forall n k,
  all_from P count n = true ->
  n <= k < n + Z.of_nat count ->
  P k = true.
Proof.
  induction count as [| c IH]; intros n k Hall Hk; [lia |].
  cbn [all_from] in Hall. apply andb_true_iff in Hall as [Hn Hrest].
  destruct (Z.eq_dec k n) as [-> | Hne]; [exact Hn |].
  apply (IH (n + 1)); [exact Hrest | lia].
Qed.

Lemma snprintf_fits (size : nat) (text : string) :
  (String.length text <= size - 1)%nat -> snprintf size text = text.
Proof.
  unfold snprintf. generalize (size - 1)%nat as n.
  induction text as [| c text IH]; intros n Hn.
  - destruct n; reflexivity.
  - destruct n as [| n]; cbn in Hn; [lia |].
    cbn. f_equal. apply IH. lia.
Qed.

Lemma table_lookup_in table code name :
  table_lookup table code = Some name -> In (code, name) table.
Proof.
  induction table as [| [c n] table IH]; cbn; [discriminate |].
  destruct (Z.eqb_spec c code) as [-> | Hne].
  - intros [= ->]. now left.
  - intros H. right. now apply IH.
Qed.

Lemma table_lookup_unique table code name :
  NoDup (map fst table) ->
  In (code, name) table ->
  table_lookup table code = Some name.
Proof.
  induction table as [| [c n] table IH]; cbn; [contradiction |].
  intros Hnd%NoDup_cons [[= -> ->] | Hin].
  - now rewrite Z.eqb_refl.
  - destruct Hnd as [Hc Hnd].
    destruct (Z.eqb_spec c code) as [-> | Hne]; [| now apply IH].
    exfalso. apply Hc. apply list_elem_of_In, in_map_iff.
    exists (code, name). auto.
Qed.

Lemma table_lookup_none table code :
  (forall name, ~ In (code, name) table) -> table_lookup table code = None.
Proof.
  intros Hno. destruct (table_lookup table code) as [name |] eqn:E;
    [| reflexivity].
  exfalso. exact (Hno name (table_lookup_in _ _ _ E)).
Qed.

Lemma table_label_unique (table : list (Z * string)) a b name :
  NoDup (map snd table) ->
  In (a, name) table -> In (b, name) table -> a = b.
Proof.
  induction table as [| [c n] table IH]; cbn; [contradiction |].
  intros [Hn Hnd]%NoDup_cons [Ha | Ha] [Hb | Hb].
  - congruence.
  - injection Ha as -> ->. exfalso. apply Hn.
    apply list_elem_of_In, in_map_iff. exists (b, name). auto.
  - injection Hb as -> ->. exfalso. apply Hn.
    apply list_elem_of_In, in_map_iff. exists (a, name). auto.
  - now apply IH.
Qed.

Lemma hex_digit_code (d : Z) :
  0 <= d < 16 ->
  Z.of_nat (nat_of_ascii (hex_digit d)) = if d <? 10 then 48 + d else 55 + d.
Proof.
  intros Hd. unfold hex_digit.
  destruct (d <? 10); rewrite nat_ascii_embedding; lia.
Qed.

Lemma hex_digit_inj (a b : Z) :
  0 <= a < 16 -> 0 <= b < 16 -> hex_digit a = hex_digit b -> a = b.
Proof.
  intros Ha Hb Heq.
  pose proof (hex_digit_code a Ha) as Hca.
  pose proof (hex_digit_code b Hb) as Hcb.
  rewrite Heq in Hca. rewrite Hca in Hcb.
  destruct (Z.ltb_spec a 10), (Z.ltb_spec b 10); lia.
Qed.

Lemma fmt_04X_inj (a b : Z) :
  0 <= a < 2 ^ 16 -> 0 <= b < 2 ^ 16 -> fmt_04X a = fmt_04X b -> a = b.
Proof.
  change (2 ^ 16) with 65536. intros Ha Hb Heq. unfold fmt_04X in Heq.
  injection Heq as H3 H2 H1 H0.
  apply hex_digit_inj in H3, H2, H1, H0;
    try (apply Z.mod_pos_bound; reflexivity).
  pose proof (Z.div_mod a 16 ltac:(discriminate)).
  pose proof (Z.div_mod b 16 ltac:(discriminate)).
  pose proof (Z.div_mod (a / 16) 16 ltac:(discriminate)).
  pose proof (Z.div_mod (b / 16) 16 ltac:(discriminate)).
  pose proof (Z.div_mod (a / 256) 16 ltac:(discriminate)).
  pose proof (Z.div_mod (b / 256) 16 ltac:(discriminate)).
  pose proof (Z.div_mod (a / 4096) 16 ltac:(discriminate)).
  pose proof (Z.div_mod (b / 4096) 16 ltac:(discriminate)).
  rewrite !Z.div_div in * by lia.
  change (16 * 16) with 256 in *. change (256 * 16) with 4096 in *.
  change (4096 * 16) with 65536 in *.
  rewrite (Z.div_small a 65536), (Z.div_small b 65536) in * by lia.
  lia.
Qed.

Lemma append_paren_inj (s t : string) : s +:+ ")" = t +:+ ")" -> s = t.
Proof.
  revert t. induction s as [| c s IH]; intros [| d t] H.
  - reflexivity.
  - change (String ")" "" = String d (t +:+ ")")) in H.
    injection H as _ H. destruct t; discriminate H.
  - change (String c (s +:+ ")") = String ")" "") in H.
    injection H as _ H. destruct s; discriminate H.
  - change (String c (s +:+ ")") = String d (t +:+ ")")) in H.
    injection H as -> H. f_equal. now apply IH.
Qed.

Lemma string_length_append (s t : string) :
  String.length (s +:+ t) = (String.length s + String.length t)%nat.
Proof.
  induction s as [| c s IH]; [reflexivity |].
  change (S (String.length (s +:+ t))
          = S (String.length s + String.length t)).
  now rewrite IH.
Qed.

Lemma fmt_u_length (n : Z) :
  0 <= n < 2 ^ 16 -> (String.length (fmt_u n) <= 5)%nat.
Proof.
  intros Hn.
  assert (Hall : all_from (fun k => Nat.leb (String.length (fmt_u k)) 5)
                   (Z.to_nat (2 ^ 16)) 0 = true)
    by (vm_compute; reflexivity).
  apply Nat.leb_le.
  apply (all_from_spec _ _ 0 n Hall).
  rewrite Z2Nat.id by (vm_compute; discriminate). exact Hn.
Qed.

Lemma unknown_msg_id_fits (msg_id : Z) :
  snprintf 32 (unknown_msg_id_text msg_id) = unknown_msg_id_text msg_id.
Proof.
  apply snprintf_fits. unfold unknown_msg_id_text, fmt_04X.
  rewrite !string_length_append. cbn. lia.
Qed.

Lemma unknown_target_fits (target_type : Z) :
  0 <= target_type < 2 ^ 16 ->
  snprintf 32 (unknown_target_text target_type)
  = unknown_target_text target_type.
Proof.
  intros Hn. apply snprintf_fits. unfold unknown_target_text.
  pose proof (fmt_u_length target_type Hn) as Hlen.
  rewrite !string_length_append. cbn. lia.
Qed.

Lemma msg_id_keys_nodup : NoDup (map fst cuav_msg_id_names).
Proof. apply (bool_decide_unpack _). vm_compute. exact I. Qed.

Lemma msg_id_labels_nodup : NoDup (map snd cuav_msg_id_names).
Proof. apply (bool_decide_unpack _). vm_compute. exact I. Qed.

Lemma target_keys_nodup : NoDup (map fst cuav_target_type_names).
Proof. apply (bool_decide_unpack _). vm_compute. exact I. Qed.

Lemma target_labels_nodup : NoDup (map snd cuav_target_type_names).
Proof. apply (bool_decide_unpack _). vm_compute. exact I. Qed.

(** No label of either table begins like a fallback text. *)
Lemma labels_are_not_fallbacks code name rest :
  In (code, name) (cuav_msg_id_names ++ cuav_target_type_names) ->
  name <> "未知(" +:+ rest.
Proof.
  intros Hin Heq. subst name.
  assert (Hall : Forall (fun row : Z * string =>
                           String.prefix "未知(" (snd row) = false)
                   (cuav_msg_id_names ++ cuav_target_type_names)).
  { repeat constructor. }
  rewrite Forall_forall in Hall.
  apply list_elem_of_In, Hall in Hin.
  cbv [snd String.append String.prefix] in Hin.
  repeat match type of Hin with
         | context [ascii_dec ?a ?b] =>
             destruct (ascii_dec a b); [| congruence]
         end.
  destruct rest; discriminate Hin.
Qed.

End NameTables.

Lemma append_inj_head (p a b : string) : p +:+ a = p +:+ b -> a = b.
Proof.
  induction p as [| c p IH]; intros H; [exact H |].
  change (String c (p +:+ a) = String c (p +:+ b)) in H.
  injection H as H. now apply IH.
Qed.

(** [cuav_get_msg_id_name] on the 16-bit message identities: an identity
    of the table gets the label of its row; any other identity gets the
    text "unknown(0x....)" with its four upper-case hexadecimal digits, in
    full, the 32-byte buffer never cutting it; and two different
    identities never get the same name. *)
Theorem msg_id_names_are_distinct (msg_id : Z) :
  0 <= msg_id < 2 ^ 16 ->
  (forall name,
      In (msg_id, name) cuav_msg_id_names ->
      cuav_get_msg_id_name msg_id = name)
  /\ ((forall name, ~ In (msg_id, name) cuav_msg_id_names) ->
      cuav_get_msg_id_name msg_id = unknown_msg_id_text msg_id)
  /\ (forall other,
         0 <= other < 2 ^ 16 ->
         cuav_get_msg_id_name msg_id = cuav_get_msg_id_name other ->
         msg_id = other).
Proof.
  intros Hid. unfold cuav_get_msg_id_name.
  fold (unknown_msg_id_text msg_id). split; [| split].
  - intros name Hin.
    now rewrite (table_lookup_unique _ _ _ msg_id_keys_nodup Hin).
  - intros Hno. rewrite (table_lookup_none _ _ Hno).
    apply unknown_msg_id_fits.
  - intros other Hother. fold (unknown_msg_id_text other).
    rewrite !unknown_msg_id_fits.
    destruct (table_lookup cuav_msg_id_names msg_id) as [l |] eqn:E1;
      destruct (table_lookup cuav_msg_id_names other) as [l' |] eqn:E2;
      intros Heq.
    + subst l'. apply table_lookup_in in E1, E2.
      exact (table_label_unique _ _ _ _ msg_id_labels_nodup E1 E2).
    + exfalso. apply table_lookup_in in E1.
      apply (labels_are_not_fallbacks msg_id l
               ("0x" +:+ fmt_04X other +:+ ")")).
      * apply in_or_app. now left.
      * exact Heq.
    + exfalso. apply table_lookup_in in E2.
      apply (labels_are_not_fallbacks other l'
               ("0x" +:+ fmt_04X msg_id +:+ ")")).
      * apply in_or_app. now left.
      * symmetry. exact Heq.
    + unfold unknown_msg_id_text in Heq.
      apply append_inj_head, append_paren_inj in Heq.
      now apply fmt_04X_inj.
Qed.

(** [cuav_get_target_type_name] on the 16-bit target codes: a code of the
    table gets the label of its row; any other code gets the text
    "unknown(n)" with its decimal digits, in full; and two different codes
    never get the same name, the code 15, labelled "unknown", included. *)
Theorem target_type_names_are_distinct (target_type : Z) :
  0 <= target_type < 2 ^ 16 ->
  (forall name,
      In (target_type, name) cuav_target_type_names ->
      cuav_get_target_type_name target_type = name)
  /\ ((forall name, ~ In (target_type, name) cuav_target_type_names) ->
      cuav_get_target_type_name target_type
      = unknown_target_text target_type)
  /\ (forall other,
         0 <= other < 2 ^ 16 ->
         cuav_get_target_type_name target_type
         = cuav_get_target_type_name other ->
         target_type = other).
Proof.
  intros Hid. unfold cuav_get_target_type_name.
  fold (unknown_target_text target_type). split; [| split].
  - intros name Hin.
    now rewrite (table_lookup_unique _ _ _ target_keys_nodup Hin).
  - intros Hno. rewrite (table_lookup_none _ _ Hno).
    now apply unknown_target_fits.
  - intros other Hother. fold (unknown_target_text other).
    rewrite !unknown_target_fits by assumption.
    destruct (table_lookup cuav_target_type_names target_type)
      as [l |] eqn:E1;
      destruct (table_lookup cuav_target_type_names other)
        as [l' |] eqn:E2;
      intros Heq.
    + subst l'. apply table_lookup_in in E1, E2.
      exact (table_label_unique _ _ _ _ target_labels_nodup E1 E2).
    + exfalso. apply table_lookup_in in E1.
      apply (labels_are_not_fallbacks target_type l
               (fmt_u other +:+ ")")).
      * apply in_or_app. now right.
      * exact Heq.
    + exfalso. apply table_lookup_in in E2.
      apply (labels_are_not_fallbacks other l'
               (fmt_u target_type +:+ ")")).
      * apply in_or_app. now right.
      * symmetry. exact Heq.
    + unfold unknown_target_text in Heq.
      apply append_inj_head, append_paren_inj in Heq.
      unfold fmt_u in Heq. exact (inj pretty _ _ Heq).
Qed.

(** [cuav_get_msg_type_name] on the 8-bit type codes: the codes 0 to 3
    have four different labels, and every other code, the initialisation
    code 100 included, has the one label "unknown"; so two codes share a
    name exactly when they are equal or both above 3. *)
Theorem msg_type_names_collapse (a b : Z) :
  0 <= a -> 0 <= b ->
  (cuav_get_msg_type_name a = cuav_get_msg_type_name b
   <-> a = b \/ (3 < a /\ 3 < b))
  /\ (3 < a -> cuav_get_msg_type_name a = cuav_get_msg_type_name 100).
Proof.
  intros Ha Hb.
  assert (Hhigh : forall t, 3 < t ->
            cuav_get_msg_type_name t = nth 4 cuav_msg_type_names "").
  { intros t Ht. unfold cuav_get_msg_type_name.
    replace (t <=? 3) with false by (symmetry; apply Z.leb_gt; lia).
    destruct (t =? 100); reflexivity. }
  assert (Hlow : forall t, 0 <= t <= 3 ->
            t = 0 \/ t = 1 \/ t = 2 \/ t = 3) by (intros; lia).
  split.
  - destruct (Z.leb_spec a 3) as [Ha3 | Ha3], (Z.leb_spec b 3) as [Hb3 | Hb3].
    + destruct (Hlow a ltac:(lia)) as [-> | [-> | [-> | ->]]],
        (Hlow b ltac:(lia)) as [-> | [-> | [-> | ->]]];
        (split; [intros H; try (now left); vm_compute in H; discriminate H
                | intros [H | H]; [try reflexivity; discriminate H | lia]]).
    + rewrite (Hhigh b Hb3).
      destruct (Hlow a ltac:(lia)) as [-> | [-> | [-> | ->]]];
        (split; [intros H; vm_compute in H; discriminate H
                | intros [H | H]; lia]).
    + rewrite (Hhigh a Ha3).
      destruct (Hlow b ltac:(lia)) as [-> | [-> | [-> | ->]]];
        (split; [intros H; vm_compute in H; discriminate H
                | intros [H | H]; lia]).
    + rewrite (Hhigh a Ha3), (Hhigh b Hb3). split; [intros _ | reflexivity].
      right. lia.
  - intros Ha3. rewrite (Hhigh a Ha3). reflexivity.
Qed.

(** The identity 0x7201 of the table, the unlisted 0x7ABC, and the two
    names for "unknown" among the target types. *)
Lemma msg_id_names_are_distinct_witness :
  cuav_get_msg_id_name 0x7201 = "光电系统参数"
  /\ cuav_get_msg_id_name 0x7ABC = "未知(0x7ABC)".
Proof.
  split.
  - apply (proj1 (msg_id_names_are_distinct 0x7201
                    ltac:(split; [vm_compute; discriminate
                                 | vm_compute; reflexivity]))).
    vm_compute. tauto.
  - refine (eq_trans
              (proj1 (proj2 (msg_id_names_are_distinct 0x7ABC
                               ltac:(split; [vm_compute; discriminate
                                            | vm_compute; reflexivity])))
                 _) _).
    + intros name Hin. vm_compute in Hin.
      repeat (destruct Hin as [Hin | Hin]; [discriminate Hin |]).
      exact Hin.
    + vm_compute. reflexivity.
Defined.

Lemma target_type_names_are_distinct_witness :
  cuav_get_target_type_name 15 = "未知"
  /\ cuav_get_target_type_name 12 = "未知(12)".
Proof.
  split.
  - apply (proj1 (target_type_names_are_distinct 15
                    ltac:(split; [vm_compute; discriminate
                                 | vm_compute; reflexivity]))).
    vm_compute. tauto.
  - refine (eq_trans
              (proj1 (proj2 (target_type_names_are_distinct 12
                               ltac:(split; [vm_compute; discriminate
                                            | vm_compute; reflexivity])))
                 _) _).
    + intros name Hin. vm_compute in Hin.
      repeat (destruct Hin as [Hin | Hin]; [discriminate Hin |]).
      exact Hin.
    + vm_compute. reflexivity.
Defined.

Lemma msg_type_names_collapse_witness :
  cuav_get_msg_type_name 100 = cuav_get_msg_type_name 42
  /\ cuav_get_msg_type_name 1 <> cuav_get_msg_type_name 3.
Proof.
  destruct (msg_type_names_collapse 100 42 ltac:(lia) ltac:(lia))
    as [[_ Hsame] _].
  destruct (msg_type_names_collapse 1 3 ltac:(lia) ltac:(lia))
    as [[Hdiff _] _].
  split.
  - apply Hsame. right. lia.
  - intros H. destruct (Hdiff H) as [H13 | [H31 _]]; lia.
Defined.

(** * Further properties of the ingestion core *)

Section ListenerRun.

Variable lib : GLib.

(** The extractor reads only the first [len] bytes of its buffer. *)
Lemma parse_and_cache_prefix self d1 d2 len ts :
  take (Z.to_nat len) d1 = take (Z.to_nat len) d2 ->
  udpjson_parse_and_cache lib self d1 len ts
  = udpjson_parse_and_cache lib self d2 len ts.
Proof.
  intros H. unfold udpjson_parse_and_cache, json_parser_load_from_data.
  now rewrite H.
Qed.

(** The extractor either leaves the element as it was or makes one cache
    update, under a 32-bit source id. *)
Lemma parse_and_cache_cases self data len ts :
  udpjson_parse_and_cache lib self data len ts = self
  \/ exists sid oid v,
       0 <= sid < 2 ^ 32
       /\ udpjson_parse_and_cache lib self data len ts
          = udpjson_cache_update self sid oid (Some v) ts.
Proof.
  unfold udpjson_parse_and_cache.
  destruct (len <=? 0); [now left |].
  destruct (json_parser_load_from_data lib data len) as [| | root];
    [now left | now left |].
  destruct (negb (JSON_NODE_HOLDS_OBJECT root)); [now left |].
  cbv zeta.
  destruct (configured_member (object_id_key self) _) as [n_o |];
    [| now left].
  destruct (configured_member (json_key self) _) as [n_v |]; [| now left].
  destruct (udpjson_parse_uint64 lib (Some n_o)) as [oid |]; [| now left].
  destruct (udpjson_node_to_string lib (Some n_v)) as [v |]; [| now left].
  right. eexists _, oid, v. split; [| reflexivity].
  unfold Int.to_guint32. apply Z.mod_pos_bound. reflexivity.
Qed.

(** One round, seen from the extractor: the state of the element after
    it, the call log and the receive buffer. *)
Lemma recv_round_delivers st r :
  length (buf st) = Z.to_nat BUF_SIZE ->
  length (buf (udpjson_recv_round lib st r)) = Z.to_nat BUF_SIZE
  /\ match delivers r with
     | None =>
         self_ (udpjson_recv_round lib st r) = self_ st
         /\ calls (udpjson_recv_round lib st r) = calls st
     | Some d =>
         self_ (udpjson_recv_round lib st r) = feed lib (self_ st) d
         /\ length (calls (udpjson_recv_round lib st r))
            = S (length (calls st))
     end.
Proof.
  intros Hbuf. unfold udpjson_recv_round, delivers.
  destruct (poll_ret r <=? 0); [now split |].
  destruct (Z.land (revents r) POLLIN =? 0); [now split |].
  destruct (incoming r) as [| payload]; cbn [recvfrom].
  { replace (-1 <=? 0) with true by reflexivity. now split. }
  destruct (take (Z.to_nat (BUF_SIZE - 1)) payload) as [| b got'] eqn:Egot.
  { cbn. rewrite drop_0. now split. }
  assert (Hgot : (length (b :: got') <= Z.to_nat (BUF_SIZE - 1))%nat).
  { rewrite <- Egot, length_take. lia. }
  set (got := b :: got') in *.
  assert (Hpos : (0 < length got)%nat) by (subst got; cbn; lia).
  unfold BUF_SIZE in Hbuf, Hgot.
  replace (Z.of_nat (length got) <=? 0) with false
    by (symmetry; apply Z.leb_gt; lia).
  cbn [self_ buf calls]. rewrite Nat2Z.id. split; [| split].
  - rewrite length_insert, length_app, length_drop, Hbuf.
    unfold BUF_SIZE. lia.
  - unfold feed. cbn [fst snd].
    apply parse_and_cache_prefix. rewrite !Nat2Z.id.
    rewrite take_insert. destruct (decide _) as [Hlt | _]; [lia |].
    rewrite take_app_length. now rewrite firstn_all.
  - rewrite length_app. cbn. lia.
Qed.

(** What a round does to the element alone. *)
Lemma recv_round_self st r :
  self_ (udpjson_recv_round lib st r) = self_ st
  \/ exists data len,
       self_ (udpjson_recv_round lib st r)
       = udpjson_parse_and_cache lib (self_ st) data len (clock_us r).
Proof.
  unfold udpjson_recv_round.
  destruct (poll_ret r <=? 0); [now left |].
  destruct (Z.land (revents r) POLLIN =? 0); [now left |].
  destruct (recvfrom (incoming r) (buf st) (BUF_SIZE - 1)) as [len buf1].
  destruct (len <=? 0); [now left |].
  right. now eexists _, _.
Qed.

Lemma recv_thread_stop rounds r post : forall st,
  stop_flag r = true ->
  udpjson_recv_thread lib st (rounds ++ r :: post)
  = udpjson_recv_thread lib st rounds.
Proof.
  induction rounds as [| r0 rounds IH]; intros st Hstop; cbn.
  - now rewrite Hstop.
  - destruct (stop_flag r0); [reflexivity | now apply IH].
Qed.

(** [udpjson_recv_thread] over any sequence of rounds.  The element it
    leaves behind is the extractor folded, in order, over the non-empty
    reads (each at most 8191 bytes) of the rounds before the first one
    that sees the stop flag; the extractor is called once per such read
    and never otherwise; the receive buffer keeps its 8192 bytes, so the
    terminating NUL is always written inside it; and whatever follows a
    round that sees the stop flag has no effect. *)
Theorem listener_run_is_a_fold st rounds :
  length (buf st) = Z.to_nat BUF_SIZE ->
  self_ (udpjson_recv_thread lib st rounds)
  = fold_left (feed lib) (delivered rounds) (self_ st)
  /\ length (calls (udpjson_recv_thread lib st rounds))
     = (length (calls st) + length (delivered rounds))%nat
  /\ length (buf (udpjson_recv_thread lib st rounds)) = Z.to_nat BUF_SIZE
  /\ Forall (fun d => (0 < length (fst d) <= Z.to_nat (BUF_SIZE - 1))%nat)
       (delivered rounds)
  /\ (forall r post,
         stop_flag r = true ->
         udpjson_recv_thread lib st (rounds ++ r :: post)
         = udpjson_recv_thread lib st rounds).
Proof.
  intros Hbuf.
  split; [| split; [| split; [| split]]].
  - revert st Hbuf.
    induction rounds as [| r rounds IH]; intros st Hbuf; [reflexivity |].
    cbn [udpjson_recv_thread delivered].
    destruct (stop_flag r); [reflexivity |].
    destruct (recv_round_delivers st r Hbuf) as [Hbuf' Hd].
    rewrite (IH _ Hbuf').
    destruct (delivers r) as [d |].
    + cbn [fold_left]. now rewrite (proj1 Hd).
    + now rewrite (proj1 Hd).
  - revert st Hbuf.
    induction rounds as [| r rounds IH]; intros st Hbuf; [cbn; lia |].
    cbn [udpjson_recv_thread delivered].
    destruct (stop_flag r); [cbn; lia |].
    destruct (recv_round_delivers st r Hbuf) as [Hbuf' Hd].
    rewrite (IH _ Hbuf').
    destruct (delivers r) as [d |].
    + rewrite (proj2 Hd). cbn [length]. lia.
    + now rewrite (proj2 Hd).
  - revert st Hbuf.
    induction rounds as [| r rounds IH]; intros st Hbuf; [exact Hbuf |].
    cbn [udpjson_recv_thread].
    destruct (stop_flag r); [exact Hbuf |].
    apply IH. apply (recv_round_delivers st r Hbuf).
  - clear st Hbuf.
    induction rounds as [| r rounds IH]; [constructor |].
    cbn [delivered]. destruct (stop_flag r); [constructor |].
    destruct (delivers r) as [d |] eqn:Ed; [| exact IH].
    constructor; [| exact IH].
    unfold delivers in Ed.
    destruct (poll_ret r <=? 0); [discriminate |].
    destruct (Z.land (revents r) POLLIN =? 0); [discriminate |].
    destruct (incoming r) as [| payload]; [discriminate |].
    destruct (take (Z.to_nat (BUF_SIZE - 1)) payload) as [| b got'] eqn:Eg;
      [discriminate |].
    injection Ed as <-. cbn [fst].
    rewrite <- Eg, length_take. split; [| lia].
    rewrite <- length_take, Eg. cbn. lia.
  - intros r post Hstop. now apply recv_thread_stop.
Qed.

(** The capacity bound holds along the whole run of the listener: with a
    positive [max_cache_size] and a cache within it at the start, the
    cache is within it after any sequence of rounds, whatever the
    datagrams; the listener changes neither the capacity nor the TTL nor
    the three member names. *)
Theorem listener_keeps_cache_bounded st rounds :
  0 < max_cache_size (self_ st) ->
  g_hash_table_size (cache (self_ st)) <= max_cache_size (self_ st) ->
  g_hash_table_size (cache (self_ (udpjson_recv_thread lib st rounds)))
  <= max_cache_size (self_ st)
  /\ max_cache_size (self_ (udpjson_recv_thread lib st rounds))
     = max_cache_size (self_ st)
  /\ cache_ttl_ms (self_ (udpjson_recv_thread lib st rounds))
     = cache_ttl_ms (self_ st)
  /\ json_key (self_ (udpjson_recv_thread lib st rounds))
     = json_key (self_ st)
  /\ object_id_key (self_ (udpjson_recv_thread lib st rounds))
     = object_id_key (self_ st)
  /\ source_id_key (self_ (udpjson_recv_thread lib st rounds))
     = source_id_key (self_ st).
Proof.
  revert st.
  induction rounds as [| r rounds IH]; intros st Hcap Hsize.
  { cbn. repeat split; try reflexivity. exact Hsize. }
  cbn [udpjson_recv_thread].
  destruct (stop_flag r).
  { repeat split; try reflexivity. exact Hsize. }
  assert (Hstep :
    g_hash_table_size (cache (self_ (udpjson_recv_round lib st r)))
    <= max_cache_size (self_ st)
    /\ max_cache_size (self_ (udpjson_recv_round lib st r))
       = max_cache_size (self_ st)
    /\ cache_ttl_ms (self_ (udpjson_recv_round lib st r))
       = cache_ttl_ms (self_ st)
    /\ json_key (self_ (udpjson_recv_round lib st r)) = json_key (self_ st)
    /\ object_id_key (self_ (udpjson_recv_round lib st r))
       = object_id_key (self_ st)
    /\ source_id_key (self_ (udpjson_recv_round lib st r))
       = source_id_key (self_ st)).
  { destruct (recv_round_self st r) as [-> | (data & len & ->)].
    { repeat split; try reflexivity. exact Hsize. }
    destruct (parse_and_cache_cases (self_ st) data len (clock_us r))
      as [-> | (sid & oid & v & _ & ->)].
    { repeat split; try reflexivity. exact Hsize. }
    split; [now apply cache_update_size |].
    repeat split; reflexivity. }
  destruct Hstep as (Hs & Hm & Ht & Hj & Ho & Hsr).
  rewrite <- Hm, <- Ht, <- Hj, <- Ho, <- Hsr.
  apply IH; rewrite Hm; assumption.
Qed.

End ListenerRun.

(** The extractor on any input: it never changes the configuration; it
    either leaves the element untouched or makes exactly one cache update,
    keyed by a source id below [2^32], whose entry carries the clock
    reading of the call; and a non-positive length, an unset object-id
    member name or an unset value member name makes it do nothing. *)
Theorem extractor_skips_or_updates_once lib self data len ts :
  (json_key (udpjson_parse_and_cache lib self data len ts) = json_key self
   /\ object_id_key (udpjson_parse_and_cache lib self data len ts)
      = object_id_key self
   /\ source_id_key (udpjson_parse_and_cache lib self data len ts)
      = source_id_key self
   /\ cache_ttl_ms (udpjson_parse_and_cache lib self data len ts)
      = cache_ttl_ms self
   /\ max_cache_size (udpjson_parse_and_cache lib self data len ts)
      = max_cache_size self)
  /\ (udpjson_parse_and_cache lib self data len ts = self
      \/ exists sid oid v,
           0 <= sid < 2 ^ 32
           /\ udpjson_parse_and_cache lib self data len ts
              = udpjson_cache_update self sid oid (Some v) ts
           /\ cache (udpjson_parse_and_cache lib self data len ts)
                !! (sid, oid)
              = Some {| value := v; recv_ts_us := ts |})
  /\ (len <= 0 \/ object_id_key self = None \/ json_key self = None ->
      udpjson_parse_and_cache lib self data len ts = self).
Proof.
  split; [| split].
  - destruct (parse_and_cache_cases lib self data len ts)
      as [-> | (sid & oid & v & _ & ->)]; repeat split; reflexivity.
  - destruct (parse_and_cache_cases lib self data len ts)
      as [H | (sid & oid & v & Hsid & H)]; [now left |].
    right. exists sid, oid, v. split; [exact Hsid |]. split; [exact H |].
    rewrite H. apply cache_update_lookup_same.
  - intros Hoff. unfold udpjson_parse_and_cache.
    destruct (len <=? 0) eqn:Hlen; [reflexivity |].
    apply Z.leb_gt in Hlen.
    destruct (json_parser_load_from_data lib data len) as [| | root];
      [reflexivity | reflexivity |].
    destruct (negb (JSON_NODE_HOLDS_OBJECT root)); [reflexivity |].
    cbv zeta.
    destruct Hoff as [Hneg | [Hk | Hk]]; [lia | |]; rewrite Hk;
      cbn [configured_member]; [reflexivity |].
    now destruct (configured_member (object_id_key self) _).
Qed.

(** Called with length 0, the extractor leaves the element as it was,
    whatever the buffer holds. *)
Lemma extractor_skips_or_updates_once_witness :
  udpjson_parse_and_cache (glib_for [JsonObj sample_obj])
    gst_udpjson_meta_init (datagram_of (JsonObj sample_obj)) 0 50
  = gst_udpjson_meta_init.
Proof.
  apply (proj2 (proj2
           (extractor_skips_or_updates_once (glib_for [JsonObj sample_obj])
              gst_udpjson_meta_init (datagram_of (JsonObj sample_obj)) 0
              50))).
  left. lia.
Defined.

(** Three rounds: a time-out of [poll], the sample envelope, and a round
    after the stop flag was set. *)
Lemma listener_run_is_a_fold_witness :
  let lib := glib_for [JsonObj sample_obj] in
  let payload := datagram_of (JsonObj sample_obj) in
  let idle_round :=
    {| stop_flag := false; poll_ret := 0; revents := 0;
       incoming := RecvError; clock_us := 40 |} in
  let stop_round :=
    {| stop_flag := true; poll_ret := 1; revents := POLLIN;
       incoming := RecvDatagram payload; clock_us := 60 |} in
  self_ (udpjson_recv_thread lib (listener_start gst_udpjson_meta_init)
           [idle_round; readable_round payload 50; stop_round])
  = udpjson_cache_update gst_udpjson_meta_init 0 7 (Some "hot") 50.
Proof.
  intros lib payload idle_round stop_round.
  pose proof (listener_run_is_a_fold lib
                (listener_start gst_udpjson_meta_init)
                [idle_round; readable_round payload 50; stop_round]
                ltac:(vm_compute; reflexivity)) as H.
  destruct H as (Hfold & _).
  rewrite Hfold. vm_compute. reflexivity.
Defined.

(** A capacity of two under three envelopes from three sources. *)
Lemma listener_keeps_cache_bounded_witness :
  let roots := [JsonObj (sample_obj_from 1 "a");
                JsonObj (sample_obj_from 2 "b");
                JsonObj (sample_obj_from 3 "c")] in
  let lib := glib_for roots in
  let st := listener_start (set_max_cache_size gst_udpjson_meta_init 2) in
  let rounds := map (fun r => readable_round (datagram_of r) 50) roots in
  g_hash_table_size (cache (self_ (udpjson_recv_thread lib st rounds))) <= 2.
Proof.
  intros roots lib st rounds.
  pose proof (listener_keeps_cache_bounded lib st rounds
                ltac:(vm_compute; reflexivity)
                ltac:(vm_compute; discriminate)) as H.
  exact (proj1 H).
Defined.

(** ** The frame loop *)

Section FrameLoop.

Variables (self : GstUdpJsonMeta) (now_us : Z).

Lemma map_lookup {A B} (f : A -> B) (l : list A) : forall i,
  map f l !! i = f <$> l !! i.
Proof.
  induction l as [| a l IH]; intros [| i]; cbn; try reflexivity. apply IH.
Qed.

(** When the object loop attaches metadata to an object. *)
Lemma transform_object_some sid oid m :
  transform_object self sid now_us oid = Some m
  <-> oid <> UNTRACKED_OBJECT_ID
      /\ exists e,
           cache self !! (sid, oid) = Some e
           /\ ~ expired self now_us e
           /\ m = meta_of_entry self e.
Proof.
  unfold transform_object, udpjson_cache_lookup, expired, meta_of_entry.
  destruct (Z.eqb_spec oid UNTRACKED_OBJECT_ID) as [Hu | Hu].
  { split; [discriminate | now intros [Hne _]]. }
  destruct (cache self !! (sid, oid)) as [e |].
  2: { split; [discriminate | now intros (_ & e & He & _)]. }
  destruct (0 <? cache_ttl_ms self) eqn:Ht;
    destruct (cache_ttl_ms self <? age_ms now_us (recv_ts_us e)) eqn:Ha;
    cbn [andb].
  - apply Z.ltb_lt in Ht, Ha. split; [discriminate |].
    intros (_ & e' & He & Hfresh & _). injection He as <-.
    exfalso. apply Hfresh. now split.
  - apply Z.ltb_ge in Ha. split.
    + intros H. injection H as <-. split; [exact Hu |].
      exists e. repeat split. lia.
    + intros (_ & e' & He & _ & ->). now injection He as <-.
  - apply Z.ltb_ge in Ht. split.
    + intros H. injection H as <-. split; [exact Hu |].
      exists e. repeat split. lia.
    + intros (_ & e' & He & _ & ->). now injection He as <-.
  - apply Z.ltb_ge in Ht. split.
    + intros H. injection H as <-. split; [exact Hu |].
      exists e. repeat split. lia.
    + intros (_ & e' & He & _ & ->). now injection He as <-.
Qed.

(** [gst_udpjson_meta_transform_ip] on a batch.  Every frame and every
    object is visited once, in order, and each object is decided on its
    own: it receives metadata exactly when its id is not
    [UNTRACKED_OBJECT_ID], the cache has an entry under the key made of
    the source id of its frame and its own id, and that entry is not
    expired; the metadata then carries the value and the receipt time of
    that entry under the configured value key, ["value"] when that key is
    unset (the pool of user metadata being taken to yield a slot).  A
    buffer without batch metadata is passed on untouched. *)
Theorem transform_ip_attaches_fresh_entries frames i j sid oids oid :
  frames !! i = Some (sid, oids) ->
  oids !! j = Some oid ->
  gst_udpjson_meta_transform_ip self now_us None = []
  /\ length (gst_udpjson_meta_transform_ip self now_us (Some frames))
     = length frames
  /\ exists row r,
       gst_udpjson_meta_transform_ip self now_us (Some frames) !! i
       = Some row
       /\ length row = length oids
       /\ row !! j = Some (oid, r)
       /\ forall m,
            r = Some m
            <-> oid <> UNTRACKED_OBJECT_ID
                /\ exists e,
                     cache self !! (sid, oid) = Some e
                     /\ ~ expired self now_us e
                     /\ m = meta_of_entry self e.
Proof.
  intros Hi Hj. split; [reflexivity |].
  cbn [gst_udpjson_meta_transform_ip]. split; [apply length_map |].
  exists (transform_frame self now_us (sid, oids)),
    (transform_object self sid now_us oid).
  split; [| split; [| split]].
  - now rewrite map_lookup, Hi.
  - apply length_map.
  - unfold transform_frame. cbn [fst snd]. now rewrite map_lookup, Hj.
  - intros m. apply transform_object_some.
Qed.

End FrameLoop.

Section EndToEnd.

Variables (lib : GLib).

(** An envelope whose object id coerces to [2^64 - 1], as the JSON integer
    -1 does, is stored like any other and takes a place in the cache, yet
    no object can ever receive it: the frame loop skips the object id
    [UNTRACKED_OBJECT_ID] before it looks into the cache. *)
Theorem untracked_id_is_cached_but_never_attached
    self data len ts obj n_o n_v :
  envelope lib self data len obj n_o n_v UNTRACKED_OBJECT_ID ->
  udpjson_parse_uint64 lib (Some (JsonVal (VInt64 (-1))))
  = Some UNTRACKED_OBJECT_ID
  /\ (exists sid,
         cache (udpjson_parse_and_cache lib self data len ts)
           !! (sid, UNTRACKED_OBJECT_ID)
         = Some {| value := canonical_value_string lib n_v;
                   recv_ts_us := ts |})
  /\ 1 <= g_hash_table_size
            (cache (udpjson_parse_and_cache lib self data len ts))
  /\ forall sid later,
       transform_object (udpjson_parse_and_cache lib self data len ts)
         sid later UNTRACKED_OBJECT_ID
       = None.
Proof.
  intros Henv. split; [reflexivity |].
  rewrite (parse_and_cache_envelope _ _ _ _ _ _ _ _ _ Henv).
  set (sid := Int.to_guint32 _).
  set (v := canonical_value_string lib n_v).
  pose proof (cache_update_lookup_same self sid UNTRACKED_OBJECT_ID v ts)
    as Hl.
  split; [now exists sid | split].
  - unfold g_hash_table_size.
    destruct (size (cache (udpjson_cache_update self sid
                             UNTRACKED_OBJECT_ID (Some v) ts))) eqn:Hsz;
      [| lia].
    apply map_size_empty_inv in Hsz. rewrite Hsz in Hl.
    rewrite lookup_empty in Hl. discriminate Hl.
  - intros sid' later. unfold transform_object.
    now rewrite Z.eqb_refl.
Qed.


End EndToEnd.

(** A frame of source 0 with the object 7 and an untracked object, over
    the cache that holds the sample envelope. *)
Lemma transform_ip_attaches_fresh_entries_witness :
  exists row,
    gst_udpjson_meta_transform_ip sample_cached 60
      (Some [(0, [7; UNTRACKED_OBJECT_ID])]) !! 0%nat
    = Some row
    /\ row !! 0%nat
       = Some (7, Some {| meta_key := "value"; meta_value := "hot";
                          meta_recv_ts_us := 50 |}).
Proof.
  pose proof (transform_ip_attaches_fresh_entries sample_cached 60
                [(0, [7; UNTRACKED_OBJECT_ID])] 0 0 0
                [7; UNTRACKED_OBJECT_ID] 7
                ltac:(reflexivity) ltac:(reflexivity)) as H.
  destruct H as (_ & _ & row & r & Hrow & _ & Hr & Hiff).
  exists row. split; [exact Hrow |].
  rewrite Hr. f_equal. f_equal.
  apply Hiff. split; [vm_compute; discriminate |].
  exists {| value := "hot"; recv_ts_us := 50 |}.
  split; [| split].
  - apply cache_update_lookup_same.
  - intros [_ Hage]. vm_compute in Hage. discriminate Hage.
  - vm_compute. reflexivity.
Defined.

(** The envelope for the object id -1. *)
Lemma untracked_id_is_cached_but_never_attached_witness :
  let lib := glib_for [JsonObj untracked_obj] in
  let self' :=
    udpjson_parse_and_cache lib gst_udpjson_meta_init
      (datagram_of (JsonObj untracked_obj))
      (datagram_len (JsonObj untracked_obj)) 50 in
  1 <= g_hash_table_size (cache self')
  /\ forall sid later,
       transform_object self' sid later UNTRACKED_OBJECT_ID = None.
Proof.
  intros lib self'.
  pose proof (untracked_id_is_cached_but_never_attached lib
                gst_udpjson_meta_init
                (datagram_of (JsonObj untracked_obj))
                (datagram_len (JsonObj untracked_obj)) 50 untracked_obj
                (JsonVal (VInt64 (-1))) (JsonVal (VString "lost"))) as H.
  specialize (H ltac:(repeat split; vm_compute; reflexivity)).
  destruct H as (_ & _ & Hsize & Hnever).
  split; [exact Hsize | exact Hnever].
Defined.


(** * The element: properties, socket and life cycle *)

Section Properties.

Import Plugin.

(** The nine property ids, and everything else. *)
Lemma property_id_cases (p : Z) :
  p = 1 \/ p = 2 \/ p = 3 \/ p = 4 \/ p = 5 \/ p = 6 \/ p = 7 \/ p = 8
  \/ p = 9
  \/ (p =? 1) = false /\ (p =? 2) = false /\ (p =? 3) = false
     /\ (p =? 4) = false /\ (p =? 5) = false /\ (p =? 6) = false
     /\ (p =? 7) = false /\ (p =? 8) = false /\ (p =? 9) = false.
Proof.
  destruct (Z.eqb_spec p 1); [tauto |]. destruct (Z.eqb_spec p 2); [tauto |].
  destruct (Z.eqb_spec p 3); [tauto |]. destruct (Z.eqb_spec p 4); [tauto |].
  destruct (Z.eqb_spec p 5); [tauto |]. destruct (Z.eqb_spec p 6); [tauto |].
  destruct (Z.eqb_spec p 7); [tauto |]. destruct (Z.eqb_spec p 8); [tauto |].
  destruct (Z.eqb_spec p 9); [tauto |].
  do 9 right. repeat split; reflexivity.
Qed.

Ltac unfold_properties :=
  unfold gst_udpjson_meta_set_property, gst_udpjson_meta_get_property,
    PROP_MULTICAST_IP, PROP_PORT, PROP_IFACE, PROP_RECV_BUF_SIZE,
    PROP_JSON_KEY, PROP_OBJECT_ID_KEY, PROP_SOURCE_ID_KEY,
    PROP_CACHE_TTL_MS, PROP_MAX_CACHE_SIZE in *.

Ltac by_property p :=
  let H := fresh "Hout" in
  destruct (property_id_cases p)
    as [-> | [-> | [-> | [-> | [-> | [-> | [-> | [-> | [-> | H]]]]]]]]];
  [.. | destruct H as (? & ? & ? & ? & ? & ? & ? & ? & ?)].

Ltac outside_properties :=
  repeat match goal with
         | H : (?p =? ?k) = false |- _ => rewrite ?H in *; clear H
         end.

(** [gst_udpjson_meta_set_property] and [gst_udpjson_meta_get_property].
    Reading a property back returns the value written, when that value is
    of the type of the property; writing one property leaves every other
    as read before; an id that is none of the nine changes nothing and
    reads as nothing; and no write touches the socket, the thread, the
    stop flag or the cache. *)
Theorem properties_round_trip (self : Element) (p : Z) (v : GValue) :
  (forall old,
      gst_udpjson_meta_get_property self p = Some old ->
      same_kind old v = true ->
      gst_udpjson_meta_get_property
        (gst_udpjson_meta_set_property self p v) p
      = Some v)
  /\ (forall q,
         q <> p ->
         gst_udpjson_meta_get_property
           (gst_udpjson_meta_set_property self p v) q
         = gst_udpjson_meta_get_property self q)
  /\ (gst_udpjson_meta_get_property self p = None ->
      gst_udpjson_meta_set_property self p v = self)
  /\ sockfd (gst_udpjson_meta_set_property self p v) = sockfd self
  /\ recv_thread (gst_udpjson_meta_set_property self p v)
     = recv_thread self
  /\ stop_flag (gst_udpjson_meta_set_property self p v) = stop_flag self
  /\ cache (core (gst_udpjson_meta_set_property self p v))
     = cache (core self).
Proof.
  split; [| split; [| split]].
  - intros old Hget Hkind. unfold_properties.
    by_property p; outside_properties; cbn in Hget |- *;
      try discriminate Hget;
      injection Hget as <-; destruct v; try discriminate Hkind;
      reflexivity.
  - intros q Hq. unfold_properties.
    by_property p; by_property q; outside_properties;
      try (exfalso; apply Hq; reflexivity); reflexivity.
  - intros Hget. unfold_properties.
    by_property p; outside_properties; cbn in Hget |- *;
      try discriminate Hget; reflexivity.
  - unfold_properties.
    by_property p; outside_properties; repeat split; reflexivity.
Qed.

End Properties.

Section Socket.

Import Plugin.

Ltac split_tests :=
  repeat match goal with
         | |- context [if ?a <? ?b then _ else _] =>
             destruct (Z.ltb_spec a b)
         | |- context [if ?a <=? ?b then _ else _] =>
             destruct (Z.leb_spec a b)
         | |- context [if ?a =? ?b then _ else _] =>
             destruct (Z.eqb_spec a b)
         end.

Ltac run_socket_code :=
  unfold gst_udpjson_meta_start, gst_udpjson_meta_stop,
    udpjson_teardown_socket, udpjson_setup_socket, join_group,
    membership_interface, setup_succeeds, idle, count;
  cbn [multicast_ip port iface recv_buf_size core sockfd recv_thread
       stop_flag with_sockfd with_stop_flag with_recv_thread
       socket_ret reuseaddr_ret rcvbuf_ret bind_ret ioctl_ret ioctl_addr
       bindtodevice_ret add_membership_ret getfl_ret setfl_ret].

Ltac settle :=
  repeat match goal with
         | |- _ /\ _ => split
         | |- _ <-> _ => split
         | |- forall _, _ => intro
         | |- Forall _ [] => constructor
         | |- Forall _ (_ :: _) => constructor
         | |- True => exact I
         end;
  try reflexivity; try congruence; try lia; try (cbn in *; congruence).

(** [udpjson_setup_socket].  It succeeds exactly when [socket], [bind]
    and the multicast join succeed; the failure of any other call
    ([SO_REUSEADDR], [SO_RCVBUF], the interface query, [SO_BINDTODEVICE],
    [fcntl]) is tolerated.  On success the element holds the descriptor
    and nothing was closed.  On failure the element holds a negative
    descriptor and a socket that was created has been closed, once, as the
    last call.  Every call is made on the descriptor [socket] returned;
    the join names the configured group and, as interface, the address
    the query returned when an interface name is set and the query
    succeeded, [INADDR_ANY] otherwise; nothing but the descriptor
    changes in the element. *)
Theorem setup_socket_outcome env self ok self' trace :
  udpjson_setup_socket env self = (ok, self', trace) ->
  (ok = true <-> setup_succeeds env)
  /\ (ok = true ->
      sockfd self' = socket_ret env /\ count is_close trace = 0%nat)
  /\ (ok = false ->
      sockfd self' < 0
      /\ (socket_ret env < 0 -> trace = [sys_socket])
      /\ (0 <= socket_ret env ->
          count is_close trace = 1%nat
          /\ last trace = Some (sys_close (socket_ret env))))
  /\ count is_socket trace = 1%nat
  /\ Forall (fun e => forall fd,
                 effect_fd e = Some fd -> fd = socket_ret env) trace
  /\ Forall (fun e => match e with
                      | sys_add_membership _ group ifaddr =>
                          group = multicast_ip self
                          /\ ifaddr = membership_interface env self
                      | sys_bind _ sin_port =>
                          sin_port = port self mod 2 ^ 16
                      | _ => True
                      end) trace
  /\ with_sockfd self' (sockfd self) = self.
Proof.
  destruct self as [mip prt ifc rbs cr fd th sf].
  destruct env as [e1 e2 e3 e4 e5 e6 e7 e8 e9 e10].
  intros H. revert H. run_socket_code.
  destruct ifc as [[| c name] |]; cbn [String.length Nat.ltb Nat.leb];
    split_tests; intros [= <- <- <-]; cbn; settle.
Qed.

(** [gst_udpjson_meta_start] on an element that holds neither socket nor
    thread, followed by [gst_udpjson_meta_stop].  The start succeeds
    exactly when the socket set-up does, and only then creates the
    thread; the stop joins the thread before it closes the socket and
    always reports success.  Over the two calls every socket created is
    closed once and every thread created is joined once; afterwards the
    element again holds neither, with the stop flag set, and a second stop
    does nothing.  Neither call touches the cache or the configuration, so
    entries cached before a stop are still there after a restart. *)
Theorem start_then_stop_is_balanced env self ok self1 t1 ok' self2 t2 :
  idle self ->
  gst_udpjson_meta_start env self = (ok, self1, t1) ->
  gst_udpjson_meta_stop self1 = (ok', self2, t2) ->
  (ok = true <-> setup_succeeds env)
  /\ (ok = true ->
      recv_thread self1 = true
      /\ sockfd self1 = socket_ret env
      /\ last t1 = Some thread_new
      /\ t2 = [thread_join; sys_close (socket_ret env)])
  /\ (ok = false ->
      idle self1 /\ count is_thread_new t1 = 0%nat /\ t2 = [])
  /\ stop_flag self1 = 0
  /\ ok' = true
  /\ idle self2
  /\ stop_flag self2 = 1
  /\ count is_close (t1 ++ t2)
     = (if 0 <=? socket_ret env then 1%nat else 0%nat)
  /\ count is_thread_join (t1 ++ t2) = count is_thread_new (t1 ++ t2)
  /\ core self1 = core self
  /\ core self2 = core self
  /\ gst_udpjson_meta_stop self2 = (true, self2, []).
Proof.
  destruct self as [mip prt ifc rbs cr fd th sf].
  destruct env as [e1 e2 e3 e4 e5 e6 e7 e8 e9 e10].
  intros [Hfd Hth] H1 H2. cbn in Hfd, Hth. subst th.
  revert H1 H2. run_socket_code.
  destruct ifc as [[| c name] |]; cbn [String.length Nat.ltb Nat.leb];
    split_tests; intros [= <- <- <-]; cbn; split_tests;
    intros [= <- <- <-]; cbn; split_tests; settle.
Qed.

(** The parameter specifications installed by
    [gst_udpjson_meta_class_init] against the code that uses the
    properties.  A fresh element holds, for each of the nine properties,
    the default of its specification, and the ids the property accessors
    handle are the installed ones.  For an element whose values are within
    their specifications, [bind] receives the port itself, the cast to 16
    bits losing nothing; [SO_RCVBUF] is set only for a positive size, and
    a size from [2^31] on, which the specification admits, is passed as
    the negative number its cast to [int] yields. *)
Theorem pspecs_against_their_use env self ok self' trace :
  within_pspecs self ->
  udpjson_setup_socket env self = (ok, self', trace) ->
  (forall p ps,
      In (p, ps) gst_udpjson_meta_class_init ->
      gst_udpjson_meta_get_property gst_udpjson_meta_init_element p
      = Some (pspec_default ps))
  /\ (forall p,
         gst_udpjson_meta_get_property self p <> None
         <-> exists ps, In (p, ps) gst_udpjson_meta_class_init)
  /\ Forall (fun e => match e with
                      | sys_bind _ sin_port => sin_port = port self
                      | sys_setsockopt_rcvbuf _ rcvbuf =>
                          0 < recv_buf_size self
                          /\ (recv_buf_size self < 2 ^ 31 ->
                              rcvbuf = recv_buf_size self)
                          /\ (2 ^ 31 <= recv_buf_size self ->
                              rcvbuf = recv_buf_size self - 2 ^ 32
                              /\ rcvbuf < 0)
                      | _ => True
                      end) trace.
Proof.
  intros Hin Hrun.
  split; [| split].
  - intros p ps Hp. cbn in Hp.
    repeat (destruct Hp as [[= <- <-] | Hp]; [reflexivity |]).
    destruct Hp.
  - intros p. split.
    + intros Hget. revert Hget.
      unfold gst_udpjson_meta_get_property.
      repeat match goal with
             | |- context [if p =? ?k then _ else _] =>
                 destruct (Z.eqb_spec p k) as [-> | _];
                   [intros _; eexists; cbn; tauto |]
             end.
      congruence.
    + intros (ps & Hp). cbn in Hp.
      repeat (destruct Hp as [[= <- _] | Hp]; [vm_compute; discriminate |]).
      destruct Hp.
  - assert (Hport : 1 <= port self <= 65535).
    { destruct (Hin PROP_PORT _ ltac:(cbn; tauto)) as (v & Hv & Hadm).
      injection Hv as <-. exact Hadm. }
    assert (Hrbs : 0 <= recv_buf_size self <= G_MAXUINT).
    { destruct (Hin PROP_RECV_BUF_SIZE _ ltac:(cbn; tauto))
        as (v & Hv & Hadm).
      injection Hv as <-. exact Hadm. }
    unfold G_MAXUINT in Hrbs.
    assert (Hp16 : Int.to_guint16 (port self) = port self).
    { unfold Int.to_guint16. apply Z.mod_small. lia. }
    assert (Hr32 : to_gint32 (recv_buf_size self)
                   = if recv_buf_size self <? 2 ^ 31
                     then recv_buf_size self
                     else recv_buf_size self - 2 ^ 32).
    { unfold to_gint32. cbv zeta. now rewrite Z.mod_small by lia. }
    clear Hin. revert Hrun.
    destruct self as [mip prt ifc rbs cr fd th sf].
    destruct env as [e1 e2 e3 e4 e5 e6 e7 e8 e9 e10].
    cbn [port recv_buf_size] in *.
    run_socket_code. rewrite Hp16.
    destruct ifc as [[| c name] |]; cbn [String.length Nat.ltb Nat.leb];
      split_tests; intros [= <- <- <-]; cbn;
      repeat (constructor; try exact I; try reflexivity);
      try rewrite Hr32; try assumption;
      try (destruct (Z.ltb_spec rbs (2 ^ 31)); lia).
Qed.

End Socket.

(** A fresh element given an interface name, under an operating system
    that grants every call: the join is made on descriptor 5 with the
    address of the interface, and nothing is closed. *)
Lemma setup_socket_outcome_witness :
  let self :=
    Plugin.gst_udpjson_meta_set_property
      Plugin.gst_udpjson_meta_init_element Plugin.PROP_IFACE
      (Plugin.GString (Some "eth0")) in
  let run := Plugin.udpjson_setup_socket granting_env self in
  fst (fst run) = true
  /\ count is_close (snd run) = 0%nat
  /\ In (Plugin.sys_add_membership 5 (Some "239.255.0.1") 0x0A000007)
       (snd run).
Proof.
  intros self run.
  pose proof (setup_socket_outcome granting_env self
                (fst (fst run)) (snd (fst run)) (snd run)
                ltac:(vm_compute; reflexivity)) as H.
  destruct H as (Hok & Hopen & _).
  assert (Htrue : fst (fst run) = true).
  { apply Hok. vm_compute. repeat split; discriminate. }
  split; [exact Htrue |]. split; [exact (proj2 (Hopen Htrue)) |].
  vm_compute. tauto.
Defined.

(** A fresh element under an operating system that refuses the join:
    start fails after closing the socket, and the stop that follows finds
    nothing to join or close. *)
Lemma start_then_stop_is_balanced_witness :
  let started :=
    Plugin.gst_udpjson_meta_start refusing_env
      Plugin.gst_udpjson_meta_init_element in
  let stopped := Plugin.gst_udpjson_meta_stop (snd (fst started)) in
  fst (fst started) = false
  /\ count is_close (snd started ++ snd stopped) = 1%nat
  /\ snd stopped = [].
Proof.
  intros started stopped.
  pose proof (start_then_stop_is_balanced refusing_env
                Plugin.gst_udpjson_meta_init_element
                (fst (fst started)) (snd (fst started)) (snd started)
                (fst (fst stopped)) (snd (fst stopped)) (snd stopped)
                ltac:(split; [vm_compute; reflexivity | reflexivity])
                ltac:(vm_compute; reflexivity)
                ltac:(vm_compute; reflexivity)) as H.
  destruct H as (Hok & _ & Hfail & _ & _ & _ & _ & Hclose & _).
  assert (Hfalse : fst (fst started) = false).
  { destruct (fst (fst started)); [| reflexivity].
    destruct (proj1 Hok eq_refl) as (_ & _ & Hjoin).
    vm_compute in Hjoin. exfalso. now apply Hjoin. }
  split; [exact Hfalse |]. split; [exact Hclose |].
  exact (proj2 (proj2 (Hfail Hfalse))).
Defined.

(** Writing the port and reading it back; the value key is left as it
    was. *)
Lemma properties_round_trip_witness :
  let self' :=
    Plugin.gst_udpjson_meta_set_property
      Plugin.gst_udpjson_meta_init_element Plugin.PROP_PORT
      (Plugin.GUInt 7000) in
  Plugin.gst_udpjson_meta_get_property self' Plugin.PROP_PORT
  = Some (Plugin.GUInt 7000)
  /\ Plugin.gst_udpjson_meta_get_property self' Plugin.PROP_JSON_KEY
     = Some (Plugin.GString (Some "value")).
Proof.
  intros self'.
  pose proof (properties_round_trip Plugin.gst_udpjson_meta_init_element
                Plugin.PROP_PORT (Plugin.GUInt 7000)) as H.
  destruct H as (Hsame & Hother & _).
  split.
  - apply (Hsame (Plugin.GUInt Plugin.DEFAULT_PORT));
      [vm_compute; reflexivity | reflexivity].
  - subst self'. rewrite (Hother Plugin.PROP_JSON_KEY);
      [vm_compute; reflexivity | vm_compute; discriminate].
Defined.

(** A fresh element asked for a receive buffer of 3000000000 bytes: the
    size is within its specification, and [SO_RCVBUF] is set to the
    negative -1294967296. *)
Lemma pspecs_against_their_use_witness :
  let self :=
    Plugin.gst_udpjson_meta_set_property
      Plugin.gst_udpjson_meta_init_element Plugin.PROP_RECV_BUF_SIZE
      (Plugin.GUInt 3000000000) in
  let run := Plugin.udpjson_setup_socket granting_env self in
  In (Plugin.sys_setsockopt_rcvbuf 5 (-1294967296)) (snd run)
  /\ Forall (fun e => match e with
                      | Plugin.sys_bind _ sin_port => sin_port = 6000
                      | Plugin.sys_setsockopt_rcvbuf _ rcvbuf => rcvbuf < 0
                      | _ => True
                      end) (snd run).
Proof.
  intros self run.
  assert (Hin : within_pspecs self).
  { intros p ps Hp. cbn in Hp.
    repeat (destruct Hp as [[= <- <-] | Hp];
            [eexists; split;
             [vm_compute; reflexivity
             | first [exact I
                     | split; vm_compute; discriminate]] |]).
    destruct Hp. }
  pose proof (pspecs_against_their_use granting_env self
                (fst (fst run)) (snd (fst run)) (snd run) Hin
                ltac:(vm_compute; reflexivity)) as H.
  destruct H as (_ & _ & Huse).
  split; [vm_compute; tauto |].
  eapply Forall_impl; [exact Huse |].
  intros [] He; try exact I.
  - apply He. vm_compute. discriminate.
  - exact He.
Defined.

(** ** The static buffer of the name functions *)

(** Two calls of [cuav_get_msg_id_name] (and likewise of
    [cuav_get_target_type_name]) in a row.  The pointer of each call
    designates, when the call returns, the name of its argument.  After
    the second call the pointer of the first still designates that name
    when the first argument is in the table; when neither argument is in
    the table, both pointers are the static buffer and the first one now
    designates the name of the second argument. *)
Theorem name_buffer_is_shared (buf : string) (a b : Z) :
  let first := cuav_get_msg_id_name_ptr buf a in
  let second := cuav_get_msg_id_name_ptr (snd first) b in
  let tfirst := cuav_get_target_type_name_ptr buf a in
  let tsecond := cuav_get_target_type_name_ptr (snd tfirst) b in
  deref (snd first) (fst first) = cuav_get_msg_id_name a
  /\ deref (snd second) (fst second) = cuav_get_msg_id_name b
  /\ (table_lookup cuav_msg_id_names a <> None ->
      deref (snd second) (fst first) = cuav_get_msg_id_name a)
  /\ (table_lookup cuav_msg_id_names a = None ->
      table_lookup cuav_msg_id_names b = None ->
      fst first = fst second
      /\ deref (snd second) (fst first) = cuav_get_msg_id_name b)
  /\ deref (snd tfirst) (fst tfirst) = cuav_get_target_type_name a
  /\ deref (snd tsecond) (fst tsecond) = cuav_get_target_type_name b
  /\ (table_lookup cuav_target_type_names a <> None ->
      deref (snd tsecond) (fst tfirst) = cuav_get_target_type_name a)
  /\ (table_lookup cuav_target_type_names a = None ->
      table_lookup cuav_target_type_names b = None ->
      fst tfirst = fst tsecond
      /\ deref (snd tsecond) (fst tfirst) = cuav_get_target_type_name b).
Proof.
  unfold cuav_get_msg_id_name_ptr, cuav_get_target_type_name_ptr,
    cuav_get_msg_id_name, cuav_get_target_type_name.
  cbv zeta.
  destruct (table_lookup cuav_msg_id_names a) as [la |];
    destruct (table_lookup cuav_msg_id_names b) as [lb |];
    destruct (table_lookup cuav_target_type_names a) as [ta |];
    destruct (table_lookup cuav_target_type_names b) as [tb |];
    cbn [fst snd deref];
    repeat split; try reflexivity; try congruence; intros; congruence.
Qed.

(** The unlisted identities 0x7ABC and 0x7DEF: after the second call the
    pointer of the first designates the second name. *)
Lemma name_buffer_is_shared_witness :
  let first := cuav_get_msg_id_name_ptr "" 0x7ABC in
  let second := cuav_get_msg_id_name_ptr (snd first) 0x7DEF in
  deref (snd first) (fst first) = "未知(0x7ABC)"
  /\ deref (snd second) (fst first) = "未知(0x7DEF)".
Proof.
  intros first second.
  pose proof (name_buffer_is_shared "" 0x7ABC 0x7DEF) as H.
  cbv zeta in H. destruct H as (Hfirst & _ & _ & Hboth & _).
  specialize (Hboth ltac:(vm_compute; reflexivity)
                    ltac:(vm_compute; reflexivity)).
  split.
  - subst first. rewrite Hfirst. vm_compute. reflexivity.
  - subst first second. rewrite (proj2 Hboth). vm_compute. reflexivity.
Defined.
